(** * openapi-enforcer-middleware: a shallow embedding of the request pipeline

    The development follows [src/dist/index.js] (the file that defines
    [OpenApiEnforcerMiddleware], [mapControllers] and [middlewareRunner]).

    - JavaScript objects that the middleware copies and mutates (the request,
      its [headers], [query], ... sub-objects) live in a heap of property maps,
      so that a copy and its original are distinct locations.
    - The single response object of a request is a record in the state; the
      function stored in [res.send] is a tag, [SendOriginal] or
      [SendIntercept], which is what the source swaps back and forth.
    - A handler is a small program ([prog]) over the operations handlers
      perform on [req], [res] and [next]; the runner interprets it.
    - The external collaborators (the [openapi-enforcer] catalog, its
      [Exception] class, [require]) are records of functions or parameters.

    Conventions of the model: an object is given by its own properties; an
    error passed to [next] or thrown is an [Error] object, and the absence
    of an error is [None]; the callbacks of the (already settled) promises
    run where they are registered, so one request is one sequence of steps;
    one runner is alive per request. *)

From stdpp Require Import base option list gmap strings pretty.
From Stdlib Require Import ZArith Lia Ascii.

Set Warnings "-register-all".

Local Open Scope string_scope.
Local Open Scope list_scope.
Local Open Scope Z_scope.
Local Open Scope nat_scope.

(** ** Enforcer.Exception (external collaborator)

    A tree of messages: [message] adds a line, [at] returns the child kept
    under a key (created on first use), [nest] adds a new child below a header,
    [push] adds an existing exception as a child. [hasException] holds when
    some node of the tree carries a message. *)

Inductive exception : Type :=
  Exception (header : string) (statusCode : option Z) (messages : list string)
            (ats : list (string * exception)) (nests : list exception).

Definition exc_new (header : string) : exception := Exception header None [] [] [].

Definition exc_header (e : exception) : string :=
  match e with Exception h _ _ _ _ => h end.
Definition exc_statusCode (e : exception) : option Z :=
  match e with Exception _ c _ _ _ => c end.
Definition exc_ats (e : exception) : list (string * exception) :=
  match e with Exception _ _ _ a _ => a end.

Definition exc_set_statusCode (c : Z) (e : exception) : exception :=
  match e with Exception h _ m a n => Exception h (Some c) m a n end.

Definition exc_message (msg : string) (e : exception) : exception :=
  match e with Exception h c m a n => Exception h c (m ++ [msg]) a n end.

Definition exc_push (child : exception) (e : exception) : exception :=
  match e with Exception h c m a n => Exception h c m a (n ++ [child]) end.

Fixpoint alist_update {A} (key : string) (dflt : A) (f : A -> A)
    (l : list (string * A)) : list (string * A) :=
  match l with
  | [] => [(key, f dflt)]
  | (k, v) :: l' =>
      if String.eqb k key then (k, f v) :: l' else (k, v) :: alist_update key dflt f l'
  end.

(** [exception.at(key)] followed by the updates [f] made through the child. *)
Definition exc_at (key : string) (f : exception -> exception) (e : exception) : exception :=
  match e with
  | Exception h c m a n => Exception h c m (alist_update key (exc_new "") f a) n
  end.

(** [exception.nest(header)] followed by the updates [f] made through the child. *)
Definition exc_nest (header : string) (f : exception -> exception) (e : exception) : exception :=
  exc_push (f (exc_new header)) e.

Fixpoint hasException (e : exception) : bool :=
  match e with
  | Exception _ _ m a n =>
      negb (match m with [] => true | _ => false end)
      || existsb (fun kc => match kc with (_, c) => hasException c end) a
      || existsb hasException n
  end.

(** Every message of the tree with the path of keys and headers above it. *)
Fixpoint exc_lines (e : exception) : list (list string * string) :=
  match e with
  | Exception _ _ m a n =>
      map (fun s => ([], s)) m
      ++ flat_map (fun kc => match kc with
                             | (k, c) => map (fun ps => (k :: fst ps, snd ps)) (exc_lines c)
                             end) a
      ++ flat_map (fun c => map (fun ps => (exc_header c :: fst ps, snd ps)) (exc_lines c)) n
  end.

Definition render_line (ps : list string * string) : string :=
  match fst ps with
  | [] => snd ps
  | path => String.concat " > " path +:+ ": " +:+ snd ps
  end.

(** [exception.toString()]. The library lays the tree out over several
    indented lines; here it is flattened to one line, the header followed by
    each message with its path. The statements below depend on the rendering
    only where they spell a rendered text out. *)
Definition exc_toString (e : exception) : string :=
  String.concat "; " (exc_header e :: map render_line (exc_lines e)).

(** ** Error objects *)

Record error : Type := mkError {
  err_message : string;
  err_statusCode : option Z;
  err_exception : option exception;
  err_code : option string;
  err_stack : list string;         (* the lines of [stack]; empty when there is none *)
  err_name : string                (* [name]: "Error", "TypeError", ... *)
}.

(** The stack the engine gives an error it creates: the line
    [name: message], then the call frames, one line each. The frames depend
    on where the error was created; they are kept as one line. *)
Definition frames : list string := ["    at <anonymous>"].

Definition engine_stack (name msg : string) : list string :=
  (name +:+ ": " +:+ msg) :: frames.

Definition Error (msg : string) : error :=
  mkError msg None None None (engine_stack "Error" msg) "Error".

(** A [TypeError] raised by the language itself (property access on
    [undefined], calling something that is not a function) or by the
    framework. *)
Definition TypeError (msg : string) : error :=
  mkError msg None None None (engine_stack "TypeError" msg) "TypeError".

(** [String(error)], that is [Error.prototype.toString]. *)
Definition error_to_string (err : error) : string :=
  if String.eqb (err_name err) "" then err_message err
  else if String.eqb (err_message err) "" then err_name err
  else err_name err +:+ ": " +:+ err_message err.

Definition errorFromException (exception : exception) : error :=
  let err := Error (exc_toString exception) in
  mkError (err_message err) (exc_statusCode exception) (Some exception)
    (err_code err) (err_stack err) (err_name err).

(** ** Values

    [data] is a payload (a request or response body). [value] is what a
    property of a request object, a status code or a header can hold. Objects
    are modelled by their own properties. *)

Inductive data : Type :=
| DNull
| DNum (n : Z)
| DStr (s : string)
| DArr (items : list data)
| DObj (props : list (string * data)).

(** [schema.random()] returns the triple [[value, err, warning]]. The result
    of the call made for a request is a field of the schema. *)
Record schema : Type := {
  random : data * option exception * option exception
}.

(** An entry of [operation.responses]: [schema] for version 2 documents,
    [content] (content type to media type object) for version 3. *)
Record response_spec : Type := {
  rs_schema : option schema;
  rs_content : option (list (string * option schema))
}.

Definition loc := nat.
Definition opid := nat.

(** The mock decision object the mock middleware stores on the request. *)
Record mock_value (V : Type) : Type := mkMock {
  mock_source : string;
  mock_specified : bool;
  mock_statusCode : V;
  mock_response : option response_spec
}.
Arguments mkMock {V}.
Arguments mock_source {V}.
Arguments mock_specified {V}.
Arguments mock_statusCode {V}.
Arguments mock_response {V}.

Inductive value : Type :=
| VUndefined
| VNum (n : Z)
| VStr (s : string)
| VData (d : data)
| VRef (l : loc)                 (* a plain object on the heap *)
| VOpenApi                       (* the resolved catalog *)
| VOperation (o : opid)          (* an operation object of the catalog *)
| VMock (m : mock_value value).

Abbreviation mock := (mock_value value).
Abbreviation obj := (gmap string value).

Definition truthy (v : value) : bool :=
  match v with
  | VUndefined => false
  | VNum n => negb (n =? 0)%Z
  | VStr s => negb (String.eqb s "")
  | _ => true
  end.

(** [a || b] on values. *)
Definition js_or (a b : value) : value := if truthy a then a else b.

(** [String(v)], which is also how a value is used as a property key. *)
Definition to_string (v : value) : string :=
  match v with
  | VUndefined => "undefined"
  | VNum n => pretty n
  | VStr s => s
  | _ => "[object Object]"
  end.

(** [v !== ''] *)
Definition not_empty_string (v : value) : bool :=
  match v with VStr s => negb (String.eqb s "") | _ => true end.

(** [v === n] for a number literal [n] (strict: a string never equals it). *)
Definition strict_eq_num (v : value) (n : Z) : bool :=
  match v with VNum m => (m =? n)%Z | _ => false end.

Definition of_option (o : option string) : value :=
  match o with Some s => VStr s | None => VUndefined end.

(** ** Configuration *)

Record options : Type := {
  fallthrough : bool;
  mockHeader : string;
  mockQuery : string;
  reqMockStatusCodeProperty : string;
  reqOpenApiProperty : string;
  reqOperationProperty : string;
  xController : string;
  xOperation : string
}.

Definition ENFORCER_HEADER : string := "x-openapi-enforcer".

(** ** The catalog (external collaborator) *)

(** What [operation.response(code, body, headers)] returns on success, after
    [extractValue]: the headers to set and the body to send, if any. *)
Record serialized : Type := {
  sr_headers : list (string * string);
  sr_body : option data
}.

(** What [operation.getResponseContentTypeMatches(code, accepts)] returns: an
    [EnforcerResult], which destructures as [[value, error]]. The value is
    the array of the content types that match, or [undefined] when there is
    an error. *)
Record matches_result : Type := {
  mr_value : option (list string);
  mr_error : option exception
}.

Record operation : Type := {
  op_responses : list (string * response_spec);     (* in [Object.keys] order *)
  op_getResponseContentTypeMatches : value -> value -> matches_result;
  op_response : value -> option data -> gmap string string -> serialized + exception
}.

(** The object handed to [openapi.request]. *)
Record request_obj : Type := {
  ro_headers : value;
  ro_method : value;
  ro_path : string;
  ro_body : option value
}.

(** The first component of the result of [openapi.request] when valid. *)
Record parsed_request : Type := {
  pr_operation : opid;
  pr_path : option obj;
  pr_cookies : option obj;
  pr_headers : option obj;
  pr_params : option obj;
  pr_query : option obj;
  pr_body : option value
}.

(** An operation as [mapControllers] reads it: its identity and its string
    properties ([x-controller], [x-operation], [operationId]). *)
Record op_decl : Type := {
  od_operation : opid;
  od_prop : string -> option string
}.

(** A path item: its string properties, its [methods] and the operation
    stored under a method. *)
Record path_item : Type := {
  pi_prop : string -> option string;
  pi_methods : list string;
  pi_operation : string -> option op_decl
}.

Record openapi : Type := {
  oa_swagger : option string;     (* own property [swagger], if any *)
  oa_openapi : string;            (* the [openapi] version string *)
  oa_prop : string -> option string;          (* other string properties of the document *)
  oa_paths : list (string * path_item);       (* [openapi.paths], in [Object.keys] order *)
  oa_request : request_obj -> parsed_request + exception;
  oa_path : value -> string -> option opid;   (* [openapi.path(method, path)[0].operation] *)
  oa_operation : opid -> operation
}.

Inductive settled (A : Type) : Type :=
| Resolved (a : A)
| Rejected (e : error).
Arguments Resolved {A}.
Arguments Rejected {A}.

(** ** The response, the handlers and the state of one request *)

(** The function currently stored in [res.send]: the framework's own, or the
    intercepting function installed by [middleware], which closes over the
    copied request. *)
Inductive send_fn : Type :=
| SendOriginal
| SendIntercept (req : loc).

Record response : Type := mkResponse {
  statusCode : value;
  res_headers : gmap string string;
  send : send_fn
}.

(** What can be observed from outside. *)
Inductive event : Type :=
| EvLog (n : nat)                          (* recorded by a user handler *)
| EvDebug (channel msg : string)           (* [debug.<channel>(msg)] *)
| EvSerialize (code : value) (body : option data)   (* [operation.response] was called *)
| EvRandom                                 (* [schema.random] was called *)
| EvWrite (code : value) (body : option data)       (* the framework's send was called *)
| EvSendStatus (code : Z)                  (* [res.sendStatus] *)
| EvHostNext (err : option error).         (* the host's [next] was called *)

(** The body of a handler function, as the sequence of things it does with
    its arguments. [next] takes the propagated error: the source tests it for
    truthiness, [None] stands for a call without an error. *)
Inductive prog : Type :=
| Return
| Throw (e : error)
| Log (n : nat) (k : prog)
| Status (code : value) (k : prog)              (* [res.status(code)] *)
| SetHeader (name v : string) (k : prog)         (* [res.set(name, v)] *)
| Send (body : option data) (k : prog)           (* [res.send(body)] *)
| Next (err : option error) (k : prog)           (* [next(err)] *)
| GetReq (key : string) (k : value -> prog)      (* [req[key]] *)
| SetReq (key : string) (v : value) (k : prog)   (* [req[key] = v] *)
| GetRes (k : response -> prog).

(** The controllers bound to operations: the [Map] built by [mapControllers],
    each function given by what it does when called with [(req, res, next)]. *)
Definition registry := list (opid * prog).

Fixpoint registry_get (controllers : registry) (operation : value) : option prog :=
  match controllers with
  | [] => None
  | (o, c) :: rest =>
      match operation with
      | VOperation o' => if Nat.eqb o o' then Some c else registry_get rest operation
      | _ => None
      end
  end.

(** An entry of [options.middleware]: a function registered with [use], or one
    of the two functions that [controllers] and [mocks] register. *)
Inductive handler : Type :=
| UserFn (arity : nat) (body : option error -> prog)
| ControllersMw (promise : settled registry)
| MocksMw (promise : settled registry) (automatic : bool).

(** [middleware.length], the number of declared parameters. *)
Definition fn_length (mw : handler) : nat :=
  match mw with
  | UserFn arity _ => arity
  | ControllersMw _ => 3
  | MocksMw _ _ => 3
  end.

Record state : Type := mkState {
  heap : list obj;
  res : response;
  middlewares : list handler;       (* the runner's queue *)
  trace : list event
}.

Definition set_heap (h : list obj) (st : state) : state :=
  mkState h (res st) (middlewares st) (trace st).
Definition set_res (r : response) (st : state) : state :=
  mkState (heap st) r (middlewares st) (trace st).
Definition set_middlewares (q : list handler) (st : state) : state :=
  mkState (heap st) (res st) q (trace st).
Definition emit (e : event) (st : state) : state :=
  mkState (heap st) (res st) (middlewares st) (trace st ++ [e]).

Definition debug (channel msg : string) : state -> state := emit (EvDebug channel msg).

(** [res.status(code)] *)
Definition res_status (code : value) (st : state) : state :=
  set_res (mkResponse code (res_headers (res st)) (send (res st))) st.

(** The names of response headers are case-insensitive: the response keeps
    them in lower case, which is how [res.getHeaders()] gives them. *)
Definition lower_ascii (a : ascii) : ascii :=
  let n := nat_of_ascii a in
  if (65 <=? n) && (n <=? 90) then ascii_of_nat (n + 32) else a.

Fixpoint lower (s : string) : string :=
  match s with
  | String a s' => String (lower_ascii a) (lower s')
  | EmptyString => EmptyString
  end.

(** [res.set(name, v)] for a string [v]. For [content-type] the framework
    may add a character set to the value; this is not modelled, and the
    statements about the headers set from a serialized response leave that
    name out. *)
Definition res_set (name v : string) (st : state) : state :=
  set_res (mkResponse (statusCode (res st)) (<[lower name := v]> (res_headers (res st)))
             (send (res st))) st.
(** [res.removeHeader(name)] *)
Definition res_removeHeader (name : string) (st : state) : state :=
  set_res (mkResponse (statusCode (res st)) (delete (lower name) (res_headers (res st)))
             (send (res st))) st.
(** [res.send = f] *)
Definition res_set_send (f : send_fn) (st : state) : state :=
  set_res (mkResponse (statusCode (res st)) (res_headers (res st)) f) st.
(** [res.sendStatus(code)] *)
Definition res_sendStatus (code : Z) (st : state) : state :=
  emit (EvSendStatus code) (res_status (VNum code) st).

(** [Object.keys(headers).forEach(header => res.set(header, headers[header]))] *)
Definition set_headers (hs : list (string * string)) (st : state) : state :=
  foldl (fun s hv => res_set (fst hv) (snd hv) s) st hs.

(** [o[key]] for an object reference; [None] when [o] is not an object, where
    the source would fail or see no such property. *)
Definition props (h : list obj) (o : value) : option obj :=
  match o with VRef l => h !! l | _ => None end.

Definition get_prop (m : obj) (key : string) : value :=
  match m !! key with Some v => v | None => VUndefined end.

(** [req[key]] *)
Definition req_get (st : state) (req : loc) (key : string) : value :=
  match heap st !! req with Some m => get_prop m key | None => VUndefined end.

(** [req[key] = v] *)
Definition req_set (req : loc) (key : string) (v : value) (st : state) : state :=
  match heap st !! req with
  | Some m => set_heap (<[req := <[key := v]> m]> (heap st)) st
  | None => st
  end.

(** A new object literal with the given properties. *)
Definition alloc (m : obj) (st : state) : loc * state :=
  (length (heap st), set_heap (heap st ++ [m]) st).

(** The own properties [Object.assign] copies from a source value. *)
Definition own_props (h : list obj) (o : value) : obj :=
  match props h o with Some m => m | None => ∅ end.

(** [req.headers.accepts || '*/*'], or a [TypeError] when [req.headers] is
    not an object. *)
Definition accepts (st : state) (req : loc) : option value :=
  match props (heap st) (req_get st req "headers") with
  | Some hs => Some (js_or (get_prop hs "accepts") (VStr "*/*"))
  | None => None
  end.

(** How a call ends: it returns, or it throws. *)
Inductive completion : Type :=
| Normal
| Thrown (e : error).

(** The leading decimal digits of a string: what [/^(\d+)/] matches. *)
Definition is_digit (a : ascii) : bool :=
  let n := nat_of_ascii a in (48 <=? n) && (n <=? 57).

Fixpoint leading_digits (s : string) : string :=
  match s with
  | String a s' => if is_digit a then String a (leading_digits s') else ""
  | EmptyString => ""
  end.

Fixpoint assoc {A} (key : string) (l : list (string * A)) : option A :=
  match l with
  | [] => None
  | (k, v) :: l' => if String.eqb k key then Some v else assoc key l'
  end.

Section Pipeline.

(** [this.options] and the catalog the promise resolved to. *)
Variable opts : options.
Variable api : openapi.

(** The function [next] local to [middleware]: it puts the framework's send
    back and calls the host's [_next]. *)
Definition middleware_next (err : option error) (st : state) : state :=
  emit (EvHostNext err) (res_set_send SendOriginal st).

(** The framework's own [res.send]. *)
Definition original_send (body : option data) (st : state) : state :=
  emit (EvWrite (statusCode (res st)) body) st.

(** [openapi.hasOwnProperty('swagger')] on whatever the request holds under
    [reqOpenApiProperty]; [None] is the [TypeError] on [undefined]. *)
Definition has_swagger (st : state) (openapi : value) : option bool :=
  match openapi with
  | VUndefined => None
  | VOpenApi => Some (bool_decide (is_Some (oa_swagger api)))
  | VRef l => Some (bool_decide (is_Some (own_props (heap st) openapi !! "swagger")))
  | _ => Some false
  end.

(** The method table of an operation object; [None] for any other value,
    on which the method call is a [TypeError]. *)
Definition as_operation (v : value) : option operation :=
  match v with
  | VOperation o => Some (oa_operation api o)
  | _ => None
  end.

(** The function [middleware] stores in [res.send]. At line 169 the result
    of [getResponseContentTypeMatches] is destructured: [type] is its value,
    the array of matches. An array is truthy, and [res.set] refuses an array
    for [content-type] with a [TypeError]. *)
Definition intercept (req : loc) (body : option data) (st : state) : state * completion :=
  let st := res_set_send SendOriginal st in
  let code := js_or (statusCode (res st)) (VNum 200) in
  let openapi := req_get st req (reqOpenApiProperty opts) in
  let operation := req_get st req (reqOperationProperty opts) in
  let headers := res_headers (res st) in
  match has_swagger st openapi with
  | None => (st, Thrown (TypeError "Cannot read properties of undefined"))
  | Some v2 =>
      (* if content type is not specified for openapi version >= 3 then derive it *)
      let derived : option error :=
        if negb (truthy (of_option (headers !! "content-type"))) && negb v2 then
          match as_operation operation, accepts st req with
          | Some op, Some acc =>
              match mr_value (op_getResponseContentTypeMatches op code acc) with
              | Some type => Some (TypeError "Content-Type cannot be set to an Array")
              | None => None
              end
          | _, _ => Some (TypeError "Cannot read properties of undefined")
          end
        else None in
      match derived with
      | Some e => (st, Thrown e)
      | None =>
          match as_operation operation with
          | None => (st, Thrown (TypeError "operation.response is not a function"))
          | Some op =>
              let st := emit (EvSerialize code body) st in
              match op_response op code body headers with
              | inr exception =>
                  let st := res_status (VNum 500) st in
                  (middleware_next (Some (errorFromException exception)) st, Normal)
              | inl response =>
                  let st := set_headers (sr_headers response) st in
                  (original_send (sr_body response) st, Normal)
              end
          end
      end
  end.

(** [res.send(body)]: a call of whatever function is stored in [res.send]. *)
Definition res_send (body : option data) (st : state) : state * completion :=
  match send (res st) with
  | SendOriginal => (original_send body st, Normal)
  | SendIntercept req => intercept req body st
  end.

(** The test of line 168: the response has no [content-type] header yet and
    the document has no [swagger] property. *)
Definition derives (st : state) : bool :=
  negb (truthy (of_option (res_headers (res st) !! "content-type")))
  && negb (bool_decide (is_Some (oa_swagger api))).

(** The interception installed for the request [rq], whose operation is [o],
    gets as far as [operation.response]: the test of line 168 fails, or
    [getResponseContentTypeMatches] has no value. *)
Definition reaches_response (rq : loc) (o : opid) (st : state) : bool :=
  negb (derives st)
  || match accepts st rq with
     | Some acc =>
         match mr_value (op_getResponseContentTypeMatches (oa_operation api o)
                           (js_or (statusCode (res st)) (VNum 200)) acc) with
         | None => true
         | Some _ => false
         end
     | None => false
     end.

(** ** Running a handler body *)

Section Exec.
(** The [next] and [req] the function was called with. *)
Variable next : option error -> state -> option state.
Variable req : loc.

Fixpoint exec (p : prog) (st : state) : option (state * completion) :=
  match p with
  | Return => Some (st, Normal)
  | Throw e => Some (st, Thrown e)
  | Log n k => exec k (emit (EvLog n) st)
  | Status code k => exec k (res_status code st)
  | SetHeader name v k => exec k (res_set name v st)
  | Send body k =>
      match res_send body st with
      | (st', Normal) => exec k st'
      | (st', Thrown e) => Some (st', Thrown e)
      end
  | Next err k =>
      match next err st with
      | Some st' => exec k st'
      | None => None
      end
  | GetReq key k => exec (k (req_get st req key)) st
  | SetReq key v k => exec k (req_set req key v st)
  | GetRes k => exec (k (res st)) st
  end.

(** [try { body } catch (e) { next(e) }], also written
    [promise.then(body).catch(next)]: a fault raised in the body is
    handed to [next]. *)
Definition catch_next (r : option (state * completion)) : option state :=
  match r with
  | Some (st, Normal) => Some st
  | Some (st, Thrown e) => next (Some e) st
  | None => None
  end.

(** The function [controllers] registers with [use]. *)
Definition controllers_then (controllers : registry) (st : state)
    : option (state * completion) :=
  let operation := req_get st req (reqOperationProperty opts) in
  match registry_get controllers operation with
  | Some controller =>
      let st := res_set ENFORCER_HEADER "controller" st in
      let st := debug "controllers" "executing controller" st in
      exec controller st
  | None =>
      match next None st with
      | Some st' => Some (st', Normal)
      | None => None
      end
  end.

Definition controllers_mw (promise : settled registry) (st : state) : option state :=
  match promise with
  | Resolved controllers => catch_next (controllers_then controllers st)
  | Rejected e => next (Some e) st
  end.

Definition unableToMock (exception : exception) (st : state) : option (state * completion) :=
  let st := debug "controllers" "unable to generate automatic mock" st in
  let exception := exc_message "Unable to generate mock response" exception in
  let exception := exc_set_statusCode 501 exception in
  let err := errorFromException exception in
  match next (Some err) st with
  | Some st' => Some (st', Normal)
  | None => None
  end.

(** [_openapi.swagger ? 2 : /^(\d+)/.exec(_openapi.openapi)[0]]; [None]
    is the [TypeError] raised when the pattern does not match. *)
Definition version : option value :=
  if truthy (of_option (oa_swagger api)) then Some (VNum 2)
  else match leading_digits (oa_openapi api) with
       | "" => None
       | digits => Some (VStr digits)
       end.

(** The decision of the mock middleware: the [mock] object, if any. *)
Definition mock_decision (headers : obj) (responseCodes : list string) (automatic : bool)
    : option mock :=
  let mockHeaderKey := mockHeader opts in
  let mockQueryKey := mockQuery opts in
  let first := of_option (head responseCodes) in
  if bool_decide (is_Some (headers !! mockHeaderKey)) then
    Some (mkMock "header"
            (not_empty_string (get_prop headers mockHeaderKey))
            (js_or (js_or (get_prop headers mockHeaderKey) first) (VStr ""))
            None)
  else if bool_decide (is_Some (headers !! mockQueryKey)) then
    Some (mkMock "query"
            (not_empty_string (get_prop headers mockQueryKey))
            (js_or (js_or (get_prop headers mockHeaderKey) first) (VStr ""))
            None)
  else if automatic then
    Some (mkMock "automatic" false (js_or first (VStr "")) None)
  else None.

(** [String(result)] for the result of [getResponseContentTypeMatches],
    which is how line 299 uses it as a property name: the result is an
    object, not a content type. The branch that does so is never taken:
    [version] is never the number 3. *)
Definition matches_result_to_string (result : matches_result) : string := "[object Object]".

(** [schema.random()] and what the mock middleware does with its result. *)
Definition mock_random (exception : exception) (mock : mock) (schema : schema) (st : state)
    : option (state * completion) :=
  let st := emit EvRandom st in
  match random schema with
  | (value, Some err, _) => unableToMock (exc_push err exception) st
  | (value, None, Some warning) => unableToMock (exc_push warning exception) st
  | (value, None, None) =>
      let st := res_status (mock_statusCode mock) st in
      Some (res_send (Some value) st)
  end.

(** The branch of the mock middleware that generates the response. *)
Definition mocks_generate (version : value) (exception : exception) (mock : mock)
    (op : operation) (headers : obj) (response : response_spec) (st : state)
    : option (state * completion) :=
  match (if strict_eq_num version 2 then rs_schema response else None) with
  | Some schema =>
      (* v2 mock *)
      mock_random exception mock schema st
  | None =>
      match (if strict_eq_num version 3 then rs_content response else None) with
      | Some content =>
          (* v3 mock *)
          let type := op_getResponseContentTypeMatches op (mock_statusCode mock)
                        (js_or (get_prop headers "accepts") (VStr "*/*")) in
          match assoc (matches_result_to_string type) content with
          | None => Some (st, Thrown (TypeError "Cannot read properties of undefined"))
          | Some (Some schema) => mock_random exception mock schema st
          | Some None =>
              unableToMock (exc_message "No schema associated with response" exception) st
          end
      | None => unableToMock exception st
      end
  end.

(** The function [mocks] registers with [use]. *)
Definition mocks_then (controllers : registry) (automatic : bool) (st : state)
    : option (state * completion) :=
  let operation := req_get st req (reqOperationProperty opts) in
  let controller := registry_get controllers operation in
  match as_operation operation, props (heap st) (req_get st req "headers") with
  | Some op, Some headers =>
      let responseCodes := map fst (op_responses op) in
      match mock_decision headers responseCodes automatic with
      | None =>
          (* if skipping mock then call next middleware *)
          match next None st with
          | Some st' => Some (st', Normal)
          | None => None
          end
      | Some mock =>
          match version with
          | None => Some (st, Thrown (TypeError "Cannot read properties of null"))
          | Some version =>
              let exception := exc_new "Unable to generate mock response" in
              let exception := exc_set_statusCode 400 exception in
              let mock :=
                mkMock (mock_source mock) (mock_specified mock) (mock_statusCode mock)
                  (assoc (to_string (mock_statusCode mock)) (op_responses op)) in
              let st := req_set req (reqMockStatusCodeProperty opts) (VMock mock) st in
              match controller, mock_response mock with
              | Some controller, _ =>
                  (* if a controller is provided then call it *)
                  let st := res_set ENFORCER_HEADER "mock" st in
                  let st := debug "controllers" "executing mock controller" st in
                  match exec controller st with
                  | Some (st', Thrown err) =>
                      match next (Some err) st' with
                      | Some st'' => Some (st'', Normal)
                      | None => None
                      end
                  | r => r
                  end
              | None, None =>
                  (* if response code is not a listed response *)
                  let st := debug "controllers" "unable to generate mock for unlisted status code" st in
                  let exception :=
                    exc_message ("No response is defined for status code: "
                                 +:+ to_string (mock_statusCode mock)) exception in
                  match next (Some (errorFromException exception)) st with
                  | Some st' => Some (st', Normal)
                  | None => None
                  end
              | None, Some response =>
                  mocks_generate version exception mock op headers response st
              end
          end
      end
  | _, _ => Some (st, Thrown (TypeError "Cannot read properties of undefined"))
  end.

Definition mocks_mw (promise : settled registry) (automatic : bool) (st : state)
    : option state :=
  match promise with
  | Resolved controllers => catch_next (mocks_then controllers automatic st)
  | Rejected e => next (Some e) st
  end.

(** A call [middleware(err, req, res, run)] or [middleware(req, res, run)]
    made by the runner. The two registered functions return at once; what
    their promise callbacks do is sequenced here. *)
Definition invoke (middleware : handler) (err : option error) (st : state)
    : option (state * completion) :=
  match middleware with
  | UserFn _ body => exec (body err) st
  | ControllersMw promise =>
      match controllers_mw promise st with
      | Some st' => Some (st', Normal)
      | None => None
      end
  | MocksMw promise automatic =>
      match mocks_mw promise automatic st with
      | Some st' => Some (st', Normal)
      | None => None
      end
  end.
End Exec.

(** ** middlewareRunner *)

Definition isErrorHandling (middleware : handler) : bool := 4 <=? fn_length middleware.

Definition clear_header (clearEnforcerHeader : bool) (st : state) : state :=
  if clearEnforcerHeader then res_removeHeader ENFORCER_HEADER st else st.

(** The closure [run] of [middlewareRunner]. [fuel] bounds the number of
    handlers taken from the queue; [None] is returned only when it runs out
    (see [run_chain_step]). *)
Fixpoint run (fuel : nat) (clearEnforcerHeader : bool) (req : loc)
    (next : option error -> state -> option state)
    (err : option error) (st : state) : option state :=
  match middlewares st with
  | [] => next err (clear_header clearEnforcerHeader st)
  | middleware :: rest =>
      match fuel with
      | 0 => None
      | S fuel' =>
          let st := set_middlewares rest (clear_header clearEnforcerHeader st) in
          let run' := run fuel' clearEnforcerHeader req next in
          if (bool_decide (is_Some err) && isErrorHandling middleware)
             || (negb (bool_decide (is_Some err)) && negb (isErrorHandling middleware))
          then
            (* try { return middleware(...) } catch (e) { return run(e) } *)
            catch_next run' (invoke run' req middleware err st)
          else run' err st
      end
  end.

(** [middlewareRunner(store, clearEnforcerHeader, req, res, next)]: the
    queue is a copy of [store]; the result is the closure [run]. *)
Definition middlewareRunner (store : list handler) (clearEnforcerHeader : bool) (req : loc)
    (next : option error -> state -> option state)
    : state -> (option error -> state -> option state) * state :=
  fun st => (run (length store) clearEnforcerHeader req next, set_middlewares store st).

(** ** The validation middleware *)

Section Middleware.
(** [isNaN] on a string is the language's own reading of numerals; it is
    left as a parameter. *)
Variable isNaN_string : string -> bool.

Definition isNaN (v : value) : bool :=
  match v with
  | VUndefined => true
  | VNum _ => false
  | VStr s => isNaN_string s
  | _ => true
  end.

Definition is_undefined (v : value) : bool :=
  match v with VUndefined => true | _ => false end.

(** [hasBody(req)]; [None] is the [TypeError] when [req.headers] is not
    an object. *)
Definition hasBody (st : state) (req : loc) : option bool :=
  match props (heap st) (req_get st req "headers") with
  | Some headers =>
      Some (negb (is_undefined (get_prop headers "transfer-encoding"))
            || negb (isNaN (get_prop headers "content-length")))
  | None => None
  end.

(** [req.originalUrl.substr(req.baseUrl.length)] *)
Definition request_path (st : state) (req : loc) : option string :=
  match req_get st req "originalUrl", req_get st req "baseUrl" with
  | VStr originalUrl, VStr baseUrl =>
      Some (String.substring (String.length baseUrl)
              (String.length originalUrl - String.length baseUrl) originalUrl)
  | _, _ => None
  end.

(** [if (request.hasOwnProperty(key)) req[key] = request[key]] *)
Definition option_set (req : loc) (key : string) (v : option value) (st : state) : state :=
  match v with Some v => req_set req key v st | None => st end.

(** [req[key] = Object.assign({}, req[key], request[key])] *)
Definition merge_key (req : loc) (key : string) (parsed : option obj) (st : state) : state :=
  let merged := default ∅ parsed ∪ own_props (heap st) (req_get st req key) in
  let (l, st) := alloc merged st in
  req_set req key (VRef l) st.

(** The object handed to [openapi.request]; [None] is the [TypeError]
    raised when the request lacks what is read from it. *)
Definition requestObj (st : state) (req : loc) : option request_obj :=
  match request_path st req, hasBody st req with
  | Some path, Some has_body =>
      Some {| ro_headers := req_get st req "headers";
              ro_method := req_get st req "method";
              ro_path := path;
              ro_body := if has_body then Some (req_get st req "body") else None |}
  | _, _ => None
  end.

(** Lines 197 to 203: the operation and the deserialized parameters are
    stored on the (copied) request. *)
Definition attach_request (req : loc) (request : parsed_request) (st : state) : state :=
  (* store operation instance with request *)
  let st := req_set req (reqOperationProperty opts) (VOperation (pr_operation request)) st in
  (* copy deserialized and validated parameters to the request object *)
  let (params, st) := alloc (default ∅ (pr_path request)) st in
  let st := req_set req "params" (VRef params) st in
  let st := merge_key req "cookies" (pr_cookies request) st in
  let st := merge_key req "headers" (pr_headers request) st in
  let st := merge_key req "params" (pr_params request) st in
  let st := merge_key req "query" (pr_query request) st in
  option_set req "body" (pr_body request) st.

(** The callback given to [this.promise.then] in [middleware]. [req0] is
    the request object the host passed in. *)
Definition middleware_then (store : list handler) (req0 : loc) (st : state)
    : option (state * completion) :=
  let next := fun err st => Some (middleware_next err st) in
  (* make a copy of the request to be used just within this middleware *)
  let (req, st) := alloc (own_props (heap st) (VRef req0)) st in
  (* parse, serialize, and validate request *)
  let st := debug "request" "validating and parsing" st in
  match requestObj st req with
  | Some requestObj =>
      let result := oa_request api requestObj in
      let is404 :=
        match result with
        | inr clientError => bool_decide (exc_statusCode clientError = Some 404%Z)
        | inl _ => false
        end in
      if is404 then
        (* 404 renders this middleware useless so exit appropriately *)
        if fallthrough opts then
          let st := debug "request" "fallthrough" st in
          Some (middleware_next None st, Normal)
        else
          Some (res_sendStatus 404 st, Normal)
      else
        (* overwrite the send *)
        let st := res_set_send (SendIntercept req) st in
        (* store openapi instance with request object *)
        let st := req_set req (reqOpenApiProperty opts) VOpenApi st in
        let (runner, st) := middlewareRunner store true req next st in
        match result with
        | inr clientError =>
            match oa_path api (ro_method requestObj) (ro_path requestObj) with
            | None => Some (st, Thrown (TypeError "Cannot read properties of undefined"))
            | Some operation =>
                let st := req_set req (reqOperationProperty opts) (VOperation operation) st in
                match runner (Some (errorFromException clientError)) st with
                | Some st' => Some (st', Normal)
                | None => None
                end
            end
        | inl request =>
            match runner None (attach_request req request st) with
            | Some st' => Some (st', Normal)
            | None => None
            end
        end
  | None => Some (st, Thrown (TypeError "Cannot read properties of undefined"))
  end.
End Middleware.

End Pipeline.

(** The function returned by [middleware()], applied to the host's request
    [req], the response held in the state and the host's [_next]. A rejected
    promise and a fault in the callback both reach [.catch(next)]. *)
Definition middleware (opts : options) (isNaN_string : string -> bool)
    (promise : settled openapi) (store : list handler) (req : loc) (st : state)
    : option state :=
  match promise with
  | Resolved openapi =>
      match middleware_then opts openapi isNaN_string store req st with
      | Some (st', Normal) => Some st'
      | Some (st', Thrown e) => Some (middleware_next (Some e) st')
      | None => None
      end
  | Rejected e => Some (middleware_next (Some e) st)
  end.

(** ** The controller registry: [mapControllers] *)

(** Values found in a controllers target or exported by a controller module.
    [F] is the type of functions. *)
Inductive cval (F : Type) : Type :=
| CUndefined
| CNull
| CBool (b : bool)
| CNum (n : Z)
| CStr (s : string)
| CFun (f : F)
| CArr (items : list (cval F))
| CObj (props : list (string * cval F)).
Arguments CUndefined {F}.
Arguments CNull {F}.
Arguments CBool {F}.
Arguments CNum {F}.
Arguments CStr {F}.
Arguments CFun {F}.
Arguments CArr {F}.
Arguments CObj {F}.

(** What [map.set(operation, ...)] stores: the function itself, or the
    function that runs the functions of an array through a nested
    [middlewareRunner]. *)
Inductive bound (F : Type) : Type :=
| BoundFn (f : F)
| BoundChain (middlewareArray : list F).
Arguments BoundFn {F}.
Arguments BoundChain {F}.

Section Controllers.
Context {F : Type}.

(** [require(path)], [path.resolve(dir, name)] and the call of a function
    with the injected dependencies: the module system and the functions of
    the user are parameters. *)
Variable require : string -> cval F + error.
Variable path_resolve : string -> string -> string.
Variable apply : F -> cval F + error.

Definition cval_truthy (v : cval F) : bool :=
  match v with
  | CUndefined | CNull => false
  | CBool b => b
  | CNum n => negb (n =? 0)%Z
  | CStr s => negb (String.eqb s "")
  | _ => true
  end.

(** [String(v)]. An array is the strings of its items joined by commas,
    [null] and [undefined] items giving the empty string. A number is an
    integer that the language prints in full (below 10^21 in absolute
    value). The text of a function is not part of the model: it is rendered
    by one word. *)
Fixpoint cval_to_string (v : cval F) : string :=
  match v with
  | CUndefined => "undefined"
  | CNull => "null"
  | CBool true => "true"
  | CBool false => "false"
  | CNum n => pretty n
  | CStr s => s
  | CFun _ => "function"
  | CArr items =>
      String.concat ","
        (map (fun item => match item with
                          | CUndefined | CNull => ""
                          | _ => cval_to_string item
                          end) items)
  | CObj _ => "[object Object]"
  end.

Definition isNonNullObject (v : cval F) : bool :=
  match v with CArr _ | CObj _ => true | _ => false end.

(** [v[key]] on the own properties of an object. Inherited properties
    (those of [Object.prototype]) and the indices of arrays, strings and
    functions are not modelled: they read as [undefined]. *)
Definition cval_get (v : cval F) (key : string) : cval F :=
  match v with
  | CObj props => default CUndefined (assoc key props)
  | _ => CUndefined
  end.

(** [v.hasOwnProperty(key)]; [None] is the [TypeError] on [undefined] and
    [null]. *)
Definition cval_hasOwnProperty (v : cval F) (key : string) : option bool :=
  match v with
  | CUndefined | CNull => None
  | CObj props => Some (bool_decide (is_Some (assoc key props)))
  | _ => Some false
  end.

(** [a || b] on names: the first that is set and not empty. *)
Definition name_or (a b : option string) : option string :=
  match a with
  | Some s => if String.eqb s "" then b else a
  | None => b
  end.

(** [while ((line = lines.shift())) child.message(line)] *)
Fixpoint message_lines (lines : list string) (child : exception) : exception :=
  match lines with
  | [] => child
  | line :: lines' =>
      if String.eqb line "" then child else message_lines lines' (exc_message line child)
  end.

Definition exceptionPushError (err : error) (exc : exception) : exception :=
  match err_stack err with
  | first :: lines => exc_nest first (message_lines lines) exc
  | [] => exc_message (error_to_string err) exc
  end.

(** [map.set(operation, v)] *)
Fixpoint map_set (operation : opid) (v : bound F) (map : list (opid * bound F))
    : list (opid * bound F) :=
  match map with
  | [] => [(operation, v)]
  | (o, w) :: map' =>
      if Nat.eqb o operation then (o, v) :: map' else (o, w) :: map_set operation v map'
  end.

(** The loop over the items of an array handler: the functions kept, and
    the messages for the items that are not functions. *)
Fixpoint scan_items (i : nat) (items : list (cval F)) (middlewareArray : list F)
    (grandChild : exception) : list F * exception :=
  match items with
  | [] => (middlewareArray, grandChild)
  | item :: items' =>
      match item with
      | CFun f => scan_items (S i) items' (middlewareArray ++ [f]) grandChild
      | _ =>
          scan_items (S i) items' middlewareArray
            (exc_at (pretty i) (exc_message "Not a function") grandChild)
      end
  end.

(** [if (handler) { ... }]: validate and normalize a handler. The result is
    the map and the exception of the controller ([child]). *)
Definition bind_handler (operation : opid) (handler : cval F)
    (map : list (opid * bound F)) (child : exception)
    : list (opid * bound F) * exception :=
  if cval_truthy handler then
    match handler with
    | CArr items =>
        let '(middlewareArray, grandChild) :=
          scan_items 0 items [] (exc_new "Expected a function or an array of functions") in
        (map_set operation (BoundChain middlewareArray) map, exc_push grandChild child)
    | CFun f => (map_set operation (BoundFn f) map, child)
    | _ =>
        (map, exc_message ("Expected a function or an array of functions. Received: "
                           +:+ cval_to_string handler) child)
    end
  else (map, child).

(** The [try] block that loads a controller from a file path. The result
    is the cache, the handler found (or [undefined]) and the exception of
    the controller. *)
Definition load_from_path (controllersTarget controllerName operationName : string)
    (loadedControllers : list (string * cval F)) (child : exception)
    : list (string * cval F) * cval F * exception :=
  let controllerPath := path_resolve controllersTarget controllerName in
  let caught (loaded : list (string * cval F)) (err : error) :=
    if bool_decide (err_code err = Some "MODULE_NOT_FOUND")
    then (loaded, CUndefined, exc_message "Controller file not found" child)
    else (loaded, CUndefined, exceptionPushError err child) in
  let loaded :=
    if negb (cval_truthy (default CUndefined (assoc controllerPath loadedControllers))) then
      match require controllerPath with
      | inr err => inr err
      | inl controller =>
          match controller with
          | CFun f =>
              match apply f with
              | inr err => inr err
              | inl controller =>
                  inl (alist_update controllerPath controller (fun _ => controller)
                         loadedControllers)
              end
          | _ =>
              inl (alist_update controllerPath controller (fun _ => controller)
                     loadedControllers)
          end
      end
    else inl loadedControllers in
  match loaded with
  | inr err => caught loadedControllers err
  | inl loadedControllers =>
      let controller := default CUndefined (assoc controllerPath loadedControllers) in
      match cval_hasOwnProperty controller operationName with
      | None => caught loadedControllers (TypeError "Cannot read properties of undefined")
      | Some false =>
          (loadedControllers, CUndefined,
           exc_message ("Operation not found: " +:+ operationName) child)
      | Some true => (loadedControllers, cval_get controller operationName, child)
      end
  end.

(** The branch that looks a controller up in an object. *)
Definition load_from_object (controllersTarget : cval F) (controllerName operationName : string)
    (child : exception) : cval F * exception :=
  if negb (cval_truthy (cval_get controllersTarget controllerName)) then
    (CUndefined, exc_message "Controller not found" child)
  else if negb (cval_truthy (cval_get (cval_get controllersTarget controllerName) operationName))
  then (CUndefined, exc_message ("Controller operation not found: " +:+ operationName) child)
  else (cval_get (cval_get controllersTarget controllerName) operationName, child).

(** The state of the two nested [forEach] loops. *)
Record scan : Type := mkScan {
  loadedControllers : list (string * cval F);
  map_ : list (opid * bound F);
  exception_ : exception
}.

Section Scan.
Variable opts : options.
Variable openapi : openapi.
(** The target after the function, if any, has been called. *)
Variable controllersTarget : cval F.

(** The body of [pathItem.methods.forEach]. *)
Definition scan_method (pathItem : path_item) (method : string) (s : scan) : scan :=
  let rootController := oa_prop openapi (xController opts) in
  let pathController := pi_prop pathItem (xController opts) in
  let operation := pi_operation pathItem method in
  let operationController :=
    match operation with Some o => od_prop o (xController opts) | None => None end in
  let controllerName := name_or (name_or operationController pathController) rootController in
  let operationName :=
    match operation with
    | Some o => name_or (od_prop o (xOperation opts)) (od_prop o "operationId")
    | None => None
    end in
  match operation, name_or controllerName None, name_or operationName None with
  | Some o, Some controllerName, Some operationName =>
      let child := default (exc_new "") (assoc controllerName (exc_ats (exception_ s))) in
      let '(loaded, handler, child) :=
        match controllersTarget with
        | CStr dir =>
            (* load controller from file path *)
            load_from_path dir controllerName operationName (loadedControllers s) child
        | _ =>
            (* load controller from object *)
            let '(handler, child) :=
              load_from_object controllersTarget controllerName operationName child in
            (loadedControllers s, handler, child)
        end in
      (* if a handler exists then validate and normalize it *)
      let '(map, child) := bind_handler (od_operation o) handler (map_ s) child in
      mkScan loaded map (exc_at controllerName (fun _ => child) (exception_ s))
  | _, _, _ => s
  end.

Definition scan_paths (s : scan) : scan :=
  foldl (fun s kp => foldl (fun s method => scan_method (snd kp) method s)
                       s (pi_methods (snd kp)))
        s (oa_paths openapi).
End Scan.

(** [mapControllers(openapi, isMock, controllersTarget, dependencyInjection,
    options)]: the map, or the error thrown. *)
Definition mapControllers (openapi : openapi) (isMock : bool) (controllersTarget : cval F)
    (opts : options) : list (opid * bound F) + error :=
  let mockStr := if isMock then "mock " else "" in
  let invalid (msg : string) :=
    Error (exc_toString
             (exc_message msg (exc_new ("Unable to load " +:+ mockStr +:+ "controllers")))) in
  (* validate input *)
  let is_function := match controllersTarget with CFun _ => true | _ => false end in
  let is_string := match controllersTarget with CStr _ => true | _ => false end in
  if negb is_function && negb is_string && negb (isNonNullObject controllersTarget) then
    inr (invalid "Controllers target must be a string, a non-null object, or a function that returns a non-null object")
  else
    (* if the controllers target is a function then execute it *)
    let called :=
      match controllersTarget with
      | CFun f =>
          match apply f with
          | inr err => inr err
          | inl result =>
              if negb (isNonNullObject result)
              then inr (invalid "Controllers target function must return a non-null object")
              else inl result
          end
      | _ => inl controllersTarget
      end in
    match called with
    | inr err => inr err
    | inl controllersTarget =>
        let exception :=
          match controllersTarget with
          | CStr dir =>
              exc_new ("Unable to load one or more " +:+ mockStr
                       +:+ "directory controllers within " +:+ dir)
          | _ => exc_new ("Unable to load one or more " +:+ mockStr +:+ "controllers")
          end in
        let s := scan_paths opts openapi controllersTarget (mkScan [] [] exception) in
        if hasException (exception_ s)
        then inr (Error (exc_toString (exception_ s)))
        else inl (map_ s)
    end.
End Controllers.

(** ** The constructor *)

(** What the constructor stores on the instance: [this.options] (with its
    [middleware] store) and [this.promise]; [warned] is what it passed to
    [console.warn] once the definition was built. *)
Record instance : Type := mkInstance {
  inst_options : options;
  inst_middleware : list handler;
  inst_promise : settled openapi;
  inst_warned : option exception
}.

(** The names of the options that must be strings, with their defaults. *)
Definition option_defaults : list (string * string) :=
  [("mockHeader", "x-mock"); ("mockQuery", "x-mock");
   ("reqMockStatusCodeProperty", "mockStatusCode"); ("reqOpenApiProperty", "openapi");
   ("reqOperationProperty", "operation"); ("xController", "x-controller");
   ("xOperation", "x-operation")].

(** The double quote character. *)
Definition dquote : string := String "034" EmptyString.

Section Constructor.
Context {F : Type}.

(** [typeof v] *)
Definition cval_typeof (v : cval F) : string :=
  match v with
  | CUndefined => "undefined"
  | CNull => "object"
  | CBool _ => "boolean"
  | CNum _ => "number"
  | CStr _ => "string"
  | CFun _ => "function"
  | CArr _ => "object"
  | CObj _ => "object"
  end.

(** [general[name] = options[name] || dflt] and the check that follows. *)
Definition string_option (options : cval F) (name dflt : string) : string + error :=
  let v := if cval_truthy (cval_get options name) then cval_get options name else CStr dflt in
  match v with
  | CStr s => inl s
  | _ =>
      inr (Error ("Configuration option " +:+ dquote +:+ name +:+ dquote
                  +:+ " must be a string. Received: " +:+ cval_to_string v))
  end.

(** [Enforcer(definition, { fullResult: true }).then(...)] *)
Definition definition_promise (built : settled (openapi * option exception * option exception))
    : settled openapi * option exception :=
  match built with
  | Resolved (openapi, Some exception, _) => (Rejected (Error (exc_toString exception)), None)
  | Resolved (openapi, None, warning) => (Resolved openapi, warning)
  | Rejected e => (Rejected e, None)
  end.

(** [new OpenApiEnforcerMiddleware(definition, options)]; [built] is how the
    promise of [Enforcer(definition, ...)] settles. *)
Definition OpenApiEnforcerMiddleware
    (built : settled (openapi * option exception * option exception)) (options : cval F)
    : instance + error :=
  (* validate and normalize options *)
  if negb (String.eqb (cval_typeof options) "undefined")
     && (negb (cval_truthy options) || negb (String.eqb (cval_typeof options) "object"))
  then inr (Error ("Invalid option specified. Expected an object. Received: "
                   +:+ cval_to_string options))
  else
    let options := if negb (cval_truthy options) then CObj [] else options in
    let fallthrough :=
      match cval_hasOwnProperty options "fallthrough" with
      | Some true => cval_truthy (cval_get options "fallthrough")
      | _ => true
      end in
    match string_option options "mockHeader" "x-mock" with
    | inr e => inr e
    | inl mockHeader =>
    match string_option options "mockQuery" "x-mock" with
    | inr e => inr e
    | inl mockQuery =>
    match string_option options "reqMockStatusCodeProperty" "mockStatusCode" with
    | inr e => inr e
    | inl reqMockStatusCodeProperty =>
    match string_option options "reqOpenApiProperty" "openapi" with
    | inr e => inr e
    | inl reqOpenApiProperty =>
    match string_option options "reqOperationProperty" "operation" with
    | inr e => inr e
    | inl reqOperationProperty =>
    match string_option options "xController" "x-controller" with
    | inr e => inr e
    | inl xController =>
    match string_option options "xOperation" "x-operation" with
    | inr e => inr e
    | inl xOperation =>
        let general :=
          {| fallthrough := fallthrough;
             mockHeader := mockHeader;
             mockQuery := mockQuery;
             reqMockStatusCodeProperty := reqMockStatusCodeProperty;
             reqOpenApiProperty := reqOpenApiProperty;
             reqOperationProperty := reqOperationProperty;
             xController := xController;
             xOperation := xOperation |} in
        let (promise, warned) := definition_promise built in
        inl (mkInstance general [] promise warned)
    end end end end end end end.

End Constructor.

(** The names an instance works with, in the order of [option_defaults]. *)
Definition option_names (o : options) : list string :=
  [mockHeader o; mockQuery o; reqMockStatusCodeProperty o; reqOpenApiProperty o;
   reqOperationProperty o; xController o; xOperation o].

(** [use(middleware)]: the instance after the call, or the error thrown. *)
Definition use (middleware : cval handler) (inst : instance) : instance + error :=
  match middleware with
  | CFun f =>
      inl (mkInstance (inst_options inst) (inst_middleware inst ++ [f]) (inst_promise inst)
             (inst_warned inst))
  | _ =>
      inr (Error ("Invalid middleware. Value must be a function. Received: "
                  +:+ cval_to_string middleware))
  end.

(** [enforcer.use(m1); ...; enforcer.use(mn)] *)
Definition use_all (ms : list (cval handler)) (inst : instance) : instance + error :=
  foldl (fun acc m => match acc with inl i => use m i | inr e => inr e end) (inl inst) ms.

(** ** Measures used by the statements *)

(** The number of calls of [operation.response] recorded in a trace. *)
Fixpoint serializations (tr : list event) : nat :=
  match tr with
  | [] => 0
  | EvSerialize _ _ :: tr' => S (serializations tr')
  | _ :: tr' => serializations tr'
  end.

(** 1 while the intercepting function is stored in [res.send]. *)
Definition armed (st : state) : nat :=
  match send (res st) with
  | SendIntercept _ => 1
  | SendOriginal => 0
  end.

(** What a step of the chain run for the request [req] may change: the queue
    only shrinks, a serialization is paid for by the removal of the
    interception, and no object other than [req] is written. *)
Definition chain_step (req : loc) (st st' : state) : Prop :=
  length (middlewares st') <= length (middlewares st)
  /\ serializations (trace st') + armed st' <= serializations (trace st) + armed st
  /\ length (heap st') = length (heap st)
  /\ (forall l, l <> req -> heap st' !! l = heap st !! l).

(** [p] followed by [q]: every normal return of [p] continues with [q]. *)
Fixpoint finish (p q : prog) : prog :=
  match p with
  | Return => q
  | Throw e => Throw e
  | Log n k => Log n (finish k q)
  | Status code k => Status code (finish k q)
  | SetHeader name v k => SetHeader name v (finish k q)
  | Send body k => Send body (finish k q)
  | Next err k => Next err (finish k q)
  | GetReq key k => GetReq key (fun v => finish (k v) q)
  | SetReq key v k => SetReq key v (finish k q)
  | GetRes k => GetRes (fun r => finish (k r) q)
  end.

(** The terminal continuation of the chain [middleware] runs. *)
Definition host (err : option error) (st : state) : option state :=
  Some (middleware_next err st).

(** The properties of a request that [middleware] overwrites on its copy. *)
Definition parameter_keys : list string := ["params"; "cookies"; "headers"; "query"; "body"].

(** The state in which the callback of [middleware] validates the request:
    the copy of [req] is the last object of the heap. *)
Definition copied (req : loc) (st : state) : state :=
  debug "request" "validating and parsing"
    (set_heap (heap st ++ [own_props (heap st) (VRef req)]) st).

(** [st'] differs from [st] by writes to objects at or above [n] only. *)
Definition extends (n : nat) (st st' : state) : Prop :=
  trace st' = trace st /\ res st' = res st /\ middlewares st' = middlewares st
  /\ length (heap st) <= length (heap st')
  /\ (forall l, l < n -> heap st' !! l = heap st !! l).

(** A call made for the request [req] from the state [st] ends, in a state
    that is a [chain_step] away. *)
Definition chain_result (req : loc) (st : state) (r : option (state * completion)) : Prop :=
  exists st' c, r = Some (st', c) /\ chain_step req st st'.

(** ** Notions used by the statements about the registry, the chain and
    the mock generator *)

(** The names [mapControllers] reads for the operation under [method]:
    [operationController || pathController || rootController] and
    [operation[xOperation] || operation.operationId], when not empty. *)
Definition controllerName (opts : options) (openapi : openapi) (pathItem : path_item)
    (method : string) : option string :=
  let operationController :=
    match pi_operation pathItem method with
    | Some o => od_prop o (xController opts)
    | None => None
    end in
  name_or (name_or (name_or operationController (pi_prop pathItem (xController opts)))
             (oa_prop openapi (xController opts))) None.

Definition operationName (opts : options) (pathItem : path_item) (method : string)
    : option string :=
  match pi_operation pathItem method with
  | Some o => name_or (name_or (od_prop o (xOperation opts)) (od_prop o "operationId")) None
  | None => None
  end.

(** [typeof v === 'function'] *)
Definition is_function {F} (v : cval F) : bool :=
  match v with CFun _ => true | _ => false end.

(** The functions among the items of an array, in order. *)
Definition functions {F} (items : list (cval F)) : list F :=
  omap (fun v => match v with CFun f => Some f | _ => None end) items.

(** A handler that records [n] and passes on what it was called with:
    [(req, res, next) => { log(n); next() }] when [arity] is 3,
    [(err, req, res, next) => { log(n); next(err) }] when it is 4. *)
Definition forwards (arity n : nat) : handler :=
  UserFn arity (fun err => Log n (Next err Return)).

(** The handlers of a chain of [forwards] that a run started with [err] calls. *)
Definition called (err : option error) (hs : list (nat * nat)) : list nat :=
  map snd (List.filter (fun h => Bool.eqb (bool_decide (is_Some err)) (4 <=? fst h)) hs).

(** A handler body that neither calls [next] nor throws by itself. *)
Inductive quiet : prog -> Prop :=
| quiet_Return : quiet Return
| quiet_Log n k : quiet k -> quiet (Log n k)
| quiet_Status code k : quiet k -> quiet (Status code k)
| quiet_SetHeader name v k : quiet k -> quiet (SetHeader name v k)
| quiet_Send body k : quiet k -> quiet (Send body k)
| quiet_GetReq key k : (forall v, quiet (k v)) -> quiet (GetReq key k)
| quiet_SetReq key v k : quiet k -> quiet (SetReq key v k)
| quiet_GetRes k : (forall r, quiet (k r)) -> quiet (GetRes k).

(** [schema.random()] produced a value, without an error or a warning. *)
Definition random_ok (schema : schema) : bool :=
  match random schema with
  | (_, None, None) => true
  | _ => false
  end.

(** Every module in the cache is one that [require] finds. *)
Definition cache_found {F} (require : string -> cval F + error)
    (loaded : list (string * cval F)) : Prop :=
  Forall (fun kv : string * cval F => exists c, require kv.1 = inl c) loaded.

(** ** A small deployment used in the examples

    A version 2 document with one operation, [GET /people], that declares a
    200 response with an array schema; the options are the defaults of the
    constructor. *)

Definition default_options : options :=
  {| fallthrough := true;
     mockHeader := "x-mock";
     mockQuery := "x-mock";
     reqMockStatusCodeProperty := "mockStatusCode";
     reqOpenApiProperty := "openapi";
     reqOperationProperty := "operation";
     xController := "x-controller";
     xOperation := "x-operation" |}.

Definition strict_options : options :=
  {| fallthrough := false;
     mockHeader := "x-mock";
     mockQuery := "x-mock";
     reqMockStatusCodeProperty := "mockStatusCode";
     reqOpenApiProperty := "openapi";
     reqOperationProperty := "operation";
     xController := "x-controller";
     xOperation := "x-operation" |}.

Definition people : data := DArr [DObj [("name", DStr "Bob")]].

Definition people_200 : response_spec :=
  {| rs_schema := Some {| random := (people, None, None) |}; rs_content := None |}.

Definition invalid_response : exception :=
  exc_message "Expected an array" (exc_new "Response invalid").

(** [operation.response] accepts arrays only. *)
Definition get_people : operation :=
  {| op_responses := [("200", people_200)];
     op_getResponseContentTypeMatches := fun _ _ => {| mr_value := None; mr_error := None |};
     op_response := fun _ body _ =>
       match body with
       | Some (DArr _) => inl {| sr_headers := []; sr_body := body |}
       | _ => inr invalid_response
       end |}.

Definition path_not_found : exception :=
  exc_set_statusCode 404 (exc_message "Path not found" (exc_new "Request has one or more errors")).

(** An operation bound by [x-controller] and [x-operation], and a path item
    that declares it under [get]. *)
Definition decl (o : opid) (controller operation : string) : op_decl :=
  {| od_operation := o;
     od_prop := fun key =>
       if String.eqb key "x-controller" then Some controller
       else if String.eqb key "x-operation" then Some operation
       else None |}.

Definition item (o : opid) (controller operation : string) : path_item :=
  {| pi_prop := fun _ => None;
     pi_methods := ["get"];
     pi_operation := fun method =>
       if String.eqb method "get" then Some (decl o controller operation) else None |}.

Definition people_api : openapi :=
  {| oa_swagger := Some "2.0";
     oa_openapi := "";
     oa_prop := fun _ => None;
     oa_paths := [("/people", item 0 "people" "list")];
     oa_request := fun ro =>
       if String.eqb (ro_path ro) "/people"
       then inl {| pr_operation := 0; pr_path := None; pr_cookies := None;
                   pr_headers := None; pr_params := None;
                   pr_query := None;
                   pr_body := None |}
       else inr path_not_found;
     oa_path := fun _ _ => Some 0;
     oa_operation := fun _ => get_people |}.

(** The state in which the host calls the middleware for [GET url]: object 0
    is the request, object 1 its headers, object 2 its query. *)
Definition incoming (url : string) (headers query : obj) : state :=
  mkState
    [ {[ "headers" := VRef 1; "query" := VRef 2; "method" := VStr "GET";
         "originalUrl" := VStr url; "baseUrl" := VStr "" ]};
      headers; query ]
    (mkResponse (VNum 200) ∅ SendOriginal) [] [].

(** A stand-in for [isNaN] on strings: only digit strings are numbers. *)
Fixpoint all_digits (s : string) : bool :=
  match s with
  | String a s' => is_digit a && all_digits s'
  | EmptyString => true
  end.

Definition digits_only (s : string) : bool := negb (all_digits s).

(** The chain of the test "thrown error calls next error middleware". *)
Definition h1 : handler := UserFn 3 (fun _ => Log 1 (Throw (Error "error"))).
Definition h2 : handler := UserFn 3 (fun _ => Log 2 (Next None Return)).
Definition h3 : handler := UserFn 4 (fun _ => Log 3 (Next None Return)).
Definition h4 : handler := UserFn 3 (fun _ => Log 4 (Next None Return)).

(** A controller that sends a body the schema rejects, and an error handler
    registered behind it. *)
Definition sends_string : handler :=
  UserFn 3 (fun _ => Log 1 (Send (Some (DStr "oops")) Return)).
Definition on_error : handler := UserFn 4 (fun err => Log 9 (Next err Return)).

(** A handler that calls [res.send] twice, and a registry whose controller
    for [GET /people] sends a body the schema rejects. *)
Definition sends_twice : handler :=
  UserFn 3 (fun _ => Send (Some people) (Send (Some (DStr "raw")) Return)).
Definition oops_controller : registry := [(0, Send (Some (DStr "oops")) Return)].

(** A mock controller for [GET /people]. *)
Definition mock_people : prog := Log 7 (Send (Some people) Return).

(** The request of [GET /people] as the mock middleware finds it, with an
    empty [x-mock] header, and the decision taken for it. *)
Definition mock_request (send : send_fn) : state :=
  mkState
    [ {[ "openapi" := VOpenApi; "operation" := VOperation 0; "headers" := VRef 1 ]};
      {[ "x-mock" := VStr "" ]} ]
    (mkResponse (VNum 200) ∅ send) [] [].

Definition people_decision : mock := mkMock "header" false (VStr "200") None.

(** A catalog of three operations, each with its own controller, and the
    module systems used in the examples: one where no module exists, one
    where every module exports [{ list: null }]. *)
Definition three_operations : openapi :=
  {| oa_swagger := Some "2.0";
     oa_openapi := "";
     oa_prop := fun _ => None;
     oa_paths := [("/a", item 0 "a" "list"); ("/b", item 1 "b" "list"); ("/c", item 2 "c" "list")];
     oa_request := fun _ => inr path_not_found;
     oa_path := fun _ _ => None;
     oa_operation := fun _ => get_people |}.

Definition no_module (path : string) : cval prog + error :=
  inr (mkError ("Cannot find module " +:+ path) None None (Some "MODULE_NOT_FOUND")
         (engine_stack "Error" ("Cannot find module " +:+ path)) "Error").
Definition join_path (dir name : string) : string := dir +:+ "/" +:+ name.
Definition no_call (f : prog) : cval prog + error := inl CUndefined.
Definition null_export (path : string) : cval prog + error := inl (CObj [("list", CNull)]).

(** [map.get(operation)] *)
Fixpoint map_get {F} (operation : opid) (map : list (opid * bound F)) : option (bound F) :=
  match map with
  | [] => None
  | (o, v) :: map' => if Nat.eqb o operation then Some v else map_get operation map'
  end.

(** The same deployment described by a version 3 document, and a controller
    object that binds [list]. *)
Definition people_api_v3 : openapi :=
  {| oa_swagger := None;
     oa_openapi := "3.0.0";
     oa_prop := oa_prop people_api;
     oa_paths := oa_paths people_api;
     oa_request := oa_request people_api;
     oa_path := oa_path people_api;
     oa_operation := oa_operation people_api |}.

Definition people_controllers : cval prog :=
  CObj [("people", CObj [("list", CFun mock_people)])].

(** ** Further examples

    Catalogs, responses, options and a module system on which the later
    statements are instantiated. *)

(** A request the catalog rejects with status 400, and a catalog that
    rejects every request this way; [found] is what [openapi.path] finds. *)
Definition bad_request : exception :=
  exc_set_statusCode 400
    (exc_message "Missing required parameter" (exc_new "Request has one or more errors")).

Definition rejecting_api (found : option opid) : openapi :=
  {| oa_swagger := Some "2.0";
     oa_openapi := "";
     oa_prop := fun _ => None;
     oa_paths := oa_paths people_api;
     oa_request := fun _ => inr bad_request;
     oa_path := fun _ _ => found;
     oa_operation := fun _ => get_people |}.

(** A version 3 document whose operation offers [application/json] and
    adds a header of its own to every response. *)
Definition get_people_json : operation :=
  {| op_responses := [("200", people_200)];
     op_getResponseContentTypeMatches := fun _ _ =>
       {| mr_value := Some ["application/json"; "text/plain"]; mr_error := None |};
     op_response := fun _ body _ =>
       match body with
       | Some (DArr _) => inl {| sr_headers := [("x-count", "1")]; sr_body := body |}
       | _ => inr invalid_response
       end |}.

Definition json_api : openapi :=
  {| oa_swagger := None;
     oa_openapi := "3.0.0";
     oa_prop := oa_prop people_api;
     oa_paths := oa_paths people_api;
     oa_request := oa_request people_api;
     oa_path := oa_path people_api;
     oa_operation := fun _ => get_people_json |}.

(** A declared response whose schema cannot produce a value. *)
Definition unmockable : response_spec :=
  {| rs_schema :=
       Some {| random := (DNull, Some (exc_message "Pattern not supported" (exc_new "Value")),
                          None) |};
     rs_content := None |}.

(** A catalog whose only operation names neither a controller nor an
    operation. *)
Definition unbound_api : openapi :=
  {| oa_swagger := Some "2.0";
     oa_openapi := "";
     oa_prop := fun _ => None;
     oa_paths :=
       [("/people",
         {| pi_prop := fun _ => None;
            pi_methods := ["get"];
            pi_operation := fun _ => Some {| od_operation := 0; od_prop := fun _ => None |} |})];
     oa_request := oa_request people_api;
     oa_path := oa_path people_api;
     oa_operation := oa_operation people_api |}.

(** The options [{ mockHeader: 'x-test', fallthrough: false }] and the
    instance built from them. *)
Definition test_options : cval prog :=
  CObj [("mockHeader", CStr "x-test"); ("fallthrough", CBool false)].

Definition test_instance : instance :=
  mkInstance
    {| fallthrough := false;
       mockHeader := "x-test";
       mockQuery := "x-mock";
       reqMockStatusCodeProperty := "mockStatusCode";
       reqOpenApiProperty := "openapi";
       reqOperationProperty := "operation";
       xController := "x-controller";
       xOperation := "x-operation" |}
    [] (Resolved people_api) None.

(** A module system with one module, [./controllers/people], that exports
    [{ list: <mock_people> }]. *)
Definition people_module (path : string) : cval prog + error :=
  if String.eqb path "./controllers/people"
  then inl (CObj [("list", CFun mock_people)])
  else no_module path.

(** * Properties *)

(** ** Frame lemmas for the primitive operations *)

Lemma serializations_app (tr1 tr2 : list event) :
  serializations (tr1 ++ tr2) = serializations tr1 + serializations tr2.
Proof.
  induction tr1 as [|e tr1 IH]; simpl; [reflexivity|].
  destruct e; simpl; rewrite IH; reflexivity.
Qed.

Lemma chain_step_refl req st : chain_step req st st.
Proof. unfold chain_step. repeat split; lia. Qed.

Lemma chain_step_trans req st1 st2 st3 :
  chain_step req st1 st2 -> chain_step req st2 st3 -> chain_step req st1 st3.
Proof.
  unfold chain_step. intros (Ha & Hb & Hc & Hd) (Ha' & Hb' & Hc' & Hd').
  repeat split; try lia.
  intros l Hl. rewrite (Hd' l Hl). apply Hd, Hl.
Qed.

Ltac frame_solve :=
  unfold chain_step, armed; simpl;
  repeat split; try rewrite serializations_app; simpl; try reflexivity; try lia.

Lemma chain_step_emit req e st :
  (forall code body, e <> EvSerialize code body) -> chain_step req st (emit e st).
Proof.
  intros He. frame_solve.
  destruct e; simpl; try lia. exfalso. eapply He. reflexivity.
Qed.

Lemma chain_step_res_status req code st : chain_step req st (res_status code st).
Proof. frame_solve. Qed.

Lemma chain_step_res_set req name v st : chain_step req st (res_set name v st).
Proof. frame_solve. Qed.

Lemma chain_step_res_removeHeader req name st : chain_step req st (res_removeHeader name st).
Proof. frame_solve. Qed.

Lemma chain_step_clear_header req b st : chain_step req st (clear_header b st).
Proof. destruct b; simpl; [apply chain_step_res_removeHeader | apply chain_step_refl]. Qed.

Lemma chain_step_restore req st : chain_step req st (res_set_send SendOriginal st).
Proof. frame_solve. Qed.

Lemma chain_step_req_set req key v st : chain_step req st (req_set req key v st).
Proof.
  unfold req_set. destruct (heap st !! req) as [m|] eqn:Hm; [|apply chain_step_refl].
  frame_solve.
  - apply length_insert.
  - intros l Hl. apply list_lookup_insert_ne. congruence.
Qed.

Lemma chain_step_middleware_next req err st : chain_step req st (middleware_next err st).
Proof.
  unfold middleware_next.
  eapply chain_step_trans; [apply chain_step_restore|].
  apply chain_step_emit. discriminate.
Qed.

Lemma set_headers_fields hs st :
  heap (set_headers hs st) = heap st
  /\ middlewares (set_headers hs st) = middlewares st
  /\ trace (set_headers hs st) = trace st
  /\ send (res (set_headers hs st)) = send (res st)
  /\ statusCode (res (set_headers hs st)) = statusCode (res st).
Proof.
  unfold set_headers.
  revert st. induction hs as [|hv hs IH]; intros st; simpl; [tauto|].
  destruct (IH (res_set hv.1 hv.2 st)) as (H1 & H2 & H3 & H4 & H5).
  rewrite H1, H2, H3, H4, H5. simpl. tauto.
Qed.

Lemma chain_step_pop req mw rest st :
  middlewares st = mw :: rest -> chain_step req st (set_middlewares rest st).
Proof. intros H. frame_solve. rewrite H. simpl. lia. Qed.

(** ** The chain only shrinks the queue, serializes at most once and writes
    no object but its own request *)

Section Frame.
Variable opts : options.
Variable api : openapi.

(** Whatever [intercept] does, it leaves the heap and the queue alone, puts
    the framework's send back and calls [operation.response] at most once. *)
Lemma intercept_shape req body st :
  let st' := (intercept opts api req body st).1 in
  heap st' = heap st /\ middlewares st' = middlewares st
  /\ send (res st') = SendOriginal
  /\ exists tr, trace st' = trace st ++ tr /\ serializations tr <= 1.
Proof.
  unfold intercept.
  repeat case_match; simplify_eq; simpl;
    repeat match goal with
    | |- context [set_headers ?hs ?s] =>
        destruct (set_headers_fields hs s) as (-> & -> & -> & -> & ->)
    end; simpl.
  all: try (repeat split; try reflexivity).
  all: try (eexists; split;
            [ try rewrite <- !app_assoc; try reflexivity; symmetry; apply app_nil_r
            | simpl; lia ]).
Qed.

Lemma chain_step_res_send req body st : chain_step req st (res_send opts api body st).1.
Proof.
  unfold res_send. destruct (send (res st)) as [|rq] eqn:Hsend; simpl.
  - unfold original_send. apply chain_step_emit. discriminate.
  - destruct (intercept_shape rq body st) as (Hh & Hq & Hs & tr & Ht & Hn).
    unfold chain_step, armed. rewrite Hh, Hq, Hs, Ht, Hsend, serializations_app.
    repeat split; try lia. 
Qed.

Section Chain.
Variable fuel : nat.
Variable next : option error -> state -> option state.
Variable req : loc.
Hypothesis next_ok : forall e s,
  length (middlewares s) <= fuel ->
  exists s', next e s = Some s' /\ chain_step req s s'.

Ltac bound H := destruct H as (? & _); simpl in *; lia.

Lemma exec_chain_step p st :
  length (middlewares st) <= fuel ->
  exists st' c, exec opts api next req p st = Some (st', c) /\ chain_step req st st'.
Proof.
  revert st.
  induction p as [|e|n k IH|code k IH|name v k IH|body k IH|err k IH
                  |key k IH|key v k IH|k IH]; intros st Hlen; simpl.
  - exists st, Normal. split; [reflexivity | apply chain_step_refl].
  - exists st, (Thrown e). split; [reflexivity | apply chain_step_refl].
  - destruct (IH (emit (EvLog n) st)) as (st' & c & He & Hs); [exact Hlen|].
    exists st', c. split; [exact He|].
    eapply chain_step_trans; [|exact Hs]. by apply chain_step_emit.
  - destruct (IH (res_status code st)) as (st' & c & He & Hs); [exact Hlen|].
    exists st', c. split; [exact He|].
    eapply chain_step_trans; [|exact Hs]. apply chain_step_res_status.
  - destruct (IH (res_set name v st)) as (st' & c & He & Hs); [exact Hlen|].
    exists st', c. split; [exact He|].
    eapply chain_step_trans; [|exact Hs]. apply chain_step_res_set.
  - pose proof (chain_step_res_send req body st) as Hsend.
    destruct (res_send opts api body st) as [st1 [|e]]; simpl in Hsend.
    + destruct (IH st1) as (st' & c & He & Hs); [bound Hsend|].
      exists st', c. split; [exact He | eapply chain_step_trans; eassumption].
    + exists st1, (Thrown e). split; [reflexivity | exact Hsend].
  - destruct (next_ok err st Hlen) as (st1 & Hn & Hs1). rewrite Hn.
    destruct (IH st1) as (st' & c & He & Hs); [bound Hs1|].
    exists st', c. split; [exact He | eapply chain_step_trans; eassumption].
  - apply IH, Hlen.
  - pose proof (chain_step_req_set req key v st) as Hset.
    destruct (IH (req_set req key v st)) as (st' & c & He & Hs); [bound Hset|].
    exists st', c. split; [exact He | eapply chain_step_trans; eassumption].
  - apply IH, Hlen.
Qed.
Lemma ok_here st c : chain_result req st (Some (st, c)).
Proof. exists st, c. split; [reflexivity | apply chain_step_refl]. Qed.

Lemma ok_step st st1 r :
  chain_step req st st1 -> chain_result req st1 r -> chain_result req st r.
Proof.
  intros Hs (st' & c & -> & Hs'). exists st', c.
  split; [reflexivity | eapply chain_step_trans; eassumption].
Qed.

Lemma ok_next e st :
  length (middlewares st) <= fuel ->
  chain_result req st
    (match next e st with Some st' => Some (st', Normal) | None => None end).
Proof.
  intros Hlen. destruct (next_ok e st Hlen) as (st' & -> & Hs).
  exists st', Normal. split; [reflexivity | exact Hs].
Qed.

Lemma ok_exec p st :
  length (middlewares st) <= fuel -> chain_result req st (exec opts api next req p st).
Proof. intros Hlen. eapply exec_chain_step; eassumption. Qed.

Lemma chain_step_bound st st1 :
  chain_step req st st1 -> length (middlewares st) <= fuel ->
  length (middlewares st1) <= fuel.
Proof. intros (H & _) ?. lia. Qed.

Ltac steps :=
  repeat first
    [ apply chain_step_refl
    | eapply chain_step_trans; [|by apply chain_step_emit]
    | eapply chain_step_trans; [|apply chain_step_res_status]
    | eapply chain_step_trans; [|apply chain_step_res_set]
    | eapply chain_step_trans; [|apply chain_step_req_set] ].

(** Closes a goal [chain_result req st r] where [r] runs [next] or a
    controller from a state reached from [st] by primitive operations. *)
Ltac leaf Hlen :=
  lazymatch goal with
  | |- chain_result _ ?st (Some (?s, _)) =>
      eapply ok_step; [|apply ok_here]; unfold debug; steps
  | |- chain_result _ ?st (match ?next0 _ ?s with _ => _ end) =>
      let Hs := fresh "Hs" in
      assert (Hs : chain_step req st s) by (unfold debug; steps);
      eapply ok_step; [exact Hs | apply ok_next; eapply chain_step_bound; eassumption]
  end.

Lemma controllers_then_chain_step controllers st :
  length (middlewares st) <= fuel ->
  chain_result req st (controllers_then opts api next req controllers st).
Proof.
  intros Hlen. unfold controllers_then.
  destruct (registry_get controllers _) as [controller|].
  - eapply ok_step; [|apply ok_exec]; [unfold debug; steps | exact Hlen].
  - leaf Hlen.
Qed.

Lemma unableToMock_chain_step exc st :
  length (middlewares st) <= fuel ->
  chain_result req st (unableToMock next exc st).
Proof. intros Hlen. unfold unableToMock. leaf Hlen. Qed.

Lemma mock_random_chain_step exc m sch st :
  length (middlewares st) <= fuel ->
  chain_result req st (mock_random opts api next exc m sch st).
Proof.
  intros Hlen. unfold mock_random.
  destruct (random sch) as [[value [err|]] [warning|]].
  1-3: eapply ok_step; [|apply unableToMock_chain_step; exact Hlen];
       by apply chain_step_emit.
  pose proof (chain_step_res_send req (Some value)
                (res_status (mock_statusCode m) (emit EvRandom st))) as Hs.
  destruct (res_send _ _ _ _) as [st' c]. simpl in Hs.
  eapply ok_step; [|apply ok_here].
  eapply chain_step_trans; [|exact Hs]. steps.
Qed.

Lemma mocks_generate_chain_step v exc m op headers response st :
  length (middlewares st) <= fuel ->
  chain_result req st (mocks_generate opts api next v exc m op headers response st).
Proof.
  intros Hlen. unfold mocks_generate.
  repeat case_match;
    first [ by apply mock_random_chain_step
          | by apply unableToMock_chain_step
          | apply ok_here ].
Qed.

Lemma mocks_then_chain_step controllers automatic st :
  length (middlewares st) <= fuel ->
  chain_result req st (mocks_then opts api next req controllers automatic st).
Proof.
  intros Hlen. unfold mocks_then.
  destruct (as_operation api _) as [op|]; [|apply ok_here].
  destruct (props (heap st) _) as [headers|]; [|apply ok_here].
  destruct (mock_decision opts headers _ automatic) as [m|]; [|leaf Hlen].
  destruct (version api) as [v|]; [|apply ok_here].
  simpl.
  match goal with
  | |- context [req_set req ?k ?x st] =>
      generalize x; intros vm;
      pose proof (chain_step_req_set req k vm st) as Hset;
      pose proof (chain_step_bound _ _ Hset Hlen) as Hlen1;
      generalize dependent (req_set req k vm st); intros st1 Hset Hlen1
  end.
  destruct (registry_get controllers _) as [controller|].
  - eapply ok_step; [exact Hset|].
    match goal with
    | |- context [exec opts api next req controller ?s] =>
        assert (Hs : chain_step req st1 s) by (unfold debug; steps);
        destruct (ok_exec controller s (chain_step_bound _ _ Hs Hlen1))
          as (s' & c & He & Hs');
        rewrite He
    end.
    destruct c as [|err].
    + exists s', Normal. split; [reflexivity | eapply chain_step_trans; eassumption].
    + eapply ok_step; [eapply chain_step_trans; eassumption|].
      apply ok_next. eapply chain_step_bound; [exact Hs'|].
      eapply chain_step_bound; eassumption.
  - eapply ok_step; [exact Hset|].
    destruct (assoc _ (op_responses op)) as [response|].
    + by apply mocks_generate_chain_step.
    + leaf Hlen1.
Qed.

Lemma catch_next_chain_step st r :
  length (middlewares st) <= fuel ->
  chain_result req st r ->
  exists st', catch_next next r = Some st' /\ chain_step req st st'.
Proof.
  intros Hlen (st1 & c & -> & Hs). destruct c as [|e]; simpl.
  - exists st1. split; [reflexivity | exact Hs].
  - destruct (next_ok (Some e) st1) as (st' & Hn & Hs').
    { eapply chain_step_bound; eassumption. }
    setoid_rewrite Hn. exists st'. split; [reflexivity|].
    eapply chain_step_trans; eassumption.
Qed.

Lemma invoke_chain_step mw err st :
  length (middlewares st) <= fuel ->
  chain_result req st (invoke opts api next req mw err st).
Proof.
  intros Hlen. destruct mw as [arity body|[controllers|e]|[controllers|e] automatic]; simpl.
  - by apply ok_exec.
  - destruct (catch_next_chain_step st _ Hlen (controllers_then_chain_step controllers st Hlen))
      as (st' & -> & Hs).
    exists st', Normal. split; [reflexivity | exact Hs].
  - apply ok_next, Hlen.
  - destruct (catch_next_chain_step st _ Hlen
                (mocks_then_chain_step controllers automatic st Hlen))
      as (st' & -> & Hs).
    exists st', Normal. split; [reflexivity | exact Hs].
  - apply ok_next, Hlen.
Qed.
End Chain.
End Frame.

Lemma run_chain_step opts api clear req next fuel :
  (forall e s, exists s', next e s = Some s' /\ chain_step req s s') ->
  forall err st,
    length (middlewares st) <= fuel ->
    exists st', run opts api fuel clear req next err st = Some st' /\ chain_step req st st'.
Proof.
  intros Hnext. induction fuel as [|fuel IH]; intros err st Hlen.
  - destruct (middlewares st) as [|mw rest] eqn:Hq; [|simpl in Hlen; lia].
    simpl. rewrite Hq.
    destruct (Hnext err (clear_header clear st)) as (s' & -> & Hs).
    exists s'. split; [reflexivity|].
    eapply chain_step_trans; [apply chain_step_clear_header | exact Hs].
  - simpl. destruct (middlewares st) as [|mw rest] eqn:Hq.
    + destruct (Hnext err (clear_header clear st)) as (s' & -> & Hs).
      exists s'. split; [reflexivity|].
      eapply chain_step_trans; [apply chain_step_clear_header | exact Hs].
    + set (st1 := set_middlewares rest (clear_header clear st)).
      assert (Hs1 : chain_step req st st1).
      { unfold st1. eapply chain_step_trans; [apply chain_step_clear_header|].
        eapply chain_step_pop. destruct clear; simpl; exact Hq. }
      assert (Hlen1 : length (middlewares st1) <= fuel).
      { unfold st1. simpl. simpl in Hlen. lia. }
      destruct (_ || _).
      * destruct (catch_next_chain_step fuel _ req IH st1 _ Hlen1
                    (invoke_chain_step opts api fuel _ req IH mw err st1 Hlen1))
          as (st2 & -> & Hs2).
        exists st2. split; [reflexivity | eapply chain_step_trans; eassumption].
      * destruct (IH err st1 Hlen1) as (st2 & -> & Hs2).
        exists st2. split; [reflexivity | eapply chain_step_trans; eassumption].
Qed.

(** ** The validation middleware: it ends, serializes at most once and leaves
    the objects of the host alone *)

Lemma extends_refl n st : extends n st st.
Proof. unfold extends. repeat split; auto. Qed.

Lemma extends_trans n st1 st2 st3 :
  extends n st1 st2 -> extends n st2 st3 -> extends n st1 st3.
Proof.
  intros (Ha & Hb & Hc & Hd & He) (Ha' & Hb' & Hc' & Hd' & He').
  unfold extends. repeat split; try congruence; try lia.
  intros l Hl. rewrite (He' l Hl). apply He, Hl.
Qed.

Lemma extends_req_set n (req : loc) key v st :
  n <= req -> extends n st (req_set req key v st).
Proof.
  intros Hn. unfold req_set. destruct (heap st !! req) as [m|]; [|apply extends_refl].
  unfold extends. simpl. repeat split; auto.
  - rewrite length_insert. lia.
  - intros l Hl. apply list_lookup_insert_ne. lia.
Qed.

Lemma extends_alloc n m st :
  n <= length (heap st) -> extends n st (alloc m st).2.
Proof.
  intros Hn. unfold extends, alloc. simpl. repeat split; auto.
  - rewrite length_app. lia.
  - intros l Hl. apply lookup_app_l. lia.
Qed.

Lemma extends_bound n st st' : extends n st st' -> n <= length (heap st) -> n <= length (heap st').
Proof. intros (_ & _ & _ & H & _) ?. lia. Qed.

Lemma extends_merge_key n (req : loc) key parsed st :
  n <= req -> n <= length (heap st) -> extends n st (merge_key req key parsed st).
Proof.
  intros Hreq Hn. unfold merge_key.
  match goal with |- context [alloc ?m st] =>
    pose proof (extends_alloc n m st Hn) as Ha; destruct (alloc m st) as [l st1] end.
  simpl in Ha. eapply extends_trans; [exact Ha|]. by apply extends_req_set.
Qed.

Lemma extends_option_set n (req : loc) key v st :
  n <= req -> extends n st (option_set req key v st).
Proof. intros. destruct v; simpl; [by apply extends_req_set | apply extends_refl]. Qed.

Lemma extends_attach_request opts n (req : loc) request st :
  n <= req -> n <= length (heap st) -> extends n st (attach_request opts req request st).
Proof.
  intros Hreq Hn. unfold attach_request.
  assert (H1 := extends_req_set n req (reqOperationProperty opts)
                  (VOperation (pr_operation request)) st Hreq).
  set (st1 := req_set _ _ _ st) in *.
  assert (H2 := extends_alloc n (default ∅ (pr_path request)) st1 (extends_bound _ _ _ H1 Hn)).
  destruct (alloc _ st1) as [params st2]. simpl in H2.
  assert (H3 := extends_req_set n req "params" (VRef params) st2 Hreq).
  set (st3 := req_set _ _ _ st2) in *.
  assert (B3 : n <= length (heap st3)).
  { eapply extends_bound; [exact H3|]. eapply extends_bound; [exact H2|].
    eapply extends_bound; eassumption. }
  assert (H4 := extends_merge_key n req "cookies" (pr_cookies request) st3 Hreq B3).
  set (st4 := merge_key _ _ _ st3) in *.
  assert (B4 := extends_bound _ _ _ H4 B3).
  assert (H5 := extends_merge_key n req "headers" (pr_headers request) st4 Hreq B4).
  set (st5 := merge_key _ _ _ st4) in *.
  assert (B5 := extends_bound _ _ _ H5 B4).
  assert (H6 := extends_merge_key n req "params" (pr_params request) st5 Hreq B5).
  set (st6 := merge_key _ _ _ st5) in *.
  assert (B6 := extends_bound _ _ _ H6 B5).
  assert (H7 := extends_merge_key n req "query" (pr_query request) st6 Hreq B6).
  set (st7 := merge_key _ _ _ st6) in *.
  assert (H8 := extends_option_set n req "body" (pr_body request) st7 Hreq).
  repeat (eapply extends_trans; [eassumption|]). apply extends_refl.
Qed.

Lemma host_ok req : forall e s, exists s', host e s = Some s' /\ chain_step req s s'.
Proof. intros e s. eexists. split; [reflexivity | apply chain_step_middleware_next]. Qed.

(** What [middleware] guarantees for any chain: it ends, [operation.response]
    is called at most once, and every object that existed before the call is
    left as it was. *)
Lemma middleware_frame opts isNaN_string promise store req st :
  exists st',
    middleware opts isNaN_string promise store req st = Some st'
    /\ serializations (trace st') <= serializations (trace st) + 1
    /\ (forall l, l < length (heap st) -> heap st' !! l = heap st !! l).
Proof.
  unfold middleware. destruct promise as [api|e].
  2:{ eexists. split; [reflexivity|]. simpl. rewrite serializations_app. simpl.
      split; [lia | auto]. }
  unfold middleware_then. simpl.
  change (debug "request" "validating and parsing" _) with (copied req st).
  assert (Hc : forall l, l < length (heap st) -> heap (copied req st) !! l = heap st !! l).
  { intros l Hl. unfold copied. simpl. by apply lookup_app_l. }
  assert (Ht : trace (copied req st) = trace st ++ [EvDebug "request" "validating and parsing"])
    by reflexivity.
  assert (Hlen : length (heap (copied req st)) = S (length (heap st))).
  { unfold copied. simpl. rewrite length_app. simpl. lia. }
  generalize dependent (copied req st). intros st0 Hc Ht Hlen.
  destruct (requestObj isNaN_string st0 (length (heap st))) as [ro|].
  2:{ eexists. split; [reflexivity|]. simpl. rewrite Ht, !serializations_app. simpl.
      split; [lia | exact Hc]. }
  set (copy := length (heap st)) in *.
  unfold middlewareRunner. cbv beta iota zeta.
  (* the state in which the runner is created *)
  set (st1 := set_middlewares store
                (req_set copy (reqOpenApiProperty opts) VOpenApi
                   (res_set_send (SendIntercept copy) st0))).
  assert (Hst1 : trace st1 = trace st0 /\ send (res st1) = SendIntercept copy
                 /\ middlewares st1 = store /\ copy <= length (heap st1)
                 /\ (forall l, l < copy -> heap st1 !! l = heap st0 !! l)).
  { destruct (extends_req_set copy copy (reqOpenApiProperty opts) VOpenApi
                (res_set_send (SendIntercept copy) st0)) as (Ha & Hb & _ & Hd & He); [lia|].
    unfold st1. simpl. rewrite Ha, Hb. simpl. simpl in Hd.
    repeat split; auto. lia. }
  destruct Hst1 as (Htr1 & Hsend1 & Hq1 & Hlen1 & Hheap1).
  clearbody st1.
  assert (Hstart : forall st2 err,
            extends copy st1 st2 ->
            exists st', run opts api (length store) true copy host err st2 = Some st'
              /\ serializations (trace st') <= serializations (trace st) + 1
              /\ (forall l, l < copy -> heap st' !! l = heap st !! l)).
  { intros st2 err (Htr & Hres & Hq & _ & Hheap).
    destruct (run_chain_step opts api true copy host (length store) (host_ok copy) err st2)
      as (st' & Hrun & _ & HJ & _ & Hframe).
    { rewrite Hq, Hq1. lia. }
    exists st'. split; [exact Hrun|]. split.
    - unfold armed in HJ. rewrite Htr, Hres, Hsend1, Htr1, Ht, serializations_app in HJ.
      simpl in HJ. lia.
    - intros l Hl. rewrite Hframe by lia. rewrite Hheap by exact Hl.
      rewrite Hheap1 by exact Hl. apply Hc, Hl. }
  assert (Hthrow : forall e,
            serializations (trace (middleware_next e st1)) <= serializations (trace st) + 1
            /\ (forall l, l < copy -> heap (middleware_next e st1) !! l = heap st !! l)).
  { intros e. simpl. rewrite Htr1, Ht, !serializations_app. simpl. split; [lia|].
    intros l Hl. rewrite Hheap1 by exact Hl. apply Hc, Hl. }
  destruct (oa_request api ro) as [request|clientError] eqn:Hreq; simpl.
  - fold host.
    destruct (Hstart (attach_request opts copy request st1) None) as (st' & -> & H1 & H2).
    { apply extends_attach_request; [lia | exact Hlen1]. }
    exists st'. auto.
  - destruct (bool_decide (exc_statusCode clientError = Some 404%Z)).
    + destruct (fallthrough opts); eexists; (split; [reflexivity|]); simpl;
        rewrite Ht, !serializations_app; simpl; (split; [lia | exact Hc]).
    + destruct (oa_path api (ro_method ro) (ro_path ro)) as [operation|].
      * fold host.
        destruct (Hstart (req_set copy (reqOperationProperty opts) (VOperation operation) st1)
                    (Some (errorFromException clientError))) as (st' & -> & H1 & H2).
        { apply extends_req_set. lia. }
        exists st'. auto.
      * eexists. split; [reflexivity|]. apply Hthrow.
Qed.

(** ** The runner *)

Lemma exec_finish_throw opts api next req p e st :
  catch_next next (exec opts api next req (finish p (Throw e)) st)
  = catch_next next (exec opts api next req (finish p (Next (Some e) Return)) st).
Proof.
  revert st.
  induction p as [|e'|n k IH|code k IH|name v k IH|body k IH|err k IH
                  |key k IH|key v k IH|k IH]; intros st; simpl; try apply IH.
  - destruct (next (Some e) st); reflexivity.
  - reflexivity.
  - destruct (res_send opts api body st) as [st1 [|e1]]; [apply IH | reflexivity].
  - destruct (next err st); [apply IH | reflexivity].
Qed.

Lemma run_step opts api fuel clear req next err mw rest st :
  run opts api (S fuel) clear req next err (set_middlewares (mw :: rest) st)
  = let st1 := set_middlewares rest (clear_header clear st) in
    let run' := run opts api fuel clear req next in
    if (bool_decide (is_Some err) && isErrorHandling mw)
       || (negb (bool_decide (is_Some err)) && negb (isErrorHandling mw))
    then catch_next run' (invoke opts api run' req mw err st1)
    else run' err st1.
Proof. destruct clear; reflexivity. Qed.

(** C1. The runner of a handler chain. A handler is an error handler exactly
    when it declares four or more parameters. With an error, normal handlers
    are skipped and the next error handler is called with the error, the
    request, the response and [run]; without one, error handlers are skipped
    and the next normal handler is called with the request, the response and
    [run]. A handler that throws [e] continues the chain exactly as one that
    calls [next(e)] at that point. When the queue is empty the terminal
    continuation receives the error, if any. The runner always ends. For the
    chain [h1] (normal, throws), [h2] (normal), [h3] (error handler), [h4]
    (normal) the handlers run are [h1], [h3], [h4], in this order. *)
Theorem C1_runner_semantics (opts : options) (api : openapi) :
  (forall mw, isErrorHandling mw = true <-> 4 <= fn_length mw)
  /\ (forall fuel clear req next e mw rest st,
        isErrorHandling mw = false ->
        run opts api (S fuel) clear req next (Some e) (set_middlewares (mw :: rest) st)
        = run opts api fuel clear req next (Some e)
            (set_middlewares rest (clear_header clear st)))
  /\ (forall fuel clear req next e mw rest st,
        isErrorHandling mw = true ->
        run opts api (S fuel) clear req next (Some e) (set_middlewares (mw :: rest) st)
        = catch_next (run opts api fuel clear req next)
            (invoke opts api (run opts api fuel clear req next) req mw (Some e)
               (set_middlewares rest (clear_header clear st))))
  /\ (forall fuel clear req next mw rest st,
        isErrorHandling mw = true ->
        run opts api (S fuel) clear req next None (set_middlewares (mw :: rest) st)
        = run opts api fuel clear req next None
            (set_middlewares rest (clear_header clear st)))
  /\ (forall fuel clear req next mw rest st,
        isErrorHandling mw = false ->
        run opts api (S fuel) clear req next None (set_middlewares (mw :: rest) st)
        = catch_next (run opts api fuel clear req next)
            (invoke opts api (run opts api fuel clear req next) req mw None
               (set_middlewares rest (clear_header clear st))))
  /\ (forall next req arity body err st,
        invoke opts api next req (UserFn arity body) err st
        = exec opts api next req (body err) st)
  /\ (forall fuel clear req next err arity p e rest st,
        run opts api (S fuel) clear req next err
          (set_middlewares (UserFn arity (fun _ => finish p (Throw e)) :: rest) st)
        = run opts api (S fuel) clear req next err
            (set_middlewares (UserFn arity (fun _ => finish p (Next (Some e) Return)) :: rest) st))
  /\ (forall fuel clear req next err st,
        run opts api fuel clear req next err (set_middlewares [] st)
        = next err (clear_header clear (set_middlewares [] st)))
  /\ (forall store clear req next err st,
        (forall e s, exists s', next e s = Some s' /\ chain_step req s s') ->
        exists st',
          (middlewareRunner opts api store clear req next st).1 err
            (middlewareRunner opts api store clear req next st).2 = Some st')
  /\ (let (runner, st) :=
        middlewareRunner opts api [h1; h2; h3; h4] true 0 host (incoming "/dne" ∅ ∅) in
      exists st', runner None st = Some st'
                  /\ trace st' = [EvLog 1; EvLog 3; EvLog 4; EvHostNext None]).
Proof.
  repeat apply conj.
  - intros mw. unfold isErrorHandling. apply Nat.leb_le.
  - intros fuel clear req next e mw rest st Hmw. rewrite run_step. simpl.
    rewrite Hmw. reflexivity.
  - intros fuel clear req next e mw rest st Hmw. rewrite run_step. simpl.
    rewrite Hmw. reflexivity.
  - intros fuel clear req next mw rest st Hmw. rewrite run_step. simpl.
    rewrite Hmw. reflexivity.
  - intros fuel clear req next mw rest st Hmw. rewrite run_step. simpl.
    rewrite Hmw. reflexivity.
  - reflexivity.
  - intros. rewrite !run_step. simpl. unfold isErrorHandling. simpl.
    destruct (_ || _); [|reflexivity].
    apply exec_finish_throw.
  - intros. destruct fuel; reflexivity.
  - intros store clear req next err st Hnext. simpl.
    destruct (run_chain_step opts api clear req next (length store) Hnext err
                (set_middlewares store st)) as (st' & Hrun & _); [simpl; lia|].
    exists st'. exact Hrun.
  - eexists. split; vm_compute; reflexivity.
Qed.

(** ** Unmatched routes *)

Lemma req_get_copied req st key :
  req_get (copied req st) (length (heap st)) key = req_get st req key.
Proof.
  unfold req_get, copied, own_props, props. simpl.
  rewrite list_lookup_middle by reflexivity.
  destruct (heap st !! req); [reflexivity|]. unfold get_prop. by rewrite lookup_empty.
Qed.

Lemma props_copied req st v m :
  props (heap st) v = Some m -> props (heap (copied req st)) v = Some m.
Proof.
  unfold props, copied. simpl. destruct v; try discriminate.
  intros H. by apply lookup_app_l_Some.
Qed.

Lemma requestObj_copied isNaN_string req st ro :
  requestObj isNaN_string st req = Some ro ->
  requestObj isNaN_string (copied req st) (length (heap st)) = Some ro.
Proof.
  unfold requestObj, request_path, hasBody.
  rewrite !req_get_copied.
  destruct (req_get st req "originalUrl"); try discriminate.
  destruct (req_get st req "baseUrl"); try discriminate.
  destruct (props (heap st) (req_get st req "headers")) as [hs|] eqn:Hhs; [|discriminate].
  rewrite (props_copied _ _ _ _ Hhs). intros H. exact H.
Qed.

(** C2. A request that matches no operation (the validation outcome carries
    status 404). With [fallthrough] the middleware sets no status and no
    header and calls the host's [next] without an error; without it the
    middleware answers with status 404. In both cases the chain is not run:
    the result does not depend on the registered handlers, and nothing but
    the listed events is observed. *)
Theorem C2_unmatched_route opts isNaN_string api store req st ro clientError :
  requestObj isNaN_string st req = Some ro ->
  oa_request api ro = inr clientError ->
  exc_statusCode clientError = Some 404%Z ->
  exists st',
    middleware opts isNaN_string (Resolved api) store req st = Some st'
    /\ middlewares st' = middlewares st
    /\ res_headers (res st') = res_headers (res st)
    /\ (fallthrough opts = true ->
        statusCode (res st') = statusCode (res st)
        /\ trace st' = trace st ++ [EvDebug "request" "validating and parsing";
                                    EvDebug "request" "fallthrough";
                                    EvHostNext None])
    /\ (fallthrough opts = false ->
        statusCode (res st') = VNum 404
        /\ trace st' = trace st ++ [EvDebug "request" "validating and parsing";
                                    EvSendStatus 404]).
Proof.
  intros Hro Hreq H404.
  unfold middleware, middleware_then. simpl.
  change (debug "request" "validating and parsing" _) with (copied req st).
  rewrite (requestObj_copied _ _ _ _ Hro), Hreq, H404.
  rewrite bool_decide_eq_true_2 by reflexivity.
  destruct (fallthrough opts); eexists; (split; [reflexivity|]); simpl;
    rewrite <- ?app_assoc; repeat split; try discriminate; reflexivity.
Qed.

Lemma C2_unmatched_route_witness :
  exists st',
    middleware strict_options digits_only (Resolved people_api) [h1; h2] 0
      (incoming "/dne" ∅ ∅) = Some st'
    /\ statusCode (res st') = VNum 404.
Proof.
  destruct (C2_unmatched_route strict_options digits_only people_api [h1; h2] 0
              (incoming "/dne" ∅ ∅)
              {| ro_headers := VRef 1; ro_method := VStr "GET"; ro_path := "/dne";
                 ro_body := None |}
              path_not_found)
    as (st' & Hrun & _ & _ & _ & Hstrict).
  - reflexivity.
  - reflexivity.
  - reflexivity.
  - exists st'. split; [exact Hrun|]. apply Hstrict. reflexivity.
Defined.

(** ** The interception of [res.send] *)

(** The interception in the situation [middleware] sets up (the request
    holds the catalog and the operation), when it gets as far as
    [operation.response]: the headers handed over are those of the
    response. *)
Lemma intercept_reaches opts api rq body st o :
  req_get st rq (reqOpenApiProperty opts) = VOpenApi ->
  req_get st rq (reqOperationProperty opts) = VOperation o ->
  reaches_response api rq o st = true ->
  let code := js_or (statusCode (res st)) (VNum 200) in
  let st1 := emit (EvSerialize code body) (res_set_send SendOriginal st) in
  intercept opts api rq body st
  = match op_response (oa_operation api o) code body (res_headers (res st)) with
    | inr exception =>
        (middleware_next (Some (errorFromException exception)) (res_status (VNum 500) st1),
         Normal)
    | inl response =>
        (original_send (sr_body response) (set_headers (sr_headers response) st1), Normal)
    end.
Proof.
  intros Hoa Hop Hreach. unfold intercept.
  change (req_get (res_set_send SendOriginal st) rq) with (req_get st rq).
  change (accepts (res_set_send SendOriginal st) rq) with (accepts st rq).
  rewrite Hoa, Hop. unfold reaches_response, derives in Hreach. simpl in *.
  destruct (negb _ && negb _); [|reflexivity].
  simpl in Hreach. destruct (accepts st rq) as [acc|]; [|discriminate].
  destruct (mr_value _); [discriminate | reflexivity].
Qed.

(** The interception when the test of line 168 holds and the operation
    matches content types: [res.set] refuses the array, before
    [operation.response] is called. *)
Lemma intercept_throws opts api rq body st o acc types :
  req_get st rq (reqOpenApiProperty opts) = VOpenApi ->
  req_get st rq (reqOperationProperty opts) = VOperation o ->
  accepts st rq = Some acc ->
  derives api st = true ->
  mr_value (op_getResponseContentTypeMatches (oa_operation api o)
              (js_or (statusCode (res st)) (VNum 200)) acc) = Some types ->
  intercept opts api rq body st
  = (res_set_send SendOriginal st,
     Thrown (TypeError "Content-Type cannot be set to an Array")).
Proof.
  intros Hoa Hop Hacc Hd Hm. unfold intercept.
  change (req_get (res_set_send SendOriginal st) rq) with (req_get st rq).
  change (accepts (res_set_send SendOriginal st) rq) with (accepts st rq).
  rewrite Hoa, Hop, Hacc. unfold derives in Hd. simpl in *. rewrite Hd, Hm. reflexivity.
Qed.

(** The first call of [res.send] under the interception, for a body the
    operation accepts: one call of [operation.response], then the serialized
    body is written by the framework's send. *)
Lemma res_send_serializes opts api rq body st o response :
  send (res st) = SendIntercept rq ->
  req_get st rq (reqOpenApiProperty opts) = VOpenApi ->
  req_get st rq (reqOperationProperty opts) = VOperation o ->
  reaches_response api rq o st = true ->
  op_response (oa_operation api o) (js_or (statusCode (res st)) (VNum 200)) body
    (res_headers (res st)) = inl response ->
  exists st1,
    res_send opts api body st = (st1, Normal)
    /\ send (res st1) = SendOriginal
    /\ statusCode (res st1) = statusCode (res st)
    /\ heap st1 = heap st
    /\ middlewares st1 = middlewares st
    /\ trace st1 = trace st ++ [EvSerialize (js_or (statusCode (res st)) (VNum 200)) body;
                                EvWrite (statusCode (res st)) (sr_body response)].
Proof.
  intros Hsend Hoa Hop Hreach Hresp.
  pose proof (intercept_reaches opts api rq body st o Hoa Hop Hreach) as Hi.
  cbv zeta in Hi. rewrite Hresp in Hi.
  unfold res_send. rewrite Hsend, Hi. eexists. split; [reflexivity|].
  destruct (set_headers_fields (sr_headers response)
              (emit (EvSerialize (js_or (statusCode (res st)) (VNum 200)) body)
                 (res_set_send SendOriginal st)))
    as (Hh' & Hq' & Ht' & Hs' & Hc').
  unfold original_send. simpl. rewrite Hh', Hq', Ht', Hs', Hc'. simpl.
  repeat split. by rewrite <- app_assoc.
Qed.

(** The same call for a body the operation rejects. *)
Lemma res_send_rejects opts api rq body st o exception :
  send (res st) = SendIntercept rq ->
  req_get st rq (reqOpenApiProperty opts) = VOpenApi ->
  req_get st rq (reqOperationProperty opts) = VOperation o ->
  reaches_response api rq o st = true ->
  op_response (oa_operation api o) (js_or (statusCode (res st)) (VNum 200)) body
    (res_headers (res st)) = inr exception ->
  exists st',
    res_send opts api body st = (st', Normal)
    /\ res st' = mkResponse (VNum 500) (res_headers (res st)) SendOriginal
    /\ heap st' = heap st
    /\ middlewares st' = middlewares st
    /\ trace st' = trace st ++ [EvSerialize (js_or (statusCode (res st)) (VNum 200)) body;
                                EvHostNext (Some (errorFromException exception))].
Proof.
  intros Hsend Hoa Hop Hreach Hresp.
  pose proof (intercept_reaches opts api rq body st o Hoa Hop Hreach) as Hi.
  cbv zeta in Hi. rewrite Hresp in Hi.
  unfold res_send. rewrite Hsend, Hi. eexists. split; [reflexivity|].
  simpl. repeat split. by rewrite <- app_assoc.
Qed.

(** ** A response the operation rejects *)

(** C5, as stated, fails: the failure does not enter the error path of the
    handler chain. The error handler registered behind the controller is
    never called (it is still in the queue); the error goes to the host. *)
Lemma C5_counterexample :
  exists st',
    middleware default_options digits_only (Resolved people_api) [sends_string; on_error] 0
      (incoming "/people" ∅ ∅) = Some st'
    /\ statusCode (res st') = VNum 500
    /\ trace st' = [EvDebug "request" "validating and parsing";
                    EvLog 1;
                    EvSerialize (VNum 200) (Some (DStr "oops"));
                    EvHostNext (Some (errorFromException invalid_response))]
    /\ middlewares st' = [on_error]
    /\ ~ In (EvLog 9) (trace st').
Proof.
  eexists. split; [vm_compute; reflexivity|].
  split; [reflexivity|]. split; [reflexivity|]. split; [reflexivity|].
  simpl. intros [H|[H|[H|[H|[]]]]]; discriminate.
Qed.

(** C5, amended. When the interception hands the body a handler sends to
    [operation.response] (with the status code and the headers the response
    has at that point) and the operation rejects it, the status is set to
    500, the failure is handed to the host's [next] (the terminal
    continuation) with the framework's send put back, the queue of the
    chain and the headers are left as they are, and nothing is written. *)
Theorem C5_response_rejected opts api rq body st o exception :
  send (res st) = SendIntercept rq ->
  req_get st rq (reqOpenApiProperty opts) = VOpenApi ->
  req_get st rq (reqOperationProperty opts) = VOperation o ->
  reaches_response api rq o st = true ->
  op_response (oa_operation api o) (js_or (statusCode (res st)) (VNum 200)) body
    (res_headers (res st)) = inr exception ->
  exists st',
    res_send opts api body st = (st', Normal)
    /\ statusCode (res st') = VNum 500
    /\ trace st' = trace st ++ [EvSerialize (js_or (statusCode (res st)) (VNum 200)) body;
                                EvHostNext (Some (errorFromException exception))]
    /\ err_statusCode (errorFromException exception) = exc_statusCode exception
    /\ middlewares st' = middlewares st
    /\ send (res st') = SendOriginal
    /\ res_headers (res st') = res_headers (res st)
    /\ heap st' = heap st.
Proof.
  intros Hsend Hoa Hop Hreach Hresp.
  destruct (res_send_rejects opts api rq body st o exception Hsend Hoa Hop Hreach Hresp)
    as (st' & Hrun & Hres & Hh & Hq & Ht).
  exists st'. rewrite Hres. simpl. auto 10.
Qed.

Lemma C5_response_rejected_witness :
  exists st',
    res_send default_options people_api (Some (DStr "oops"))
      (mkState [ {[ "openapi" := VOpenApi; "operation" := VOperation 0; "headers" := VRef 1 ]}; ∅ ]
         (mkResponse (VNum 200) ∅ (SendIntercept 0)) [on_error] [])
    = (st', Normal)
    /\ statusCode (res st') = VNum 500.
Proof.
  destruct (C5_response_rejected default_options people_api 0 (Some (DStr "oops"))
              (mkState [ {[ "openapi" := VOpenApi; "operation" := VOperation 0;
                            "headers" := VRef 1 ]}; ∅ ]
                 (mkResponse (VNum 200) ∅ (SendIntercept 0)) [on_error] [])
              0 invalid_response)
    as (st' & Hrun & Hstatus & _).
  - reflexivity.
  - reflexivity.
  - reflexivity.
  - reflexivity.
  - reflexivity.
  - exists st'. split; [exact Hrun | exact Hstatus].
Defined.

(** ** The mock middleware *)

(** C3, as stated, fails: with a controller bound in the mock registry and
    an [x-mock] header, the controller runs with the marker header [mock],
    not [controller]. *)
Lemma C3_counterexample :
  exists st',
    middleware default_options digits_only (Resolved people_api)
      [MocksMw (Resolved [(0, mock_people)]) false] 0
      (incoming "/people" {[ "x-mock" := VStr "" ]} ∅) = Some st'
    /\ res_headers (res st') !! ENFORCER_HEADER = Some "mock"
    /\ res_headers (res st') !! ENFORCER_HEADER <> Some "controller"
    /\ trace st' = [EvDebug "request" "validating and parsing";
                    EvDebug "controllers" "executing mock controller";
                    EvLog 7;
                    EvSerialize (VNum 200) (Some people);
                    EvWrite (VNum 200) (Some people)].
Proof.
  eexists. split; [vm_compute; reflexivity|].
  split; [reflexivity|]. split; [|reflexivity].
  vm_compute. discriminate.
Qed.

(** C3, amended. In the mock middleware, when a controller is bound to the
    operation and a mock decision was taken, the decision (with its status
    code and response) is stored on the request, the marker header is set to
    [mock], and the controller is run: nothing else is done, the generator
    in particular is not reached. The value [controller] is what the
    controllers middleware sets, which takes no mock decision. *)
Theorem C3_mock_controller_precedence opts api next req controllers automatic st
    op headers m v controller :
  as_operation api (req_get st req (reqOperationProperty opts)) = Some op ->
  props (heap st) (req_get st req "headers") = Some headers ->
  mock_decision opts headers (map fst (op_responses op)) automatic = Some m ->
  version api = Some v ->
  registry_get controllers (req_get st req (reqOperationProperty opts)) = Some controller ->
  let decision :=
    mkMock (mock_source m) (mock_specified m) (mock_statusCode m)
      (assoc (to_string (mock_statusCode m)) (op_responses op)) in
  let st1 :=
    debug "controllers" "executing mock controller"
      (res_set ENFORCER_HEADER "mock"
         (req_set req (reqMockStatusCodeProperty opts) (VMock decision) st)) in
  mocks_then opts api next req controllers automatic st
  = match exec opts api next req controller st1 with
    | Some (st', Thrown err) =>
        match next (Some err) st' with
        | Some st'' => Some (st'', Normal)
        | None => None
        end
    | r => r
    end
  /\ res_headers (res st1) !! ENFORCER_HEADER = Some "mock"
  /\ req_get st1 req (reqMockStatusCodeProperty opts) = VMock decision
  /\ trace st1 = trace st ++ [EvDebug "controllers" "executing mock controller"]
  /\ (forall o bound,
        req_get st req (reqOperationProperty opts) = VOperation o ->
        controllers_then opts api next req [(o, bound)] st
        = exec opts api next req bound
            (debug "controllers" "executing controller"
               (res_set ENFORCER_HEADER "controller" st))).
Proof.
  intros Hop Hh Hm Hv Hc decision st1.
  assert (Hreq : is_Some (heap st !! req)).
  { unfold req_get in Hop. destruct (heap st !! req); [eauto | discriminate]. }
  destruct Hreq as [o Ho].
  split; [|split; [|split; [|split]]].
  - unfold mocks_then. rewrite Hop, Hh, Hm, Hv, Hc. reflexivity.
  - unfold st1. simpl. apply lookup_insert_eq.
  - unfold st1, req_get, req_set. rewrite Ho. simpl.
    rewrite list_lookup_insert_eq by (eapply lookup_lt_Some; exact Ho).
    unfold get_prop. by rewrite lookup_insert_eq.
  - unfold st1, req_set. rewrite Ho. reflexivity.
  - intros o' bound Ho'. unfold controllers_then. rewrite Ho'.
    simpl. by rewrite Nat.eqb_refl.
Qed.

Lemma C3_mock_controller_precedence_witness :
  exists st1,
    mocks_then default_options people_api host 0 [(0, mock_people)] false
      (mock_request SendOriginal)
    = exec default_options people_api host 0 mock_people st1
    /\ res_headers (res st1) !! ENFORCER_HEADER = Some "mock"
    /\ req_get st1 0 "mockStatusCode"
       = VMock (mkMock "header" false (VStr "200") (Some people_200)).
Proof.
  destruct (C3_mock_controller_precedence default_options people_api host 0
              [(0, mock_people)] false (mock_request SendOriginal)
              get_people {[ "x-mock" := VStr "" ]} people_decision (VNum 2) mock_people)
    as (Hrun & Hheader & Hdecision & _);
    [reflexivity | reflexivity | reflexivity | reflexivity | reflexivity |].
  eexists. split; [|split; [exact Hheader | exact Hdecision]].
  rewrite Hrun. vm_compute. reflexivity.
Defined.

(** C6. The query trigger is never read from the query: a request whose
    query holds [x-mock=200] and whose headers hold no trigger gets no
    decision, and the chain continues. *)
Lemma C6_query_trigger_ignored :
  mock_decision default_options ∅ ["200"] false = None
  /\ exists st',
       middleware default_options digits_only (Resolved people_api)
         [MocksMw (Resolved []) false] 0
         (incoming "/people" ∅ {[ "x-mock" := VStr "200" ]}) = Some st'
       /\ own_props (heap st') (req_get st' 3 "query") = {[ "x-mock" := VStr "200" ]}
       /\ req_get st' 3 "mockStatusCode" = VUndefined
       /\ trace st' = [EvDebug "request" "validating and parsing"; EvHostNext None].
Proof.
  split; [reflexivity|].
  eexists. split; [vm_compute; reflexivity|].
  split; [vm_compute; reflexivity|]. split; reflexivity.
Qed.

(** X1. The order in which the triggers are tried, all of them in the headers:
    the header named by [mockHeader], then the header named by [mockQuery],
    then automatic mocking; otherwise there is no decision. *)
Lemma mock_decision_precedence opts headers responseCodes automatic :
  (is_Some (headers !! mockHeader opts) ->
   exists m, mock_decision opts headers responseCodes automatic = Some m
             /\ mock_source m = "header")
  /\ (headers !! mockHeader opts = None -> is_Some (headers !! mockQuery opts) ->
      exists m, mock_decision opts headers responseCodes automatic = Some m
                /\ mock_source m = "query")
  /\ (headers !! mockHeader opts = None -> headers !! mockQuery opts = None ->
      automatic = true ->
      exists m, mock_decision opts headers responseCodes automatic = Some m
                /\ mock_source m = "automatic")
  /\ (headers !! mockHeader opts = None -> headers !! mockQuery opts = None ->
      automatic = false ->
      mock_decision opts headers responseCodes automatic = None).
Proof.
  unfold mock_decision. repeat split.
  - intros H. rewrite bool_decide_eq_true_2 by exact H. eauto.
  - intros H1 H2. rewrite bool_decide_eq_false_2 by (rewrite H1; apply is_Some_None).
    rewrite bool_decide_eq_true_2 by exact H2. eauto.
  - intros H1 H2 ->. rewrite !bool_decide_eq_false_2 by (rewrite ?H1, ?H2; apply is_Some_None).
    eauto.
  - intros H1 H2 ->. rewrite !bool_decide_eq_false_2 by (rewrite ?H1, ?H2; apply is_Some_None).
    reflexivity.
Qed.



(** C8, as stated, fails: the generated value is sent through [res.send],
    which under the validation middleware is the intercepting function, so
    [operation.response] is called for it; and no marker header is set. *)
Lemma C8_counterexample :
  exists st',
    middleware default_options digits_only (Resolved people_api)
      [MocksMw (Resolved []) false] 0
      (incoming "/people" {[ "x-mock" := VStr "" ]} ∅) = Some st'
    /\ statusCode (res st') = VStr "200"
    /\ trace st' = [EvDebug "request" "validating and parsing";
                    EvRandom;
                    EvSerialize (VStr "200") (Some people);
                    EvWrite (VStr "200") (Some people)]
    /\ serializations (trace st') = 1
    /\ res_headers (res st') !! ENFORCER_HEADER = None
    /\ res_headers (res st') !! ENFORCER_HEADER <> Some "mock".
Proof.
  eexists. split; [vm_compute; reflexivity|].
  split; [reflexivity|]. split; [reflexivity|]. split; [reflexivity|].
  split; [reflexivity|]. vm_compute. discriminate.
Qed.

(** C8, amended. Without a controller, for a version 2 document and a
    declared response with a schema whose generation succeeds, the status is
    set to the decided code and the generated value is handed to [res.send];
    this branch sets no header. Under the validation middleware [res.send]
    is the intercepting function: [operation.response] is called once on the
    generated value, with the decided status and the headers of the
    response. If it accepts the value, the serialized body is written with
    the decided status; if it rejects it, the status becomes 500, the host's
    [next] receives the error and nothing is written. *)
Theorem C8_generated_mock opts api next req controllers automatic st
    op headers m v response schema value :
  as_operation api (req_get st req (reqOperationProperty opts)) = Some op ->
  props (heap st) (req_get st req "headers") = Some headers ->
  mock_decision opts headers (map fst (op_responses op)) automatic = Some m ->
  version api = Some v -> strict_eq_num v 2 = true ->
  registry_get controllers (req_get st req (reqOperationProperty opts)) = None ->
  assoc (to_string (mock_statusCode m)) (op_responses op) = Some response ->
  rs_schema response = Some schema ->
  random schema = (value, None, None) ->
  let decision := mkMock (mock_source m) (mock_specified m) (mock_statusCode m) (Some response) in
  let st1 :=
    res_status (mock_statusCode m)
      (emit EvRandom (req_set req (reqMockStatusCodeProperty opts) (VMock decision) st)) in
  let code := js_or (mock_statusCode m) (VNum 200) in
  mocks_then opts api next req controllers automatic st = Some (res_send opts api (Some value) st1)
  /\ statusCode (res st1) = mock_statusCode m
  /\ res_headers (res st1) = res_headers (res st)
  /\ trace st1 = trace st ++ [EvRandom]
  /\ (forall rq o,
        send (res st) = SendIntercept rq ->
        req_get st1 rq (reqOpenApiProperty opts) = VOpenApi ->
        req_get st1 rq (reqOperationProperty opts) = VOperation o ->
        match op_response (oa_operation api o) code (Some value) (res_headers (res st)) with
        | inl serialized =>
            exists st',
              res_send opts api (Some value) st1 = (st', Normal)
              /\ statusCode (res st') = mock_statusCode m
              /\ trace st' = trace st ++ [EvRandom;
                                          EvSerialize code (Some value);
                                          EvWrite (mock_statusCode m) (sr_body serialized)]
        | inr exception =>
            exists st',
              res_send opts api (Some value) st1 = (st', Normal)
              /\ statusCode (res st') = VNum 500
              /\ trace st' = trace st ++ [EvRandom;
                                          EvSerialize code (Some value);
                                          EvHostNext (Some (errorFromException exception))]
        end).
Proof.
  intros Hop Hh Hm Hv Hv2 Hc Hr Hs Hrand decision st1 code.
  assert (Hreq : is_Some (heap st !! req)).
  { unfold req_get in Hop. destruct (heap st !! req); [eauto | discriminate]. }
  destruct Hreq as [o Ho].
  assert (Hres : res st1 = mkResponse (mock_statusCode m) (res_headers (res st)) (send (res st))).
  { unfold st1, req_set. rewrite Ho. reflexivity. }
  assert (Htr : trace st1 = trace st ++ [EvRandom]).
  { unfold st1, req_set. rewrite Ho. reflexivity. }
  assert (Hswagger : is_Some (oa_swagger api)).
  { unfold version in Hv. destruct (oa_swagger api) as [sw|]; [eauto|].
    simpl in Hv. destruct (leading_digits _); [discriminate|].
    injection Hv as <-. discriminate. }
  split; [|split; [|split; [|split]]].
  - unfold mocks_then. rewrite Hop, Hh, Hm, Hv, Hc. simpl. rewrite Hr.
    unfold mocks_generate. rewrite Hv2, Hs. unfold mock_random. rewrite Hrand. reflexivity.
  - by rewrite Hres.
  - by rewrite Hres.
  - exact Htr.
  - intros rq o' Hsend Hoa Hop'.
    assert (Hreach : reaches_response api rq o' st1 = true).
    { unfold reaches_response, derives.
      rewrite (bool_decide_eq_true_2 _ Hswagger), andb_false_r. reflexivity. }
    assert (Hsend1 : send (res st1) = SendIntercept rq) by by rewrite Hres.
    assert (Hcode : js_or (statusCode (res st1)) (VNum 200) = code) by by rewrite Hres.
    assert (Hhs : res_headers (res st1) = res_headers (res st)) by by rewrite Hres.
    destruct (op_response (oa_operation api o') code (Some value) (res_headers (res st)))
      as [serialized|exception] eqn:Hresp.
    + destruct (res_send_serializes opts api rq (Some value) st1 o' serialized
                  Hsend1 Hoa Hop' Hreach) as (st' & Hrun & _ & Hst & _ & _ & Ht).
      { by rewrite Hcode, Hhs. }
      exists st'. split; [exact Hrun|]. rewrite Hst, Ht, Htr, Hcode, Hres. simpl.
      split; [reflexivity|]. by rewrite <- app_assoc.
    + destruct (res_send_rejects opts api rq (Some value) st1 o' exception
                  Hsend1 Hoa Hop' Hreach) as (st' & Hrun & Hr' & _ & _ & Ht).
      { by rewrite Hcode, Hhs. }
      exists st'. split; [exact Hrun|]. rewrite Hr', Ht, Htr, Hcode. simpl.
      split; [reflexivity|]. by rewrite <- app_assoc.
Qed.


Lemma C8_generated_mock_witness :
  exists st',
    mocks_then default_options people_api host 0 [] false (mock_request (SendIntercept 0))
    = Some (st', Normal)
    /\ statusCode (res st') = VStr "200"
    /\ trace st' = [EvRandom; EvSerialize (VStr "200") (Some people);
                    EvWrite (VStr "200") (Some people)].
Proof.
  destruct (C8_generated_mock default_options people_api host 0 [] false
              (mock_request (SendIntercept 0)) get_people {[ "x-mock" := VStr "" ]}
              people_decision (VNum 2) people_200 {| random := (people, None, None) |} people)
    as (Hrun & _ & _ & _ & Hsend);
    [reflexivity | reflexivity | reflexivity | reflexivity | reflexivity | reflexivity
    | reflexivity | reflexivity | reflexivity |].
  destruct (Hsend 0 0) as (st' & Hst' & Hstatus & Htrace);
    [reflexivity | reflexivity | reflexivity |].
  exists st'. split; [rewrite Hrun, Hst'; reflexivity|]. split; [exact Hstatus | exact Htrace].
Defined.

(** ** The request object of the host *)

(** Reading and writing the object that follows the prefix [H] of the heap. *)
Lemma req_get_tail (H : list obj) c L st key :
  heap st = H ++ c :: L -> req_get st (length H) key = get_prop c key.
Proof. intros E. unfold req_get. rewrite E, list_lookup_middle by reflexivity. reflexivity. Qed.

Lemma req_set_tail (H : list obj) c L st key v :
  heap st = H ++ c :: L ->
  req_set (length H) key v st = set_heap (H ++ <[key := v]> c :: L) st.
Proof.
  intros E. unfold req_set. rewrite E, list_lookup_middle by reflexivity.
  f_equal. rewrite insert_app_r_alt by lia. by rewrite Nat.sub_diag.
Qed.

Lemma own_props_app (H L : list obj) v :
  (forall l, v = VRef l -> l < length H) -> own_props (H ++ L) v = own_props H v.
Proof.
  intros Hv. unfold own_props, props. destruct v; try reflexivity.
  rewrite lookup_app_l by (by apply Hv). reflexivity.
Qed.

Lemma own_props_tail (H L : list obj) i m :
  L !! i = Some m -> own_props (H ++ L) (VRef (length H + i)) = m.
Proof.
  intros E. unfold own_props, props.
  rewrite lookup_app_r by lia.
  replace (length H + i - length H) with i by lia. by rewrite E.
Qed.

Lemma merge_key_tail (H : list obj) c L st key parsed :
  heap st = H ++ c :: L ->
  merge_key (length H) key parsed st
  = set_heap (H ++ <[key := VRef (length H + S (length L))]> c
                :: (L ++ [default ∅ parsed ∪ own_props (H ++ c :: L) (get_prop c key)])) st.
Proof.
  intros E. unfold merge_key, alloc.
  rewrite (req_get_tail H c L st key E).
  erewrite req_set_tail.
  2:{ simpl. rewrite E. rewrite <- app_assoc. simpl. reflexivity. }
  simpl. rewrite E. unfold set_heap. simpl.
  rewrite length_app. reflexivity.
Qed.

Lemma alloc_tail (H : list obj) L st m :
  heap st = H ++ L ->
  alloc m st = (length H + length L, set_heap (H ++ (L ++ [m])) st).
Proof.
  intros E. unfold alloc. rewrite E, length_app, <- app_assoc. reflexivity.
Qed.

(** The heap after [attach_request], object by object. *)
Lemma attach_request_heap opts (H : list obj) c st request :
  heap st = H ++ [c] ->
  let n := length H in
  let params := default ∅ (pr_path request) in
  let c1 := <["params" := VRef (n + 1)]>
              (<[reqOperationProperty opts := VOperation (pr_operation request)]> c) in
  let cookies := default ∅ (pr_cookies request) ∪ own_props (H ++ [c1; params]) (get_prop c1 "cookies") in
  let c2 := <["cookies" := VRef (n + 2)]> c1 in
  let headers := default ∅ (pr_headers request)
                 ∪ own_props (H ++ [c2; params; cookies]) (get_prop c2 "headers") in
  let c3 := <["headers" := VRef (n + 3)]> c2 in
  let params' := default ∅ (pr_params request)
                 ∪ own_props (H ++ [c3; params; cookies; headers]) (get_prop c3 "params") in
  let c4 := <["params" := VRef (n + 4)]> c3 in
  let query := default ∅ (pr_query request)
               ∪ own_props (H ++ [c4; params; cookies; headers; params']) (get_prop c4 "query") in
  let c5 := <["query" := VRef (n + 5)]> c4 in
  let c6 := match pr_body request with Some b => <["body" := b]> c5 | None => c5 end in
  attach_request opts n request st
  = set_heap (H ++ [c6; params; cookies; headers; params'; query]) st.
Proof.
  intros E. cbv zeta. unfold attach_request.
  rewrite (req_set_tail H c [] st _ _ E).
  erewrite (alloc_tail H [_]); [|reflexivity]. simpl.
  erewrite (req_set_tail H _ [_]); [|reflexivity]. simpl.
  erewrite (merge_key_tail H _ [_] _ "cookies"); [|reflexivity]. simpl.
  erewrite (merge_key_tail H _ [_; _] _ "headers"); [|reflexivity]. simpl.
  erewrite (merge_key_tail H _ [_; _; _] _ "params"); [|reflexivity]. simpl.
  erewrite (merge_key_tail H _ [_; _; _; _] _ "query"); [|reflexivity]. simpl.
  unfold option_set. destruct (pr_body request) as [b|].
  - erewrite (req_set_tail H _ [_; _; _; _; _]); [|reflexivity]. reflexivity.
  - reflexivity.
Qed.

Lemma own_props_at (H L : list obj) c key i m :
  get_prop c key = VRef (length H + i) -> L !! i = Some m ->
  own_props (H ++ L) (get_prop c key) = m.
Proof. intros -> E. by apply own_props_tail. Qed.

Lemma middleware_valid_run opts isNaN_string api store req st ro request :
  requestObj isNaN_string st req = Some ro ->
  oa_request api ro = inl request ->
  middleware opts isNaN_string (Resolved api) store req st
  = run opts api (length store) true (length (heap st)) host None
      (attach_request opts (length (heap st)) request
         (set_middlewares store
            (req_set (length (heap st)) (reqOpenApiProperty opts) VOpenApi
               (res_set_send (SendIntercept (length (heap st))) (copied req st))))).
Proof.
  intros Hro Hreq. unfold middleware, middleware_then. simpl.
  change (debug "request" "validating and parsing" _) with (copied req st).
  rewrite (requestObj_copied _ _ _ _ Hro), Hreq.
  unfold middlewareRunner. cbv beta iota zeta. fold host.
  destruct (run _ _ _ _ _ _ _ _); reflexivity.
Qed.

Ltac through_inserts :=
  unfold get_prop;
  repeat first
    [ rewrite lookup_insert_eq
    | rewrite lookup_insert_ne by (first [discriminate | congruence]) ].

Lemma valid_request_attached opts isNaN_string api store req st ro request :
  requestObj isNaN_string st req = Some ro ->
  oa_request api ro = inl request ->
  reqOpenApiProperty opts <> reqOperationProperty opts ->
  Forall (fun key => reqOpenApiProperty opts <> key /\ reqOperationProperty opts <> key)
    parameter_keys ->
  Forall (fun key => forall l, req_get st req key = VRef l -> l < length (heap st))
    ["cookies"; "headers"; "query"] ->
  let copy := length (heap st) in
  exists st2 st',
    middleware opts isNaN_string (Resolved api) store req st = Some st'
    /\ run opts api (length store) true copy host None st2 = Some st'
    /\ copy <> req
    /\ middlewares st2 = store
    /\ req_get st2 copy (reqOpenApiProperty opts) = VOpenApi
    /\ req_get st2 copy (reqOperationProperty opts) = VOperation (pr_operation request)
    /\ own_props (heap st2) (req_get st2 copy "params")
       = default ∅ (pr_params request) ∪ default ∅ (pr_path request)
    /\ own_props (heap st2) (req_get st2 copy "cookies")
       = default ∅ (pr_cookies request) ∪ own_props (heap st) (req_get st req "cookies")
    /\ own_props (heap st2) (req_get st2 copy "headers")
       = default ∅ (pr_headers request) ∪ own_props (heap st) (req_get st req "headers")
    /\ own_props (heap st2) (req_get st2 copy "query")
       = default ∅ (pr_query request) ∪ own_props (heap st) (req_get st req "query")
    /\ (forall b, pr_body request = Some b -> req_get st2 copy "body" = b)
    /\ (forall key,
          key <> reqOpenApiProperty opts -> key <> reqOperationProperty opts ->
          Forall (fun k => k <> key) parameter_keys ->
          req_get st2 copy key = req_get st req key)
    /\ (forall l, l < length (heap st) -> heap st2 !! l = heap st !! l)
    /\ (forall l, l < length (heap st) -> heap st' !! l = heap st !! l).
Proof.
  intros Hro Hreq Hne Hkeys Hvalid copy.
  destruct (middleware_frame opts isNaN_string (Resolved api) store req st)
    as (st' & Hmw & _ & Hframe).
  pose proof (middleware_valid_run opts isNaN_string api store req st ro request Hro Hreq) as Hrun.
  rewrite Hmw in Hrun. fold copy in Hrun.
  (* the request object *)
  assert (Hm : exists m, heap st !! req = Some m) .
  { unfold requestObj, request_path, req_get in Hro.
    destruct (heap st !! req) as [m|]; [eauto | discriminate]. }
  destruct Hm as [m Hm].
  assert (Hget : forall key, req_get st req key = get_prop m key).
  { intros key. unfold req_get. by rewrite Hm. }
  (* the heap when the runner is created *)
  set (c := <[reqOpenApiProperty opts := VOpenApi]> m).
  set (st1 := set_middlewares store
                (req_set copy (reqOpenApiProperty opts) VOpenApi
                   (res_set_send (SendIntercept copy) (copied req st)))) in *.
  assert (Hheap1 : heap st1 = heap st ++ [c]).
  { unfold st1. simpl.
    erewrite (req_set_tail (heap st) m []).
    - reflexivity.
    - unfold copied, own_props, props. simpl. by rewrite Hm. }
  pose proof (attach_request_heap opts (heap st) c st1 request Hheap1) as Hattach.
  cbv zeta in Hattach. fold copy in Hattach.
  set (st2 := attach_request opts copy request st1) in *.
  clearbody st2.
  apply (f_equal heap) in Hattach as Hheap2. simpl in Hheap2.
  assert (Hq2 : middlewares st2 = store) by (rewrite Hattach; reflexivity).
  clear Hattach.
  apply Forall_cons in Hvalid as [Hv1 Hvalid].
  apply Forall_cons in Hvalid as [Hv2 Hvalid].
  apply Forall_cons in Hvalid as [Hv3 _].
  unfold parameter_keys in Hkeys.
  apply Forall_cons in Hkeys as [[Ha1 Hb1] Hkeys].
  apply Forall_cons in Hkeys as [[Ha2 Hb2] Hkeys].
  apply Forall_cons in Hkeys as [[Ha3 Hb3] Hkeys].
  apply Forall_cons in Hkeys as [[Ha4 Hb4] Hkeys].
  apply Forall_cons in Hkeys as [[Ha5 Hb5] _].
  exists st2, st'.
  split; [exact Hmw|]. split; [by rewrite Hrun|].
  split; [apply lookup_lt_Some in Hm; unfold copy; lia|].
  split; [exact Hq2|].
  unfold copy. rewrite !(req_get_tail (heap st) _ _ st2 _ Hheap2). rewrite Hheap2.
  fold copy.
  repeat split.
  - destruct (pr_body request); unfold c; through_inserts; reflexivity.
  - destruct (pr_body request); unfold c; through_inserts; reflexivity.
  - erewrite (own_props_at (heap st) [_; _; _; _; _; _] _ "params" 4);
      [ | destruct (pr_body request); through_inserts; reflexivity | reflexivity ].
    f_equal.
    erewrite (own_props_at (heap st) [_; _; _; _] _ "params" 1);
      [ reflexivity | through_inserts; reflexivity | reflexivity ].
  - erewrite (own_props_at (heap st) [_; _; _; _; _; _] _ "cookies" 2);
      [ | destruct (pr_body request); through_inserts; reflexivity | reflexivity ].
    f_equal. rewrite (Hget "cookies").
    replace (get_prop _ "cookies") with (get_prop m "cookies")
      by (unfold c; through_inserts; reflexivity).
    apply own_props_app. intros l Hl. apply Hv1. by rewrite Hget.
  - erewrite (own_props_at (heap st) [_; _; _; _; _; _] _ "headers" 3);
      [ | destruct (pr_body request); through_inserts; reflexivity | reflexivity ].
    f_equal. rewrite (Hget "headers").
    replace (get_prop _ "headers") with (get_prop m "headers")
      by (unfold c; through_inserts; reflexivity).
    apply own_props_app. intros l Hl. apply Hv2. by rewrite Hget.
  - erewrite (own_props_at (heap st) [_; _; _; _; _; _] _ "query" 5);
      [ | destruct (pr_body request); through_inserts; reflexivity | reflexivity ].
    f_equal. rewrite (Hget "query").
    replace (get_prop _ "query") with (get_prop m "query")
      by (unfold c; through_inserts; reflexivity).
    apply own_props_app. intros l Hl. apply Hv3. by rewrite Hget.
  - intros b Hb. rewrite Hb. through_inserts. reflexivity.
  - intros key Hk1 Hk2 Hk. unfold parameter_keys in Hk.
    apply Forall_cons in Hk as [Hp1 Hk].
    apply Forall_cons in Hk as [Hp2 Hk].
    apply Forall_cons in Hk as [Hp3 Hk].
    apply Forall_cons in Hk as [Hp4 Hk].
    apply Forall_cons in Hk as [Hp5 _].
    unfold copy. rewrite (req_get_tail (heap st) _ _ st2 key Hheap2), Hget.
    destruct (pr_body request); unfold c; through_inserts; reflexivity.
  - intros l Hl. apply lookup_app_l. exact Hl.
  - exact Hframe.
Qed.

Lemma middleware_invalid_run opts isNaN_string api store req st ro clientError operation :
  requestObj isNaN_string st req = Some ro ->
  oa_request api ro = inr clientError ->
  exc_statusCode clientError <> Some 404%Z ->
  oa_path api (ro_method ro) (ro_path ro) = Some operation ->
  middleware opts isNaN_string (Resolved api) store req st
  = run opts api (length store) true (length (heap st)) host
      (Some (errorFromException clientError))
      (req_set (length (heap st)) (reqOperationProperty opts) (VOperation operation)
         (set_middlewares store
            (req_set (length (heap st)) (reqOpenApiProperty opts) VOpenApi
               (res_set_send (SendIntercept (length (heap st))) (copied req st))))).
Proof.
  intros Hro Hreq H404 Hpath. unfold middleware, middleware_then. simpl.
  change (debug "request" "validating and parsing" _) with (copied req st).
  rewrite (requestObj_copied _ _ _ _ Hro), Hreq.
  rewrite bool_decide_eq_false_2 by exact H404.
  unfold middlewareRunner. cbv beta iota zeta. rewrite Hpath. fold host.
  destruct (run _ _ _ _ _ _ _ _); reflexivity.
Qed.

Lemma invalid_request_attached opts isNaN_string api store req st ro clientError operation :
  requestObj isNaN_string st req = Some ro ->
  oa_request api ro = inr clientError ->
  exc_statusCode clientError <> Some 404%Z ->
  oa_path api (ro_method ro) (ro_path ro) = Some operation ->
  reqOpenApiProperty opts <> reqOperationProperty opts ->
  let copy := length (heap st) in
  exists st2 st',
    middleware opts isNaN_string (Resolved api) store req st = Some st'
    /\ run opts api (length store) true copy host
         (Some (errorFromException clientError)) st2 = Some st'
    /\ copy <> req
    /\ middlewares st2 = store
    /\ req_get st2 copy (reqOpenApiProperty opts) = VOpenApi
    /\ req_get st2 copy (reqOperationProperty opts) = VOperation operation
    /\ (forall key,
          key <> reqOpenApiProperty opts -> key <> reqOperationProperty opts ->
          req_get st2 copy key = req_get st req key)
    /\ (forall l, l < length (heap st) -> heap st2 !! l = heap st !! l).
Proof.
  intros Hro Hreq H404 Hpath Hne copy.
  destruct (middleware_frame opts isNaN_string (Resolved api) store req st)
    as (st' & Hmw & _ & Hframe).
  pose proof (middleware_invalid_run opts isNaN_string api store req st ro clientError
                operation Hro Hreq H404 Hpath) as Hrun.
  rewrite Hmw in Hrun. fold copy in Hrun.
  assert (Hm : exists m, heap st !! req = Some m).
  { unfold requestObj, request_path, req_get in Hro.
    destruct (heap st !! req) as [m|]; [eauto | discriminate]. }
  destruct Hm as [m Hm].
  assert (Hget : forall key, req_get st req key = get_prop m key).
  { intros key. unfold req_get. by rewrite Hm. }
  set (c := <[reqOpenApiProperty opts := VOpenApi]> m).
  set (st1 := set_middlewares store
                (req_set copy (reqOpenApiProperty opts) VOpenApi
                   (res_set_send (SendIntercept copy) (copied req st)))) in *.
  assert (Hheap1 : heap st1 = heap st ++ [c]).
  { unfold st1. simpl.
    erewrite (req_set_tail (heap st) m []).
    - reflexivity.
    - unfold copied, own_props, props. simpl. by rewrite Hm. }
  pose proof (req_set_tail (heap st) c [] st1 (reqOperationProperty opts)
                (VOperation operation) Hheap1) as Hst2.
  fold copy in Hst2.
  set (st2 := req_set copy (reqOperationProperty opts) (VOperation operation) st1) in *.
  clearbody st2.
  apply (f_equal heap) in Hst2 as Hheap2. simpl in Hheap2.
  assert (Hq2 : middlewares st2 = store) by (rewrite Hst2; reflexivity).
  clear Hst2.
  exists st2, st'.
  split; [exact Hmw|]. split; [by rewrite Hrun|].
  split; [apply lookup_lt_Some in Hm; unfold copy; lia|].
  split; [exact Hq2|].
  unfold copy. rewrite !(req_get_tail (heap st) _ _ st2 _ Hheap2). rewrite Hheap2.
  repeat split.
  - unfold c. through_inserts. reflexivity.
  - through_inserts. reflexivity.
  - intros key Hk1 Hk2. rewrite (req_get_tail (heap st) _ _ st2 key Hheap2), Hget.
    unfold c. through_inserts. reflexivity.
  - intros l Hl. apply lookup_app_l. exact Hl.
Qed.

(** C10. For a request that matches an operation, the chain is run on a
    copy of the request object (a new object, [copy]). For a valid request
    the copy holds the catalog, the operation, the path parameters merged
    with [request.params], the cookies, headers and query of the request
    merged with the deserialized ones (each in a new object) and the
    deserialized body; for an invalid one it holds the catalog and the
    operation; its other properties are those of the request of the host.
    Every object that existed before the call, the request object of the
    host and the objects it refers to among them, is unchanged when the
    chain starts and when the middleware returns, whatever the handlers of
    the chain do with the request they are given. *)
Theorem C10_request_copy opts isNaN_string api store req st ro :
  requestObj isNaN_string st req = Some ro ->
  reqOpenApiProperty opts <> reqOperationProperty opts ->
  Forall (fun key => reqOpenApiProperty opts <> key /\ reqOperationProperty opts <> key)
    parameter_keys ->
  Forall (fun key => forall l, req_get st req key = VRef l -> l < length (heap st))
    ["cookies"; "headers"; "query"] ->
  let copy := length (heap st) in
  (exists st',
     middleware opts isNaN_string (Resolved api) store req st = Some st'
     /\ (forall l, l < length (heap st) -> heap st' !! l = heap st !! l))
  /\ (forall request,
        oa_request api ro = inl request ->
        exists st2 st',
          middleware opts isNaN_string (Resolved api) store req st = Some st'
          /\ run opts api (length store) true copy host None st2 = Some st'
          /\ copy <> req
          /\ middlewares st2 = store
          /\ req_get st2 copy (reqOpenApiProperty opts) = VOpenApi
          /\ req_get st2 copy (reqOperationProperty opts) = VOperation (pr_operation request)
          /\ own_props (heap st2) (req_get st2 copy "params")
             = default ∅ (pr_params request) ∪ default ∅ (pr_path request)
          /\ own_props (heap st2) (req_get st2 copy "cookies")
             = default ∅ (pr_cookies request) ∪ own_props (heap st) (req_get st req "cookies")
          /\ own_props (heap st2) (req_get st2 copy "headers")
             = default ∅ (pr_headers request) ∪ own_props (heap st) (req_get st req "headers")
          /\ own_props (heap st2) (req_get st2 copy "query")
             = default ∅ (pr_query request) ∪ own_props (heap st) (req_get st req "query")
          /\ (forall b, pr_body request = Some b -> req_get st2 copy "body" = b)
          /\ (forall key,
                key <> reqOpenApiProperty opts -> key <> reqOperationProperty opts ->
                Forall (fun k => k <> key) parameter_keys ->
                req_get st2 copy key = req_get st req key)
          /\ (forall l, l < length (heap st) -> heap st2 !! l = heap st !! l)
          /\ (forall l, l < length (heap st) -> heap st' !! l = heap st !! l))
  /\ (forall clientError operation,
        oa_request api ro = inr clientError ->
        exc_statusCode clientError <> Some 404%Z ->
        oa_path api (ro_method ro) (ro_path ro) = Some operation ->
        exists st2 st',
          middleware opts isNaN_string (Resolved api) store req st = Some st'
          /\ run opts api (length store) true copy host
               (Some (errorFromException clientError)) st2 = Some st'
          /\ copy <> req
          /\ middlewares st2 = store
          /\ req_get st2 copy (reqOpenApiProperty opts) = VOpenApi
          /\ req_get st2 copy (reqOperationProperty opts) = VOperation operation
          /\ (forall key,
                key <> reqOpenApiProperty opts -> key <> reqOperationProperty opts ->
                req_get st2 copy key = req_get st req key)
          /\ (forall l, l < length (heap st) -> heap st2 !! l = heap st !! l)).
Proof.
  intros Hro Hne Hkeys Hvalid copy. split; [|split].
  - destruct (middleware_frame opts isNaN_string (Resolved api) store req st)
      as (st' & Hmw & _ & Hframe).
    exists st'. auto.
  - intros request Hreq.
    apply (valid_request_attached opts isNaN_string api store req st ro request);
      assumption.
  - intros clientError operation Hreq H404 Hpath.
    apply (invalid_request_attached opts isNaN_string api store req st ro clientError
             operation); assumption.
Qed.

Lemma C10_request_copy_witness :
  exists st',
    middleware default_options digits_only (Resolved people_api) [h2] 0
      (incoming "/people" ∅ {[ "page" := VStr "2" ]}) = Some st'
    /\ (forall l, l < 3 ->
        heap st' !! l = heap (incoming "/people" ∅ {[ "page" := VStr "2" ]}) !! l).
Proof.
  destruct (C10_request_copy default_options digits_only people_api [h2] 0
              (incoming "/people" ∅ {[ "page" := VStr "2" ]})
              {| ro_headers := VRef 1; ro_method := VStr "GET"; ro_path := "/people";
                 ro_body := None |})
    as (Hframe & _ & _).
  - reflexivity.
  - discriminate.
  - repeat constructor; discriminate.
  - repeat (apply List.Forall_cons;
            [intros l Hl; vm_compute in Hl; inversion Hl; simpl; lia|]).
    apply List.Forall_nil.
  - exact Hframe.
Defined.

(** ** One serialization per request *)

(** The state in which the chain of a valid request starts. *)
Lemma valid_request_start opts isNaN_string api store req st ro request :
  requestObj isNaN_string st req = Some ro ->
  oa_request api ro = inl request ->
  reqOpenApiProperty opts <> reqOperationProperty opts ->
  Forall (fun key => reqOpenApiProperty opts <> key /\ reqOperationProperty opts <> key)
    parameter_keys ->
  let copy := length (heap st) in
  exists st2,
    middleware opts isNaN_string (Resolved api) store req st
    = run opts api (length store) true copy host None (set_middlewares store st2)
    /\ res st2 = mkResponse (statusCode (res st)) (res_headers (res st)) (SendIntercept copy)
    /\ trace st2 = trace st ++ [EvDebug "request" "validating and parsing"]
    /\ req_get st2 copy (reqOpenApiProperty opts) = VOpenApi
    /\ req_get st2 copy (reqOperationProperty opts) = VOperation (pr_operation request)
    /\ is_Some (accepts st2 copy).
Proof.
  intros Hro Hreq Hne Hkeys copy.
  pose proof (middleware_valid_run opts isNaN_string api store req st ro request Hro Hreq) as Hrun.
  fold copy in Hrun.
  assert (Hm : exists m, heap st !! req = Some m) .
  { unfold requestObj, request_path, req_get in Hro.
    destruct (heap st !! req) as [m|]; [eauto | discriminate]. }
  destruct Hm as [m Hm].
  set (c := <[reqOpenApiProperty opts := VOpenApi]> m).
  set (st1 := set_middlewares store
                (req_set copy (reqOpenApiProperty opts) VOpenApi
                   (res_set_send (SendIntercept copy) (copied req st)))) in *.
  assert (Hst1 : st1 = mkState (heap st ++ [c])
                         (mkResponse (statusCode (res st)) (res_headers (res st))
                            (SendIntercept copy))
                         store (trace st ++ [EvDebug "request" "validating and parsing"])).
  { unfold st1.
    erewrite (req_set_tail (heap st) m []).
    - reflexivity.
    - unfold copied, own_props, props. simpl. by rewrite Hm. }
  assert (Hheap1 : heap st1 = heap st ++ [c]) by (by rewrite Hst1).
  pose proof (attach_request_heap opts (heap st) c st1 request Hheap1) as Hattach.
  cbv zeta in Hattach. fold copy in Hattach.
  set (st2 := attach_request opts copy request st1) in *.
  clearbody st2.
  apply (f_equal heap) in Hattach as Hheap2. simpl in Hheap2.
  unfold parameter_keys in Hkeys.
  apply Forall_cons in Hkeys as [[Ha1 Hb1] Hkeys].
  apply Forall_cons in Hkeys as [[Ha2 Hb2] Hkeys].
  apply Forall_cons in Hkeys as [[Ha3 Hb3] Hkeys].
  apply Forall_cons in Hkeys as [[Ha4 Hb4] Hkeys].
  apply Forall_cons in Hkeys as [[Ha5 Hb5] _].
  exists st2.
  split; [rewrite Hrun; f_equal; rewrite Hattach, Hst1; reflexivity|].
  split; [rewrite Hattach, Hst1; reflexivity|].
  split; [rewrite Hattach, Hst1; reflexivity|].
  unfold copy. rewrite !(req_get_tail (heap st) _ _ st2 _ Hheap2).
  split; [destruct (pr_body request); unfold c; through_inserts; reflexivity|].
  split; [destruct (pr_body request); unfold c; through_inserts; reflexivity|].
  unfold accepts. rewrite (req_get_tail (heap st) _ _ st2 _ Hheap2).
  replace (get_prop _ "headers") with (VRef (length (heap st) + 3))
    by (destruct (pr_body request); through_inserts; reflexivity).
  unfold props. rewrite Hheap2, lookup_app_r by lia.
  replace (length (heap st) + 3 - length (heap st)) with 3 by lia. simpl. eauto.
Qed.

(** A handler of a valid request that calls [res.send] twice, when the
    interception gets as far as [operation.response]. *)
Lemma first_send_only opts isNaN_string api req st ro request arity body1 body2 rest :
  requestObj isNaN_string st req = Some ro ->
  oa_request api ro = inl request ->
  reqOpenApiProperty opts <> reqOperationProperty opts ->
  Forall (fun key => reqOpenApiProperty opts <> key /\ reqOperationProperty opts <> key)
    parameter_keys ->
  arity < 4 ->
  derives api st = false ->
  let code := js_or (statusCode (res st)) (VNum 200) in
  let handler := UserFn arity (fun _ => Send body1 (Send body2 Return)) in
  exists st',
    middleware opts isNaN_string (Resolved api) (handler :: rest) req st = Some st'
    /\ send (res st') = SendOriginal
    /\ middlewares st' = rest
    /\ trace st'
       = trace st ++ EvDebug "request" "validating and parsing" :: EvSerialize code body1 ::
           match op_response (oa_operation api (pr_operation request)) code body1
                   (delete ENFORCER_HEADER (res_headers (res st))) with
           | inl response =>
               [EvWrite (statusCode (res st)) (sr_body response);
                EvWrite (statusCode (res st)) body2]
           | inr exception =>
               [EvHostNext (Some (errorFromException exception));
                EvWrite (VNum 500) body2]
           end.
Proof.
  intros Hro Hreq Hne Hkeys Harity Hd code handler.
  destruct (valid_request_start opts isNaN_string api (handler :: rest) req st ro request
              Hro Hreq Hne Hkeys) as (st2 & Hmw & Hres & Htr & Hoa & Hop & _).
  rewrite Hmw. clear Hmw.
  set (copy := length (heap st)) in *.
  change (length (handler :: rest)) with (S (length rest)).
  rewrite run_step. cbv zeta.
  assert (Hk : isErrorHandling handler = false).
  { unfold isErrorHandling, handler. simpl fn_length. apply Nat.leb_gt. lia. }
  rewrite Hk.
  change (bool_decide (is_Some (@None error))) with false.
  cbv beta iota delta [andb orb negb].
  set (st3 := set_middlewares rest (clear_header true st2)).
  assert (Hres3 : res st3 = mkResponse (statusCode (res st))
                              (delete ENFORCER_HEADER (res_headers (res st)))
                              (SendIntercept copy)).
  { unfold st3. simpl. rewrite Hres. reflexivity. }
  assert (Hsend3 : send (res st3) = SendIntercept copy) by (by rewrite Hres3).
  assert (Hoa3 : req_get st3 copy (reqOpenApiProperty opts) = VOpenApi) by exact Hoa.
  assert (Hop3 : req_get st3 copy (reqOperationProperty opts)
                 = VOperation (pr_operation request)) by exact Hop.
  assert (Hreach : reaches_response api copy (pr_operation request) st3 = true).
  { unfold reaches_response. replace (derives api st3) with (derives api st); [by rewrite Hd|].
    unfold derives. rewrite Hres3. simpl.
    rewrite lookup_delete_ne by discriminate. reflexivity. }
  assert (Hcode : js_or (statusCode (res st3)) (VNum 200) = code) by (by rewrite Hres3).
  assert (Hhs : res_headers (res st3) = delete ENFORCER_HEADER (res_headers (res st)))
    by (by rewrite Hres3).
  assert (Htr3 : trace st3 = trace st ++ [EvDebug "request" "validating and parsing"])
    by exact Htr.
  assert (Hq3 : middlewares st3 = rest) by reflexivity.
  clearbody st3.
  unfold invoke, handler. cbn [exec].
  destruct (op_response _ _ _ _) as [response|exception] eqn:Hresp.
  - destruct (res_send_serializes opts api copy body1 st3 (pr_operation request) response
                Hsend3 Hoa3 Hop3 Hreach) as (st4 & Hrun & Hs4 & Hc4 & _ & Hq4 & Ht4).
    { by rewrite Hcode, Hhs. }
    rewrite Hrun. unfold res_send. rewrite Hs4. simpl.
    eexists. split; [reflexivity|]. simpl.
    rewrite Hs4, Hq4, Hq3, Ht4, Hc4, Htr3, Hcode, Hres3. simpl.
    split; [reflexivity|]. split; [reflexivity|].
    rewrite <- !app_assoc. reflexivity.
  - destruct (res_send_rejects opts api copy body1 st3 (pr_operation request) exception
                Hsend3 Hoa3 Hop3 Hreach) as (st4 & Hrun & Hr4 & _ & Hq4 & Ht4).
    { by rewrite Hcode, Hhs. }
    rewrite Hrun. unfold res_send. rewrite Hr4. simpl.
    eexists. split; [reflexivity|]. simpl.
    rewrite Hr4, Hq4, Hq3, Ht4, Htr3, Hcode. simpl.
    split; [reflexivity|]. split; [reflexivity|].
    rewrite <- !app_assoc. reflexivity.
Qed.

(** A handler of a valid request that calls [res.send] when the test of
    line 168 holds and the operation matches content types. *)
Lemma first_send_throws opts isNaN_string api req st ro request arity body k :
  requestObj isNaN_string st req = Some ro ->
  oa_request api ro = inl request ->
  reqOpenApiProperty opts <> reqOperationProperty opts ->
  Forall (fun key => reqOpenApiProperty opts <> key /\ reqOperationProperty opts <> key)
    parameter_keys ->
  arity < 4 ->
  derives api st = true ->
  let code := js_or (statusCode (res st)) (VNum 200) in
  (forall acc, is_Some (mr_value (op_getResponseContentTypeMatches
                                    (oa_operation api (pr_operation request)) code acc))) ->
  exists st',
    middleware opts isNaN_string (Resolved api) [UserFn arity (fun _ => Send body k)] req st
    = Some st'
    /\ send (res st') = SendOriginal
    /\ statusCode (res st') = statusCode (res st)
    /\ trace st'
       = trace st ++ [EvDebug "request" "validating and parsing";
                      EvHostNext (Some (TypeError "Content-Type cannot be set to an Array"))].
Proof.
  intros Hro Hreq Hne Hkeys Harity Hd code Hmatch.
  set (handler := UserFn arity (fun _ => Send body k)).
  destruct (valid_request_start opts isNaN_string api [handler] req st ro request
              Hro Hreq Hne Hkeys) as (st2 & Hmw & Hres & Htr & Hoa & Hop & [acc Hacc]).
  rewrite Hmw. clear Hmw.
  set (copy := length (heap st)) in *.
  change (length [handler]) with 1.
  rewrite run_step. cbv zeta.
  assert (Hk : isErrorHandling handler = false).
  { unfold isErrorHandling, handler. simpl fn_length. apply Nat.leb_gt. lia. }
  rewrite Hk.
  change (bool_decide (is_Some (@None error))) with false.
  cbv beta iota delta [andb orb negb].
  set (st3 := set_middlewares [] (clear_header true st2)).
  assert (Hres3 : res st3 = mkResponse (statusCode (res st))
                              (delete ENFORCER_HEADER (res_headers (res st)))
                              (SendIntercept copy)).
  { unfold st3. simpl. rewrite Hres. reflexivity. }
  assert (Hsend3 : send (res st3) = SendIntercept copy) by (by rewrite Hres3).
  assert (Hoa3 : req_get st3 copy (reqOpenApiProperty opts) = VOpenApi) by exact Hoa.
  assert (Hop3 : req_get st3 copy (reqOperationProperty opts)
                 = VOperation (pr_operation request)) by exact Hop.
  assert (Hacc3 : accepts st3 copy = Some acc) by exact Hacc.
  assert (Hd3 : derives api st3 = true).
  { rewrite <- Hd. unfold derives. rewrite Hres3. simpl.
    rewrite lookup_delete_ne by discriminate. reflexivity. }
  assert (Hcode : js_or (statusCode (res st3)) (VNum 200) = code) by (by rewrite Hres3).
  assert (Htr3 : trace st3 = trace st ++ [EvDebug "request" "validating and parsing"])
    by exact Htr.
  assert (Hq3 : middlewares st3 = []) by reflexivity.
  clearbody st3.
  destruct (Hmatch acc) as [types Htypes].
  unfold invoke, handler. cbn [exec]. unfold res_send. rewrite Hsend3.
  rewrite (intercept_throws opts api copy body st3 (pr_operation request) acc types
             Hoa3 Hop3 Hacc3 Hd3); [|by rewrite Hcode].
  cbn [catch_next]. destruct st3 as [h3 r3 q3 t3]. simpl in *. subst q3 r3 t3.
  eexists. split; [reflexivity|]. simpl. rewrite <- app_assoc. auto.
Qed.

(** C4. [operation.response] is called at most once per request, whatever
    the chain does, and a call of [res.send] under the interception puts the
    framework's send back before anything else, whatever the outcome; with
    the framework's send in place a call writes the body as it is. For a
    valid request whose document has the [swagger] property, or whose
    response has a [content-type] already, a handler that calls [res.send]
    twice has the first body handed to [operation.response] (with the status
    code and the headers of the response) and, when it is accepted, written
    in its serialized form; the second body is written as it is.

    The claim fails for a document without the [swagger] property when the
    response has no [content-type] and the operation matches content types:
    line 169 takes the array of matches for a content type, [res.set]
    raises a [TypeError], and the first call of [res.send] validates and
    writes nothing; the error enters the error path of the chain. *)
Theorem C4_serialize_once opts api isNaN_string :
  (forall promise store req st,
     exists st', middleware opts isNaN_string promise store req st = Some st'
                 /\ serializations (trace st') <= serializations (trace st) + 1)
  /\ (forall rq body st,
        send (res st) = SendIntercept rq ->
        res_send opts api body st = intercept opts api rq body (res_set_send SendOriginal st)
        /\ send (res (res_send opts api body st).1) = SendOriginal)
  /\ (forall body st,
        send (res st) = SendOriginal ->
        res_send opts api body st = (emit (EvWrite (statusCode (res st)) body) st, Normal))
  /\ (forall req st ro request arity body1 body2 rest,
        requestObj isNaN_string st req = Some ro ->
        oa_request api ro = inl request ->
        reqOpenApiProperty opts <> reqOperationProperty opts ->
        Forall (fun key => reqOpenApiProperty opts <> key /\ reqOperationProperty opts <> key)
          parameter_keys ->
        arity < 4 ->
        derives api st = false ->
        let code := js_or (statusCode (res st)) (VNum 200) in
        exists st',
          middleware opts isNaN_string (Resolved api)
            (UserFn arity (fun _ => Send body1 (Send body2 Return)) :: rest) req st = Some st'
          /\ send (res st') = SendOriginal
          /\ middlewares st' = rest
          /\ trace st'
             = trace st ++ EvDebug "request" "validating and parsing" :: EvSerialize code body1 ::
                 match op_response (oa_operation api (pr_operation request)) code body1
                         (delete ENFORCER_HEADER (res_headers (res st))) with
                 | inl response =>
                     [EvWrite (statusCode (res st)) (sr_body response);
                      EvWrite (statusCode (res st)) body2]
                 | inr exception =>
                     [EvHostNext (Some (errorFromException exception));
                      EvWrite (VNum 500) body2]
                 end)
  /\ (forall req st ro request arity body k,
        requestObj isNaN_string st req = Some ro ->
        oa_request api ro = inl request ->
        reqOpenApiProperty opts <> reqOperationProperty opts ->
        Forall (fun key => reqOpenApiProperty opts <> key /\ reqOperationProperty opts <> key)
          parameter_keys ->
        arity < 4 ->
        derives api st = true ->
        (forall acc,
           is_Some (mr_value (op_getResponseContentTypeMatches
                                (oa_operation api (pr_operation request))
                                (js_or (statusCode (res st)) (VNum 200)) acc))) ->
        exists st',
          middleware opts isNaN_string (Resolved api)
            [UserFn arity (fun _ => Send body k)] req st = Some st'
          /\ send (res st') = SendOriginal
          /\ statusCode (res st') = statusCode (res st)
          /\ trace st'
             = trace st ++ [EvDebug "request" "validating and parsing";
                            EvHostNext (Some (TypeError "Content-Type cannot be set to an Array"))])
  /\ (exists st',
        middleware default_options digits_only (Resolved people_api) [sends_twice; on_error] 0
          (incoming "/people" ∅ ∅) = Some st'
        /\ trace st' = [EvDebug "request" "validating and parsing";
                        EvSerialize (VNum 200) (Some people);
                        EvWrite (VNum 200) (Some people);
                        EvWrite (VNum 200) (Some (DStr "raw"))])
  /\ (exists st',
        middleware default_options digits_only (Resolved json_api) [sends_twice; on_error] 0
          (incoming "/people" ∅ ∅) = Some st'
        /\ trace st' = [EvDebug "request" "validating and parsing";
                        EvLog 9;
                        EvHostNext (Some (TypeError "Content-Type cannot be set to an Array"))]).
Proof.
  split; [|split; [|split; [|split; [|split; [|split]]]]].
  - intros promise store req st.
    destruct (middleware_frame opts isNaN_string promise store req st) as (st' & H1 & H2 & _).
    exists st'. auto.
  - intros rq body st Hsend. unfold res_send. rewrite Hsend. split; [reflexivity|].
    apply (intercept_shape opts api rq body st).
  - intros body st Hsend. unfold res_send. rewrite Hsend. reflexivity.
  - intros req st ro request arity body1 body2 rest Hro Hreq Hne Hkeys Harity Hd.
    apply (first_send_only opts isNaN_string api req st ro request arity body1 body2 rest);
      assumption.
  - intros req st ro request arity body k Hro Hreq Hne Hkeys Harity Hd Hmatch.
    apply (first_send_throws opts isNaN_string api req st ro request arity body k);
      assumption.
  - eexists. split; vm_compute; reflexivity.
  - eexists. split; vm_compute; reflexivity.
Qed.

(** ** The controller registry *)

Section ControllersFacts.
Context {F : Type}.
Variable require : string -> cval F + error.
Variable path_resolve : string -> string -> string.
Variable apply : F -> cval F + error.

Lemma hasException_message msg e : hasException (exc_message msg e) = true.
Proof. destruct e as [h c m a n]. simpl. destruct m; reflexivity. Qed.

Lemma existsb_snoc {A} (f : A -> bool) l x : existsb f l = true -> existsb f (l ++ [x]) = true.
Proof. intros H. rewrite existsb_app, H. reflexivity. Qed.

Lemma hasException_push child e : hasException e = true -> hasException (exc_push child e) = true.
Proof.
  destruct e as [h c m a n]. simpl. intros H.
  apply orb_true_iff in H as [H|H]; [rewrite H; reflexivity|].
  rewrite (existsb_snoc _ _ _ H). apply orb_true_r.
Qed.

Lemma hasException_at key child e :
  (hasException (default (exc_new "") (assoc key (exc_ats e))) = true ->
   hasException child = true) ->
  hasException e = true -> hasException (exc_at key (fun _ => child) e) = true.
Proof.
  destruct e as [h c m a n]. simpl. intros Hchild H.
  apply orb_true_iff in H as [H|H]; [|rewrite H; apply orb_true_r].
  apply orb_true_iff in H as [H|H]; [rewrite H; reflexivity|].
  assert (Ha : existsb (fun kc : string * exception => let (_, c0) := kc in hasException c0)
                 (alist_update key (exc_new "") (fun _ => child) a) = true).
  { clear -Hchild H. induction a as [|[k v] a IH]; simpl in *; [discriminate|].
    destruct (String.eqb k key); simpl.
    - apply orb_true_iff in H as [H|H]; [rewrite (Hchild H); reflexivity|].
      rewrite H. apply orb_true_r.
    - apply orb_true_iff in H as [H|H]; [rewrite H; reflexivity|].
      rewrite (IH Hchild H). apply orb_true_r. }
  rewrite Ha. rewrite orb_true_r. reflexivity.
Qed.

Lemma exceptionPushError_mono err e :
  hasException e = true -> hasException (exceptionPushError err e) = true.
Proof.
  intros H. unfold exceptionPushError. destruct (err_stack err).
  - apply hasException_message.
  - unfold exc_nest. by apply hasException_push.
Qed.

Lemma load_from_path_mono dir controllerName operationName loaded child :
  hasException child = true ->
  hasException (load_from_path require path_resolve apply dir controllerName operationName
                  loaded child).2 = true.
Proof.
  intros H. unfold load_from_path.
  repeat case_match; simpl;
    first [ exact H | apply hasException_message | by apply exceptionPushError_mono ].
Qed.

Lemma load_from_object_mono (target : cval F) controllerName operationName child :
  hasException child = true ->
  hasException (load_from_object target controllerName operationName child).2 = true.
Proof.
  intros H. unfold load_from_object.
  repeat case_match; simpl; first [exact H | apply hasException_message].
Qed.

Lemma bind_handler_mono operation (handler : cval F) (map : list (opid * bound F)) child :
  hasException child = true ->
  hasException (bind_handler operation handler map child).2 = true.
Proof.
  intros H. unfold bind_handler.
  repeat case_match; simpl;
    first [ exact H | apply hasException_message | by apply hasException_push ].
Qed.

(** A message recorded for an operation is still there after the next ones
    have been scanned. *)
Lemma scan_method_mono opts openapi target pathItem method s :
  hasException (exception_ s) = true ->
  hasException (exception_ (scan_method require path_resolve apply opts openapi target
                              pathItem method s)) = true.
Proof.
  intros H. unfold scan_method.
  destruct (pi_operation pathItem method) as [o|]; [|exact H].
  destruct (name_or (name_or _ _) None) as [controllerName|]; [|exact H].
  destruct (name_or (name_or _ _) None) as [operationName|]; [|exact H].
  set (child := default (exc_new "") (assoc controllerName (exc_ats (exception_ s)))).
  assert (Hfinish : forall loaded handler child1,
            (hasException child = true -> hasException child1 = true) ->
            hasException
              (exception_
                 (let '(map, child2) := bind_handler (od_operation o) handler (map_ s) child1 in
                  mkScan loaded map (exc_at controllerName (fun _ => child2) (exception_ s))))
            = true).
  { intros loaded handler child1 Hload.
    pose proof (bind_handler_mono (od_operation o) handler (map_ s) child1) as Hbind.
    destruct (bind_handler _ _ _ _) as [map child2]. simpl in *.
    apply hasException_at; [|exact H]. intros Hc. apply Hbind, Hload, Hc. }
  destruct target as [ | | b | n | dir | f | items | props ]; cbv beta iota;
    try match goal with
    | |- context [load_from_object ?t ?a ?b ?c] =>
        pose proof (load_from_object_mono t a b c) as Hm;
        destruct (load_from_object t a b c) as [handler child1]; by apply Hfinish
    end.
  pose proof (load_from_path_mono dir controllerName operationName (loadedControllers s) child)
    as Hm.
  destruct (load_from_path _ _ _ _ _ _ _ _) as [[loaded handler] child1]. by apply Hfinish.
Qed.

(** X5. A message recorded during the scan is still there when it ends. *)
Lemma scan_paths_mono opts openapi target s :
  hasException (exception_ s) = true ->
  hasException (exception_ (scan_paths require path_resolve apply opts openapi target s)) = true.
Proof.
  unfold scan_paths. revert s.
  induction (oa_paths openapi) as [|kp paths IH]; intros s H; simpl; [exact H|].
  apply IH. clear IH. revert s H.
  induction (pi_methods kp.2) as [|method methods IH]; intros s H; simpl; [exact H|].
  apply IH. by apply scan_method_mono.
Qed.

Lemma map_get_set operation (v : bound F) map : map_get operation (map_set operation v map) = Some v.
Proof.
  induction map as [|[o w] map IH]; simpl.
  - by rewrite Nat.eqb_refl.
  - destruct (Nat.eqb o operation) eqn:E; simpl; rewrite E; [reflexivity | exact IH].
Qed.

(** X2. With an object as target no operation is skipped silently: it is
    bound, or a message is recorded for its controller. *)
Lemma object_target_never_silent (target : cval F) controllerName operationName child
    operation map :
  let loaded := load_from_object target controllerName operationName child in
  let bound := bind_handler operation loaded.1 map loaded.2 in
  is_Some (map_get operation bound.1) \/ hasException bound.2 = true.
Proof.
  unfold load_from_object.
  destruct (negb (cval_truthy (cval_get target controllerName))).
  { right. simpl. apply hasException_message. }
  destruct (negb (cval_truthy (cval_get (cval_get target controllerName) operationName))) eqn:E.
  { right. simpl. apply hasException_message. }
  simpl. unfold bind_handler. apply negb_false_iff in E. rewrite E.
  destruct (cval_get (cval_get target controllerName) operationName); simpl;
    try (right; apply hasException_message).
  - left. rewrite map_get_set. eauto.
  - destruct (scan_items _ _ _ _). simpl. left. rewrite map_get_set. eauto.
Qed.

End ControllersFacts.

(** C9. A module found in the controllers directory that exports the
    operation with the value [null]: no message is recorded and a registry
    without the operation is returned. The same value under an object target
    is reported. *)
Lemma C9_falsy_export_not_reported :
  mapControllers null_export join_path no_call people_api false (CStr "./controllers")
    default_options = inl []
  /\ exists err,
       mapControllers no_module join_path no_call people_api false
         (CObj [("people", CObj [("list", CNull)])]) default_options = inr err
       /\ err_message err
          = "Unable to load one or more controllers; people: Controller operation not found: list".
Proof.
  split; [vm_compute; reflexivity|].
  eexists. split; vm_compute; reflexivity.
Qed.

(** ** Further properties of the mock middleware and of the registry *)

(** X6. For a document without the [swagger] property the version is a string
    of digits, neither [version === 2] nor [version === 3] holds, and the
    generator branch always ends in [unableToMock]. *)
Lemma mocks_generate_version3 opts api next v exc m op headers response st :
  truthy (of_option (oa_swagger api)) = false ->
  version api = Some v ->
  mocks_generate opts api next v exc m op headers response st = unableToMock next exc st.
Proof.
  intros Hswagger Hv. unfold version in Hv. rewrite Hswagger in Hv.
  destruct (leading_digits (oa_openapi api)) as [|a digits]; [discriminate|].
  injection Hv as <-. reflexivity.
Qed.

Lemma mocks_generate_version3_witness :
  mocks_generate default_options people_api_v3 host (VStr "3")
    (exc_new "Unable to generate mock response") people_decision get_people ∅ people_200
    (mock_request SendOriginal)
  = unableToMock host (exc_new "Unable to generate mock response") (mock_request SendOriginal).
Proof.
  apply (mocks_generate_version3 default_options people_api_v3 host (VStr "3")); reflexivity.
Defined.

Lemma scan_paths_mono_witness :
  hasException
    (exception_
       (scan_paths no_module join_path no_call default_options three_operations (CObj [])
          (mkScan [] [] (exc_message "Controller not found" (exc_new "")))))
  = true.
Proof.
  apply (scan_paths_mono no_module join_path no_call default_options three_operations (CObj [])).
  reflexivity.
Defined.

(** ** Further properties of the runner *)

Lemma catch_next_id next (r : option state) :
  catch_next next (match r with Some st' => Some (st', Normal) | None => None end) = r.
Proof. destruct r; reflexivity. Qed.

Lemma res_removeHeader_idemp name st :
  res_removeHeader name (res_removeHeader name st) = res_removeHeader name st.
Proof. unfold res_removeHeader, set_res. simpl. by rewrite delete_delete_eq. Qed.

Lemma kind_eqb (err : option error) (mw : handler) :
  (bool_decide (is_Some err) && isErrorHandling mw)
  || (negb (bool_decide (is_Some err)) && negb (isErrorHandling mw))
  = Bool.eqb (bool_decide (is_Some err)) (isErrorHandling mw).
Proof. destruct (bool_decide _), (isErrorHandling mw); reflexivity. Qed.

Lemma called_cons err arity n hs :
  called err ((arity, n) :: hs)
  = if Bool.eqb (bool_decide (is_Some err)) (isErrorHandling (forwards arity n))
    then n :: called err hs else called err hs.
Proof.
  unfold called, isErrorHandling. cbn [List.filter fst fn_length forwards].
  destruct (Bool.eqb _ _); reflexivity.
Qed.

(** A chain of forwarding handlers: those of the kind the run is in are
    called front to back, the others are skipped, and the continuation is
    reached with what the chain was started with. *)
Lemma run_forwards opts api clear req next err hs : forall fuel st,
  length hs <= fuel ->
  run opts api fuel clear req next err
    (set_middlewares (map (fun h => forwards h.1 h.2) hs) st)
  = next err (mkState (heap st) (res (clear_header clear st)) []
                (trace st ++ map EvLog (called err hs))).
Proof.
  induction hs as [|[arity n] hs IH]; intros fuel st Hfuel.
  - destruct fuel; simpl; rewrite app_nil_r; destruct clear; reflexivity.
  - destruct fuel as [|fuel]; [simpl in Hfuel; lia|].
    simpl in Hfuel. cbn [map fst snd]. rewrite run_step. cbv zeta.
    rewrite kind_eqb, called_cons.
    destruct (Bool.eqb _ _).
    + unfold forwards at 1. cbn [invoke exec]. rewrite catch_next_id.
      change (emit (EvLog n) (set_middlewares ?q ?s0))
        with (set_middlewares q (emit (EvLog n) s0)).
      rewrite IH by lia. f_equal. cbn [map].
      destruct clear; simpl; unfold res_removeHeader, set_res; simpl;
        rewrite ?delete_delete_eq, <- ?app_assoc; reflexivity.
    + rewrite IH by lia. f_equal.
      destruct clear; simpl; unfold res_removeHeader, set_res; simpl;
        rewrite ?delete_delete_eq; reflexivity.
Qed.

(** X7. Handlers run in the order of the store. For a store of handlers
    that record a number and pass on what they were called with, a run
    started without an error calls exactly the normal handlers (fewer than
    four parameters), front to back, and a run started with an error exactly
    the error handlers; the continuation then receives the same error, or
    none, with the queue empty and, when [clearEnforcerHeader] is set, the
    marker header removed. *)
Theorem passthrough_order opts api clear req next err hs st :
  let runner := middlewareRunner opts api (map (fun h => forwards h.1 h.2) hs) clear req next st in
  runner.1 err runner.2
  = next err (mkState (heap st) (res (clear_header clear st)) []
                (trace st ++ map EvLog (called err hs))).
Proof.
  simpl. apply run_forwards. by rewrite length_map.
Qed.

(** A body that neither calls [next] nor throws by itself ends whatever
    [next] is, and leaves the queue as it found it. *)
Lemma quiet_exec opts api req p : quiet p -> forall next st,
  exists st' c, exec opts api next req p st = Some (st', c)
    /\ middlewares st' = middlewares st
    /\ forall next', exec opts api next' req p st = Some (st', c).
Proof.
  induction 1 as [|n k Hk IH|code k Hk IH|name v k Hk IH|body k Hk IH|key k Hk IH
                  |key v k Hk IH|k Hk IH]; intros next st; simpl.
  - eauto 6.
  - destruct (IH next (emit (EvLog n) st)) as (st' & c & H1 & H2 & H3). eauto 6.
  - destruct (IH next (res_status code st)) as (st' & c & H1 & H2 & H3). eauto 6.
  - destruct (IH next (res_set name v st)) as (st' & c & H1 & H2 & H3). eauto 6.
  - assert (Hq : middlewares (res_send opts api body st).1 = middlewares st).
    { unfold res_send. destruct (send (res st)); [reflexivity|].
      apply (intercept_shape opts api). }
    destruct (res_send opts api body st) as [st1 [|e]]; simpl in Hq.
    + destruct (IH next st1) as (st' & c & H1 & H2 & H3).
      exists st', c. rewrite H2, Hq. auto.
    + eauto 6.
  - destruct (IH (req_get st req key) next st) as (st' & c & H1 & H2 & H3). eauto 6.
  - destruct (IH next (req_set req key v st)) as (st' & c & H1 & H2 & H3).
    exists st', c. split; [exact H1|]. split; [|exact H3].
    rewrite H2. unfold req_set. destruct (heap st !! req); reflexivity.
  - destruct (IH (res st) next st) as (st' & c & H1 & H2 & H3). eauto 6.
Qed.

(** X8. A handler of the kind the run is in that neither calls [next] nor
    throws by itself ends the run where it is: its body runs the same with a
    [next] that is never to be called, the handlers behind it stay in the
    queue, and when it returns normally the run is over in the state it left.
    Only a fault raised inside [res.send] continues the run, with that
    error. *)
Theorem quiet_handler_ends_run opts api fuel clear req next err arity body rest st :
  quiet (body err) ->
  bool_decide (is_Some err) = isErrorHandling (UserFn arity body) ->
  exists st' c,
    exec opts api (fun _ _ => None) req (body err)
      (set_middlewares rest (clear_header clear st)) = Some (st', c)
    /\ middlewares st' = rest
    /\ run opts api (S fuel) clear req next err (set_middlewares (UserFn arity body :: rest) st)
       = match c with
         | Normal => Some st'
         | Thrown e => run opts api fuel clear req next (Some e) st'
         end.
Proof.
  intros Hq Hkind.
  destruct (quiet_exec opts api req _ Hq (fun _ _ => None)
              (set_middlewares rest (clear_header clear st))) as (st' & c & H1 & H2 & H3).
  exists st', c. split; [exact H1|]. split; [exact H2|].
  rewrite run_step. cbv zeta. rewrite <- Hkind.
  destruct (bool_decide (is_Some err)); simpl; rewrite H3; destruct c; reflexivity.
Qed.

Lemma quiet_handler_ends_run_witness :
  exists st' c,
    exec default_options people_api (fun _ _ => None) 0 (Log 1 (Send (Some people) Return))
      (set_middlewares [h2] (clear_header true (incoming "/people" ∅ ∅))) = Some (st', c)
    /\ middlewares st' = [h2]
    /\ run default_options people_api 1 true 0 host None
         (set_middlewares [UserFn 3 (fun _ => Log 1 (Send (Some people) Return)); h2]
            (incoming "/people" ∅ ∅))
       = match c with
         | Normal => Some st'
         | Thrown e => run default_options people_api 0 true 0 host (Some e) st'
         end.
Proof.
  apply (quiet_handler_ends_run default_options people_api 0 true 0 host None 3
           (fun _ => Log 1 (Send (Some people) Return)) [h2] (incoming "/people" ∅ ∅)).
  - repeat constructor.
  - reflexivity.
Defined.

(** The runner depends on its continuation only through the calls it makes. *)
Section Ext.
Variable opts : options.
Variable api : openapi.
Variable req : loc.
Variables n1 n2 : option error -> state -> option state.
Hypothesis Hn : forall e s, n1 e s = n2 e s.

Lemma exec_ext p st : exec opts api n1 req p st = exec opts api n2 req p st.
Proof.
  revert st. induction p as [|e'|n k IH|code k IH|name v k IH|body k IH|err k IH
                  |key k IH|key v k IH|k IH]; intros st; simpl; try apply IH; try reflexivity.
  - destruct (res_send opts api body st) as [st1 [|e1]]; [apply IH | reflexivity].
  - rewrite Hn. destruct (n2 err st); [apply IH | reflexivity].
Qed.

Lemma catch_next_ext r : catch_next n1 r = catch_next n2 r.
Proof. destruct r as [[s [|e]]|]; simpl; auto. Qed.

Lemma controllers_then_ext controllers st :
  controllers_then opts api n1 req controllers st
  = controllers_then opts api n2 req controllers st.
Proof.
  unfold controllers_then. destruct (registry_get _ _); [apply exec_ext|].
  by rewrite Hn.
Qed.

Lemma unableToMock_ext exc st : unableToMock n1 exc st = unableToMock n2 exc st.
Proof. unfold unableToMock. by rewrite Hn. Qed.

Lemma mock_random_ext exc m schema st :
  mock_random opts api n1 exc m schema st = mock_random opts api n2 exc m schema st.
Proof.
  unfold mock_random. destruct (random schema) as [[v [e|]] [w|]];
    first [apply unableToMock_ext | reflexivity].
Qed.

Lemma mocks_generate_ext v exc m op headers response st :
  mocks_generate opts api n1 v exc m op headers response st
  = mocks_generate opts api n2 v exc m op headers response st.
Proof.
  unfold mocks_generate.
  repeat case_match; first [apply mock_random_ext | apply unableToMock_ext | reflexivity].
Qed.

Lemma mocks_then_ext controllers automatic st :
  mocks_then opts api n1 req controllers automatic st
  = mocks_then opts api n2 req controllers automatic st.
Proof.
  unfold mocks_then.
  destruct (as_operation api _) as [op|]; [|reflexivity].
  destruct (props _ _) as [headers|]; [|reflexivity].
  destruct (mock_decision _ _ _ _) as [m|]; [|by rewrite Hn].
  destruct (version api) as [v|]; [|reflexivity].
  cbv zeta. cbn [mock_response mock_statusCode mock_source mock_specified].
  destruct (registry_get _ _) as [controller|].
  - rewrite exec_ext. destruct (exec _ _ _ _ _ _) as [[s [|e]]|]; rewrite ?Hn; reflexivity.
  - destruct (assoc _ _); [apply mocks_generate_ext | by rewrite Hn].
Qed.

Lemma invoke_ext mw err st :
  invoke opts api n1 req mw err st = invoke opts api n2 req mw err st.
Proof.
  destruct mw as [arity body|promise|promise automatic]; simpl.
  - apply exec_ext.
  - unfold controllers_mw. destruct promise; rewrite ?Hn; [|reflexivity].
    by rewrite controllers_then_ext, catch_next_ext.
  - unfold mocks_mw. destruct promise; rewrite ?Hn; [|reflexivity].
    by rewrite mocks_then_ext, catch_next_ext.
Qed.
End Ext.

(** The runner depends on its continuation only through its values. *)
Lemma run_ext opts api fuel clear req n1 n2 :
  (forall e s, n1 e s = n2 e s) ->
  forall err st, run opts api fuel clear req n1 err st = run opts api fuel clear req n2 err st.
Proof.
  intros Hn. induction fuel as [|fuel IH]; intros err st.
  - simpl. destruct (middlewares st); [apply Hn | reflexivity].
  - simpl. destruct (middlewares st) as [|mw rest]; [apply Hn|].
    rewrite (invoke_ext opts api req _ _ IH).
    destruct (_ || _); [|apply IH].
    unfold catch_next. destruct (invoke _ _ _ _ _ _ _) as [[s [|e]]|]; auto.
Qed.

(** The runner with [clearEnforcerHeader] set removes the marker header
    before every call of its continuation. *)
Lemma run_clears opts api fuel req next err st :
  run opts api fuel true req next err st
  = run opts api fuel true req
      (fun e s => next e (res_removeHeader ENFORCER_HEADER s)) err st.
Proof.
  revert err st. induction fuel as [|fuel IH]; intros err st.
  - simpl. destruct (middlewares st); [|reflexivity].
    simpl. by rewrite res_removeHeader_idemp.
  - simpl. destruct (middlewares st) as [|mw rest].
    + simpl. by rewrite res_removeHeader_idemp.
    + rewrite (invoke_ext opts api req _ _ IH).
      destruct (_ || _); [|apply IH].
      unfold catch_next. destruct (invoke _ _ _ _ _ _ _) as [[s [|e]]|]; auto.
Qed.

(** X9. The marker header when the host's [next] is called. The calls the
    runner itself makes of its continuation, with [clearEnforcerHeader] set,
    are on a response without the marker header: removing the header once
    more before every such call changes nothing, and a continuation that
    refuses a response carrying the header is never refused, whatever the
    handlers of the queue do. The interception of [res.send] does not go through the
    runner: when the operation rejects a body it calls the host's [next]
    itself (line 179) and leaves the headers as they are, so the host is
    called while the marker header a controller was run under is still set.
    For [GET /people] with a controller that sends a string, the host's
    [next] receives the error and the response carries the marker
    [controller]. *)
Theorem marker_header_at_next :
  (forall opts api fuel req next err st,
     run opts api fuel true req next err st
     = run opts api fuel true req
         (fun e s => next e (res_removeHeader ENFORCER_HEADER s)) err st)
  /\ (forall opts api fuel req next err st,
        run opts api fuel true req
          (fun e s => if bool_decide (is_Some (res_headers (res s) !! ENFORCER_HEADER))
                      then None else next e s) err st
        = run opts api fuel true req next err st)
  /\ (forall opts api rq body st o exception marker,
        send (res st) = SendIntercept rq ->
        req_get st rq (reqOpenApiProperty opts) = VOpenApi ->
        req_get st rq (reqOperationProperty opts) = VOperation o ->
        reaches_response api rq o st = true ->
        op_response (oa_operation api o) (js_or (statusCode (res st)) (VNum 200)) body
          (res_headers (res st)) = inr exception ->
        res_headers (res st) !! ENFORCER_HEADER = Some marker ->
        exists st',
          res_send opts api body st = (st', Normal)
          /\ trace st' = trace st ++ [EvSerialize (js_or (statusCode (res st)) (VNum 200)) body;
                                      EvHostNext (Some (errorFromException exception))]
          /\ res_headers (res st') !! ENFORCER_HEADER = Some marker)
  /\ (exists st',
        middleware default_options digits_only (Resolved people_api)
          [ControllersMw (Resolved oops_controller)] 0 (incoming "/people" ∅ ∅) = Some st'
        /\ trace st' = [EvDebug "request" "validating and parsing";
                        EvDebug "controllers" "executing controller";
                        EvSerialize (VNum 200) (Some (DStr "oops"));
                        EvHostNext (Some (errorFromException invalid_response))]
        /\ statusCode (res st') = VNum 500
        /\ res_headers (res st') !! ENFORCER_HEADER = Some "controller").
Proof.
  split; [|split; [|split]].
  - apply run_clears.
  - intros opts api fuel req next err st.
    rewrite run_clears. rewrite (run_clears _ _ _ _ next).
    apply run_ext. intros e s. simpl.
    rewrite bool_decide_eq_false_2; [reflexivity|].
    change (lower ENFORCER_HEADER) with ENFORCER_HEADER.
    rewrite lookup_delete_eq. by intros [? ?].
  - intros opts api rq body st o exception marker Hsend Hoa Hop Hreach Hresp Hmarker.
    destruct (res_send_rejects opts api rq body st o exception Hsend Hoa Hop Hreach Hresp)
      as (st' & Hrun & Hres & _ & _ & Ht).
    exists st'. rewrite Hres. auto.
  - eexists. split; [vm_compute; reflexivity|]. repeat split.
Qed.

(** ** Further properties of the validation middleware *)

(** Handlers of the other kind are all skipped. *)
Lemma run_skips opts api clear req next err q : forall fuel st,
  Forall (fun mw => isErrorHandling mw = negb (bool_decide (is_Some err))) q ->
  length q <= fuel ->
  run opts api fuel clear req next err (set_middlewares q st)
  = next err (set_middlewares [] (clear_header clear st)).
Proof.
  induction q as [|mw q IH]; intros fuel st Hq Hfuel.
  - destruct fuel, clear; reflexivity.
  - destruct fuel as [|fuel]; [simpl in Hfuel; lia|]. simpl in Hfuel.
    apply Forall_cons in Hq as [Hmw Hq].
    rewrite run_step. cbv zeta. rewrite Hmw.
    destruct (bool_decide (is_Some err)); simpl.
    all: change (set_middlewares q (clear_header clear st))
           with (set_middlewares q (clear_header clear st)).
    all: rewrite (IH fuel (clear_header clear st) Hq) by lia.
    all: f_equal; destruct clear; simpl; unfold res_removeHeader, set_res; simpl;
         rewrite ?delete_delete_eq; reflexivity.
Qed.

Lemma req_set_set_middlewares req key v q st :
  req_set req key v (set_middlewares q st) = set_middlewares q (req_set req key v st).
Proof. unfold req_set. simpl. destruct (heap st !! req); reflexivity. Qed.

Lemma req_set_fields req key v st :
  trace (req_set req key v st) = trace st /\ res (req_set req key v st) = res st
  /\ middlewares (req_set req key v st) = middlewares st.
Proof. unfold req_set. destruct (heap st !! req); auto. Qed.

(** X10. A request the catalog rejects (with a status other than 404) never
    reaches a normal handler: when the store holds no error handler (the
    functions registered by [controllers] and [mocks] are normal handlers)
    nothing of it runs, and the host's [next] receives the error built from
    the validation exception, with its status code and the exception itself;
    the framework's send is back in place and the marker header is removed. *)
Theorem invalid_request_skips_handlers opts isNaN_string api store req st ro clientError
    operation :
  requestObj isNaN_string st req = Some ro ->
  oa_request api ro = inr clientError ->
  exc_statusCode clientError <> Some 404%Z ->
  oa_path api (ro_method ro) (ro_path ro) = Some operation ->
  Forall (fun mw => isErrorHandling mw = false) store ->
  exists st',
    middleware opts isNaN_string (Resolved api) store req st = Some st'
    /\ trace st' = trace st ++ [EvDebug "request" "validating and parsing";
                                EvHostNext (Some (errorFromException clientError))]
    /\ res st' = mkResponse (statusCode (res st))
                   (delete ENFORCER_HEADER (res_headers (res st))) SendOriginal
    /\ err_statusCode (errorFromException clientError) = exc_statusCode clientError
    /\ err_exception (errorFromException clientError) = Some clientError.
Proof.
  intros Hro Hreq H404 Hpath Hstore.
  rewrite (middleware_invalid_run opts isNaN_string api store req st ro clientError operation
             Hro Hreq H404 Hpath).
  rewrite req_set_set_middlewares.
  rewrite run_skips; [|exact Hstore|lia].
  eexists. split; [reflexivity|].
  simpl.
  destruct (req_set_fields (length (heap st)) (reqOperationProperty opts) (VOperation operation)
              (req_set (length (heap st)) (reqOpenApiProperty opts) VOpenApi
                 (res_set_send (SendIntercept (length (heap st))) (copied req st))))
    as (-> & -> & _).
  destruct (req_set_fields (length (heap st)) (reqOpenApiProperty opts) VOpenApi
              (res_set_send (SendIntercept (length (heap st))) (copied req st)))
    as (-> & -> & _).
  simpl. rewrite <- app_assoc. auto.
Qed.

Lemma invalid_request_skips_handlers_witness :
  exists st',
    middleware default_options digits_only (Resolved (rejecting_api (Some 0)))
      [ControllersMw (Resolved [(0, mock_people)]); h2] 0 (incoming "/people" ∅ ∅) = Some st'
    /\ trace st' = trace (incoming "/people" ∅ ∅)
                   ++ [EvDebug "request" "validating and parsing";
                       EvHostNext (Some (errorFromException bad_request))]
    /\ res st' = mkResponse (statusCode (res (incoming "/people" ∅ ∅)))
                   (delete ENFORCER_HEADER (res_headers (res (incoming "/people" ∅ ∅))))
                   SendOriginal
    /\ err_statusCode (errorFromException bad_request) = exc_statusCode bad_request
    /\ err_exception (errorFromException bad_request) = Some bad_request.
Proof.
  apply (invalid_request_skips_handlers default_options digits_only (rejecting_api (Some 0))
           [ControllersMw (Resolved [(0, mock_people)]); h2] 0 (incoming "/people" ∅ ∅)
           {| ro_headers := VRef 1; ro_method := VStr "GET"; ro_path := "/people";
              ro_body := None |} bad_request 0).
  - vm_compute. reflexivity.
  - reflexivity.
  - discriminate.
  - reflexivity.
  - repeat constructor.
Defined.

(** X11. A request the catalog rejects (with a status other than 404) for
    which [openapi.path] finds no operation: reading [value.operation] fails,
    no handler of the store runs and the host's [next] receives that
    [TypeError], not the validation error. The framework's send is back in
    place; status and headers are untouched. *)
Theorem invalid_request_without_operation opts isNaN_string api store req st ro clientError :
  requestObj isNaN_string st req = Some ro ->
  oa_request api ro = inr clientError ->
  exc_statusCode clientError <> Some 404%Z ->
  oa_path api (ro_method ro) (ro_path ro) = None ->
  exists st',
    middleware opts isNaN_string (Resolved api) store req st = Some st'
    /\ trace st' = trace st ++ [EvDebug "request" "validating and parsing";
                                EvHostNext (Some (TypeError "Cannot read properties of undefined"))]
    /\ send (res st') = SendOriginal
    /\ res_headers (res st') = res_headers (res st)
    /\ statusCode (res st') = statusCode (res st).
Proof.
  intros Hro Hreq H404 Hpath. unfold middleware, middleware_then. simpl.
  change (debug "request" "validating and parsing" _) with (copied req st).
  rewrite (requestObj_copied _ _ _ _ Hro), Hreq.
  rewrite bool_decide_eq_false_2 by exact H404.
  unfold middlewareRunner. cbv beta iota zeta. rewrite Hpath.
  eexists. split; [reflexivity|]. simpl.
  destruct (req_set_fields (length (heap st)) (reqOpenApiProperty opts) VOpenApi
              (res_set_send (SendIntercept (length (heap st))) (copied req st)))
    as (-> & -> & _).
  simpl. rewrite <- app_assoc. auto.
Qed.

Lemma invalid_request_without_operation_witness :
  exists st',
    middleware default_options digits_only (Resolved (rejecting_api None))
      [ControllersMw (Resolved [(0, mock_people)]); on_error] 0 (incoming "/people" ∅ ∅)
    = Some st'
    /\ trace st' = trace (incoming "/people" ∅ ∅)
                   ++ [EvDebug "request" "validating and parsing";
                       EvHostNext (Some (TypeError "Cannot read properties of undefined"))]
    /\ send (res st') = SendOriginal
    /\ res_headers (res st') = res_headers (res (incoming "/people" ∅ ∅))
    /\ statusCode (res st') = statusCode (res (incoming "/people" ∅ ∅)).
Proof.
  apply (invalid_request_without_operation default_options digits_only (rejecting_api None)
           [ControllersMw (Resolved [(0, mock_people)]); on_error] 0 (incoming "/people" ∅ ∅)
           {| ro_headers := VRef 1; ro_method := VStr "GET"; ro_path := "/people";
              ro_body := None |} bad_request).
  - vm_compute. reflexivity.
  - reflexivity.
  - discriminate.
  - reflexivity.
Defined.

(** [s.substr(n)] on a string that starts with [n] characters. *)
Lemma substring_all s : String.substring 0 (String.length s) s = s.
Proof. induction s as [|a s IH]; simpl; [reflexivity|]. by rewrite IH. Qed.

Lemma substring_none n s : String.substring n 0 s = "".
Proof.
  revert s. induction n as [|n IH]; intros s; destruct s; simpl; auto.
Qed.

Lemma substring_drop b r :
  String.substring (String.length b) (String.length (b +:+ r) - String.length b) (b +:+ r) = r.
Proof.
  induction b as [|a b IH]; simpl.
  - rewrite Nat.sub_0_r. apply substring_all.
  - exact IH.
Qed.

(** X14. The path handed to [openapi.request] is the URL below the mount
    point: when [originalUrl] is [baseUrl] followed by [rest] the path is
    [rest], and when [originalUrl] is not longer than [baseUrl] it is the
    empty string. *)
Theorem request_path_of_mount isNaN_string st req baseUrl originalUrl ro :
  req_get st req "originalUrl" = VStr originalUrl ->
  req_get st req "baseUrl" = VStr baseUrl ->
  requestObj isNaN_string st req = Some ro ->
  (forall rest, originalUrl = baseUrl +:+ rest -> ro_path ro = rest)
  /\ (String.length originalUrl <= String.length baseUrl -> ro_path ro = "").
Proof.
  intros Ho Hb. unfold requestObj, request_path. rewrite Ho, Hb.
  destruct (hasBody _ _ _); [|discriminate]. intros [= <-]. simpl. split.
  - intros rest ->. by rewrite substring_drop.
  - intros Hlen. replace (_ - _) with 0 by lia. by rewrite substring_none.
Qed.

Lemma request_path_of_mount_witness :
  (forall rest, "/api/people" = "/api" +:+ rest -> "/people" = rest)
  /\ (String.length "/api/people" <= String.length "/api" -> "/people" = "").
Proof.
  apply (request_path_of_mount digits_only
           (req_set 0 "baseUrl" (VStr "/api") (incoming "/api/people" ∅ ∅)) 0
           "/api" "/api/people"
           {| ro_headers := VRef 1; ro_method := VStr "GET"; ro_path := "/people";
              ro_body := None |}).
  - vm_compute. reflexivity.
  - vm_compute. reflexivity.
  - vm_compute. reflexivity.
Defined.

(** X15. Whether the request body is handed to [openapi.request] depends on
    two headers only: without [transfer-encoding] and [content-length] no
    body is passed, whatever [req.body] holds; with a [transfer-encoding]
    header, or a numeric [content-length], [req.body] is passed as it is;
    a [content-length] string counts when [isNaN] rejects it as a number. *)
Theorem body_presence isNaN_string st req ro headers :
  requestObj isNaN_string st req = Some ro ->
  props (heap st) (req_get st req "headers") = Some headers ->
  (headers !! "transfer-encoding" = None -> headers !! "content-length" = None ->
   ro_body ro = None)
  /\ (forall v, headers !! "transfer-encoding" = Some v -> v <> VUndefined ->
      ro_body ro = Some (req_get st req "body"))
  /\ (forall n, headers !! "content-length" = Some (VNum n) ->
      ro_body ro = Some (req_get st req "body"))
  /\ (forall s, headers !! "transfer-encoding" = None ->
      headers !! "content-length" = Some (VStr s) ->
      ro_body ro = if isNaN_string s then None else Some (req_get st req "body")).
Proof.
  intros Hro Hh. unfold requestObj, hasBody in Hro. rewrite Hh in Hro.
  destruct (request_path st req); [|discriminate]. injection Hro as <-. simpl.
  unfold get_prop. repeat split.
  - intros -> ->. reflexivity.
  - intros v -> Hv. destruct v; first [by destruct Hv | reflexivity].
  - intros n ->. simpl. by rewrite orb_true_r.
  - intros s0 -> ->. simpl. by destruct (isNaN_string s0).
Qed.

Lemma body_presence_witness :
  let st := req_set 0 "body" (VData people) (incoming "/people" ∅ ∅) in
  let ro := {| ro_headers := VRef 1; ro_method := VStr "GET"; ro_path := "/people";
               ro_body := None |} in
  ((∅ : obj) !! "transfer-encoding" = None -> (∅ : obj) !! "content-length" = None ->
   ro_body ro = None)
  /\ (forall v, (∅ : obj) !! "transfer-encoding" = Some v -> v <> VUndefined ->
      ro_body ro = Some (req_get st 0 "body"))
  /\ (forall n, (∅ : obj) !! "content-length" = Some (VNum n) ->
      ro_body ro = Some (req_get st 0 "body"))
  /\ (forall s, (∅ : obj) !! "transfer-encoding" = None ->
      (∅ : obj) !! "content-length" = Some (VStr s) ->
      ro_body ro = if digits_only s then None else Some (req_get st 0 "body")).
Proof.
  apply (body_presence digits_only
           (req_set 0 "body" (VData people) (incoming "/people" ∅ ∅)) 0
           {| ro_headers := VRef 1; ro_method := VStr "GET"; ro_path := "/people";
              ro_body := None |} ∅).
  - vm_compute. reflexivity.
  - vm_compute. reflexivity.
Defined.

(** The two outcomes of the validation seen through a chain of forwarding
    handlers. *)
Lemma set_middlewares_eta st : set_middlewares (middlewares st) st = st.
Proof. by destruct st. Qed.

(** X12. A valid request and a store of forwarding handlers: the normal
    handlers are called in the order of the store, the error handlers are
    skipped, then the host's [next] is called without an error, with the
    framework's send back in place, the marker header removed and the status
    code untouched. *)
Theorem valid_request_runs_chain opts isNaN_string api hs req st ro request :
  requestObj isNaN_string st req = Some ro ->
  oa_request api ro = inl request ->
  exists st',
    middleware opts isNaN_string (Resolved api) (map (fun h => forwards h.1 h.2) hs) req st
    = Some st'
    /\ trace st' = trace st ++ [EvDebug "request" "validating and parsing"]
                   ++ map EvLog (called None hs) ++ [EvHostNext None]
    /\ res st' = mkResponse (statusCode (res st))
                   (delete ENFORCER_HEADER (res_headers (res st))) SendOriginal
    /\ middlewares st' = [].
Proof.
  intros Hro Hreq.
  rewrite (middleware_valid_run opts isNaN_string api _ req st ro request Hro Hreq).
  set (store := map (fun h => forwards h.1 h.2) hs).
  set (st0 := set_middlewares store _).
  assert (Hext : extends (length (heap st)) st0
                   (attach_request opts (length (heap st)) request st0)).
  { apply extends_attach_request; [lia|].
    unfold st0. cbn [heap set_middlewares].
    apply (extends_bound _ (res_set_send (SendIntercept (length (heap st))) (copied req st)));
      [apply extends_req_set; lia|].
    simpl. rewrite length_app. lia. }
  destruct Hext as (Ht & Hr & Hq & _).
  rewrite <- (set_middlewares_eta (attach_request _ _ _ st0)), Hq.
  unfold st0 at 1. simpl middlewares. unfold store.
  rewrite length_map, run_forwards by lia.
  eexists. split; [reflexivity|]. simpl. rewrite Ht, Hr. unfold st0. simpl.
  destruct (req_set_fields (length (heap st)) (reqOpenApiProperty opts) VOpenApi
              (res_set_send (SendIntercept (length (heap st))) (copied req st)))
    as (-> & -> & _).
  simpl. rewrite <- !app_assoc. auto.
Qed.

Lemma valid_request_runs_chain_witness :
  exists st',
    middleware default_options digits_only (Resolved people_api)
      (map (fun h => forwards h.1 h.2) [(3, 1); (4, 2); (3, 3)]) 0 (incoming "/people" ∅ ∅)
    = Some st'
    /\ trace st' = trace (incoming "/people" ∅ ∅)
                   ++ [EvDebug "request" "validating and parsing"]
                   ++ map EvLog (called None [(3, 1); (4, 2); (3, 3)]) ++ [EvHostNext None]
    /\ res st' = mkResponse (statusCode (res (incoming "/people" ∅ ∅)))
                   (delete ENFORCER_HEADER (res_headers (res (incoming "/people" ∅ ∅))))
                   SendOriginal
    /\ middlewares st' = [].
Proof.
  apply (valid_request_runs_chain default_options digits_only people_api
           [(3, 1); (4, 2); (3, 3)] 0 (incoming "/people" ∅ ∅)
           {| ro_headers := VRef 1; ro_method := VStr "GET"; ro_path := "/people";
              ro_body := None |}
           {| pr_operation := 0; pr_path := None; pr_cookies := None;
              pr_headers := None; pr_params := None; pr_query := None; pr_body := None |}).
  - vm_compute. reflexivity.
  - reflexivity.
Defined.

(** X13. A request the catalog rejects (with a status other than 404) and a
    store of forwarding handlers: the error handlers are called in the order
    of the store with the error built from the validation exception, the
    normal handlers are skipped, then the host's [next] receives that same
    error. *)
Theorem invalid_request_reaches_error_handlers opts isNaN_string api hs req st ro clientError
    operation :
  requestObj isNaN_string st req = Some ro ->
  oa_request api ro = inr clientError ->
  exc_statusCode clientError <> Some 404%Z ->
  oa_path api (ro_method ro) (ro_path ro) = Some operation ->
  exists st',
    middleware opts isNaN_string (Resolved api) (map (fun h => forwards h.1 h.2) hs) req st
    = Some st'
    /\ trace st' = trace st ++ [EvDebug "request" "validating and parsing"]
                   ++ map EvLog (called (Some (errorFromException clientError)) hs)
                   ++ [EvHostNext (Some (errorFromException clientError))]
    /\ res st' = mkResponse (statusCode (res st))
                   (delete ENFORCER_HEADER (res_headers (res st))) SendOriginal.
Proof.
  intros Hro Hreq H404 Hpath.
  rewrite (middleware_invalid_run opts isNaN_string api _ req st ro clientError operation
             Hro Hreq H404 Hpath).
  rewrite req_set_set_middlewares, length_map, run_forwards by lia.
  eexists. split; [reflexivity|]. simpl.
  destruct (req_set_fields (length (heap st)) (reqOperationProperty opts) (VOperation operation)
              (req_set (length (heap st)) (reqOpenApiProperty opts) VOpenApi
                 (res_set_send (SendIntercept (length (heap st))) (copied req st))))
    as (-> & -> & _).
  destruct (req_set_fields (length (heap st)) (reqOpenApiProperty opts) VOpenApi
              (res_set_send (SendIntercept (length (heap st))) (copied req st)))
    as (-> & -> & _).
  simpl. rewrite <- !app_assoc. auto.
Qed.

Lemma invalid_request_reaches_error_handlers_witness :
  exists st',
    middleware default_options digits_only (Resolved (rejecting_api (Some 0)))
      (map (fun h => forwards h.1 h.2) [(3, 1); (4, 2); (3, 3)]) 0 (incoming "/people" ∅ ∅)
    = Some st'
    /\ trace st' = trace (incoming "/people" ∅ ∅)
                   ++ [EvDebug "request" "validating and parsing"]
                   ++ map EvLog (called (Some (errorFromException bad_request))
                                   [(3, 1); (4, 2); (3, 3)])
                   ++ [EvHostNext (Some (errorFromException bad_request))]
    /\ res st' = mkResponse (statusCode (res (incoming "/people" ∅ ∅)))
                   (delete ENFORCER_HEADER (res_headers (res (incoming "/people" ∅ ∅))))
                   SendOriginal.
Proof.
  apply (invalid_request_reaches_error_handlers default_options digits_only
           (rejecting_api (Some 0)) [(3, 1); (4, 2); (3, 3)] 0 (incoming "/people" ∅ ∅)
           {| ro_headers := VRef 1; ro_method := VStr "GET"; ro_path := "/people";
              ro_body := None |} bad_request 0).
  - vm_compute. reflexivity.
  - reflexivity.
  - discriminate.
  - reflexivity.
Defined.

(** ** The headers of a serialized response *)

(** The headers after [set_headers]: the last value given for a name (names
    are stored in lower case), or the value the response had. *)
Lemma set_headers_snoc hs h st :
  set_headers (hs ++ [h]) st = res_set h.1 h.2 (set_headers hs st).
Proof. unfold set_headers. by rewrite foldl_snoc. Qed.

Lemma set_headers_lookup hs st name :
  res_headers (res (set_headers hs st)) !! name
  = match assoc name (rev (map (fun hv => (lower hv.1, hv.2)) hs)) with
    | Some v => Some v
    | None => res_headers (res st) !! name
    end.
Proof.
  induction hs as [|[k v] hs IH] using rev_ind; [reflexivity|].
  rewrite set_headers_snoc, map_app. simpl. rewrite rev_unit. simpl.
  destruct (String.eqb (lower k) name) eqn:E.
  - apply String.eqb_eq in E as <-. by rewrite lookup_insert_eq.
  - apply String.eqb_neq in E. rewrite lookup_insert_ne by exact E. exact IH.
Qed.

(** X16. For a document without the [swagger] property and a response that
    has no [content-type] header yet, the derivation of line 169 never sets a
    content type. When the operation matches content types for the status
    code and the request's [accepts] header, [type] is the array of the
    matches and [res.set] refuses it: [res.send] raises a [TypeError] with
    the framework's send put back, [operation.response] is not called,
    nothing is written and the status and the headers are as they were. When
    it matches none, the interception carries on without a content type:
    [operation.response] receives the headers of the response as they
    are. *)
Theorem content_type_derivation_throws opts api rq body st o acc :
  send (res st) = SendIntercept rq ->
  req_get st rq (reqOpenApiProperty opts) = VOpenApi ->
  req_get st rq (reqOperationProperty opts) = VOperation o ->
  accepts st rq = Some acc ->
  oa_swagger api = None ->
  truthy (of_option (res_headers (res st) !! "content-type")) = false ->
  let code := js_or (statusCode (res st)) (VNum 200) in
  match mr_value (op_getResponseContentTypeMatches (oa_operation api o) code acc) with
  | Some types =>
      res_send opts api body st
      = (mkState (heap st)
           (mkResponse (statusCode (res st)) (res_headers (res st)) SendOriginal)
           (middlewares st) (trace st),
         Thrown (TypeError "Content-Type cannot be set to an Array"))
  | None =>
      exists st1,
        res_send opts api body st = (st1, Normal)
        /\ match op_response (oa_operation api o) code body (res_headers (res st)) with
           | inl response =>
               trace st1 = trace st ++ [EvSerialize code body;
                                        EvWrite (statusCode (res st)) (sr_body response)]
           | inr exception =>
               trace st1 = trace st ++ [EvSerialize code body;
                                        EvHostNext (Some (errorFromException exception))]
               /\ statusCode (res st1) = VNum 500
               /\ res_headers (res st1) = res_headers (res st)
           end
  end.
Proof.
  intros Hsend Hoa Hop Hacc Hv3 Hct code.
  assert (Hd : derives api st = true).
  { unfold derives. rewrite Hct, Hv3. reflexivity. }
  destruct (mr_value _) as [types|] eqn:Hm.
  - unfold res_send. rewrite Hsend.
    rewrite (intercept_throws opts api rq body st o acc types Hoa Hop Hacc Hd Hm).
    reflexivity.
  - assert (Hreach : reaches_response api rq o st = true).
    { unfold reaches_response. rewrite Hd, Hacc. fold code. rewrite Hm. reflexivity. }
    destruct (op_response _ _ _ _) as [response|exception] eqn:Hresp.
    + destruct (res_send_serializes opts api rq body st o response Hsend Hoa Hop Hreach Hresp)
        as (st1 & Hrun & _ & _ & _ & _ & Ht).
      exists st1. split; [exact Hrun | exact Ht].
    + destruct (res_send_rejects opts api rq body st o exception Hsend Hoa Hop Hreach Hresp)
        as (st1 & Hrun & Hres & _ & _ & Ht).
      exists st1. split; [exact Hrun|]. rewrite Hres. auto.
Qed.

Lemma content_type_derivation_throws_witness :
  res_send default_options json_api (Some people) (mock_request (SendIntercept 0))
  = (mock_request SendOriginal,
     Thrown (TypeError "Content-Type cannot be set to an Array")).
Proof.
  apply (content_type_derivation_throws default_options json_api 0 (Some people)
           (mock_request (SendIntercept 0)) 0 (VStr "*/*")); reflexivity.
Defined.

(** X17. The headers of the response after an interception that gets as far
    as [operation.response] (a document with the [swagger] property, a
    response that has a [content-type] already, or no content type matched).
    The headers handed over are those of the response. On success every
    header of the serialized response is set under its name in lower case
    (the last value wins) and the others keep their value; this is stated
    for every name but [content-type], to whose value the framework may add
    a character set. When the operation rejects the body no header is
    changed. *)
Theorem serialized_headers_set opts api rq body st o :
  send (res st) = SendIntercept rq ->
  req_get st rq (reqOpenApiProperty opts) = VOpenApi ->
  req_get st rq (reqOperationProperty opts) = VOperation o ->
  reaches_response api rq o st = true ->
  exists st1,
    res_send opts api body st = (st1, Normal)
    /\ match op_response (oa_operation api o) (js_or (statusCode (res st)) (VNum 200))
               body (res_headers (res st)) with
       | inl response =>
           forall name, name <> "content-type" ->
             res_headers (res st1) !! name
             = match assoc name (rev (map (fun hv => (lower hv.1, hv.2))
                                        (sr_headers response))) with
               | Some v => Some v
               | None => res_headers (res st) !! name
               end
       | inr exception => res_headers (res st1) = res_headers (res st)
       end.
Proof.
  intros Hsend Hoa Hop Hreach.
  pose proof (intercept_reaches opts api rq body st o Hoa Hop Hreach) as Hi.
  cbv zeta in Hi. unfold res_send. rewrite Hsend, Hi.
  destruct (op_response _ _ _ _) as [response|exception].
  - eexists. split; [reflexivity|]. intros name _.
    unfold original_send. simpl. by rewrite set_headers_lookup.
  - eexists. split; [reflexivity|]. reflexivity.
Qed.

Lemma serialized_headers_set_witness :
  exists st1,
    res_send default_options json_api (Some people)
      (mkState [ {[ "openapi" := VOpenApi; "operation" := VOperation 0; "headers" := VRef 1 ]}; ∅ ]
         (mkResponse (VNum 200) {[ "content-type" := "application/json; charset=utf-8";
                                   "x-count" := "0" ]} (SendIntercept 0)) [] [])
    = (st1, Normal)
    /\ res_headers (res st1) !! "x-count" = Some "1".
Proof.
  destruct (serialized_headers_set default_options json_api 0 (Some people)
              (mkState [ {[ "openapi" := VOpenApi; "operation" := VOperation 0;
                            "headers" := VRef 1 ]}; ∅ ]
                 (mkResponse (VNum 200) {[ "content-type" := "application/json; charset=utf-8";
                                           "x-count" := "0" ]} (SendIntercept 0)) [] [])
              0)
    as (st1 & Hrun & Hh);
    [reflexivity | reflexivity | reflexivity | reflexivity |].
  exists st1. split; [exact Hrun|]. cbn in Hh. apply (Hh "x-count"). discriminate.
Defined.

(** ** Further properties of the mock and controllers middlewares *)

(** The version the mock middleware computes is the number 2 or a string. *)
Lemma version_values api v :
  version api = Some v -> v = VNum 2 \/ exists s, v = VStr s.
Proof.
  unfold version. destruct (truthy _); [intros [= <-]; auto|].
  destruct (leading_digits _); [discriminate|]. intros [= <-]. eauto.
Qed.

Lemma unableToMock_501 next exc st :
  exists err,
    unableToMock next exc st
    = match next (Some err) (emit (EvDebug "controllers" "unable to generate automatic mock") st)
      with Some st' => Some (st', Normal) | None => None end
    /\ err_statusCode err = Some 501%Z.
Proof.
  unfold unableToMock. eexists. split; [reflexivity|].
  destruct exc as [h c m a n]. reflexivity.
Qed.

(** X18. When no value can be generated for the declared response (its
    schema's [random] reports an error or a warning, or there is nothing to
    generate from), the mock middleware writes nothing and leaves the
    response alone: it calls [next] with an error whose status code is 501,
    after the debug message (and the call of [random], if one was made). *)
Theorem mock_generation_failure opts api next v exc m op headers response st :
  version api = Some v ->
  (forall schema, rs_schema response = Some schema -> random_ok schema = false) ->
  exists err tr,
    mocks_generate opts api next v exc m op headers response st
    = match next (Some err) (mkState (heap st) (res st) (middlewares st) (trace st ++ tr)) with
      | Some st' => Some (st', Normal)
      | None => None
      end
    /\ err_statusCode err = Some 501%Z
    /\ (tr = [EvDebug "controllers" "unable to generate automatic mock"]
        \/ tr = [EvRandom; EvDebug "controllers" "unable to generate automatic mock"]).
Proof.
  intros Hv Hfail. unfold mocks_generate.
  assert (H3 : strict_eq_num v 3 = false).
  { destruct (version_values api v Hv) as [->|[s ->]]; reflexivity. }
  rewrite H3.
  assert (Hend : forall exc',
            exists err tr,
              unableToMock next exc' st
              = match next (Some err)
                        (mkState (heap st) (res st) (middlewares st) (trace st ++ tr)) with
                | Some st' => Some (st', Normal)
                | None => None
                end
              /\ err_statusCode err = Some 501%Z
              /\ (tr = [EvDebug "controllers" "unable to generate automatic mock"]
                  \/ tr = [EvRandom; EvDebug "controllers" "unable to generate automatic mock"])).
  { intros exc'. destruct (unableToMock_501 next exc' st) as (err & -> & Hc).
    exists err, [EvDebug "controllers" "unable to generate automatic mock"]. auto. }
  destruct (strict_eq_num v 2); [|apply Hend].
  destruct (rs_schema response) as [schema|]; [|apply Hend].
  specialize (Hfail schema eq_refl). unfold random_ok in Hfail.
  unfold mock_random.
  assert (Hend' : forall exc',
            exists err tr,
              unableToMock next exc' (emit EvRandom st)
              = match next (Some err)
                        (mkState (heap st) (res st) (middlewares st) (trace st ++ tr)) with
                | Some st' => Some (st', Normal)
                | None => None
                end
              /\ err_statusCode err = Some 501%Z
              /\ (tr = [EvDebug "controllers" "unable to generate automatic mock"]
                  \/ tr = [EvRandom; EvDebug "controllers" "unable to generate automatic mock"])).
  { intros exc'. destruct (unableToMock_501 next exc' (emit EvRandom st)) as (err & -> & Hc).
    exists err, [EvRandom; EvDebug "controllers" "unable to generate automatic mock"].
    split; [|auto]. unfold emit. simpl. by rewrite <- app_assoc. }
  destruct (random schema) as [[value [err|]] [warning|]]; try apply Hend'.
  discriminate.
Qed.

Lemma mock_generation_failure_witness :
  exists err tr,
    mocks_generate default_options people_api host (VNum 2)
      (exc_set_statusCode 400 (exc_new "Unable to generate mock response"))
      people_decision get_people ∅ unmockable (mock_request SendOriginal)
    = match host (Some err)
              (mkState (heap (mock_request SendOriginal)) (res (mock_request SendOriginal))
                 (middlewares (mock_request SendOriginal))
                 (trace (mock_request SendOriginal) ++ tr)) with
      | Some st' => Some (st', Normal)
      | None => None
      end
    /\ err_statusCode err = Some 501%Z
    /\ (tr = [EvDebug "controllers" "unable to generate automatic mock"]
        \/ tr = [EvRandom; EvDebug "controllers" "unable to generate automatic mock"]).
Proof.
  apply (mock_generation_failure default_options people_api host (VNum 2)
           (exc_set_statusCode 400 (exc_new "Unable to generate mock response"))
           people_decision get_people ∅ unmockable (mock_request SendOriginal)).
  - reflexivity.
  - intros schema [= <-]. reflexivity.
Defined.

(** X19. The two registered middlewares pass a request on untouched when
    they have nothing to do: the controllers middleware when no controller
    is bound to the operation of the request, the mock middleware (automatic
    mocking off) when the request has neither of the two trigger headers,
    even if a mock controller is bound. [next] is called without an error on
    the very state the middleware was called in: no marker header, nothing
    stored on the request. *)
Theorem transparent_without_binding opts api next req st :
  (forall controllers,
     registry_get controllers (req_get st req (reqOperationProperty opts)) = None ->
     controllers_mw opts api next req (Resolved controllers) st = next None st)
  /\ (forall controllers op headers,
        as_operation api (req_get st req (reqOperationProperty opts)) = Some op ->
        props (heap st) (req_get st req "headers") = Some headers ->
        headers !! mockHeader opts = None ->
        headers !! mockQuery opts = None ->
        mocks_mw opts api next req (Resolved controllers) false st = next None st).
Proof.
  split.
  - intros controllers Hget. unfold controllers_mw, controllers_then. rewrite Hget.
    by destruct (next None st).
  - intros controllers op headers Hop Hh H1 H2. unfold mocks_mw, mocks_then.
    rewrite Hop, Hh. unfold mock_decision.
    rewrite !bool_decide_eq_false_2 by (rewrite ?H1, ?H2; apply is_Some_None).
    by destruct (next None st).
Qed.

(** ** Further properties of the registry *)

Section RegistryFacts.
Context {F : Type}.
Variable require : string -> cval F + error.
Variable path_resolve : string -> string -> string.
Variable apply : F -> cval F + error.

(** [hasException] after [push] and after a message below [at]. *)
Lemma hasException_push_eq child e :
  hasException (exc_push child e) = hasException e || hasException child.
Proof.
  destruct e as [h c m a n]. simpl. rewrite existsb_app. simpl.
  rewrite orb_false_r. by rewrite orb_assoc.
Qed.

Lemma hasException_at_true key f e :
  (forall c, hasException (f c) = true) -> hasException (exc_at key f e) = true.
Proof.
  intros Hf. destruct e as [h c m a n]. simpl.
  assert (Ha : existsb (fun kc : string * exception => let (_, c0) := kc in hasException c0)
                 (alist_update key (exc_new "") f a) = true).
  { clear -Hf. induction a as [|[k v] a IH]; simpl.
    - by rewrite Hf.
    - destruct (String.eqb k key); simpl; [by rewrite Hf|].
      rewrite IH. apply orb_true_r. }
  rewrite Ha. by rewrite orb_true_r.
Qed.

(** The loop over an array handler keeps the functions, in order, and
    records a message exactly when some item is not a function. *)
Lemma scan_items_spec (items : list (cval F)) : forall i acc grandChild,
  scan_items i items acc grandChild
  = (acc ++ functions items, (scan_items i items acc grandChild).2)
  /\ hasException (scan_items i items acc grandChild).2
     = hasException grandChild || negb (forallb is_function items).
Proof.
  induction items as [|item items IH]; intros i acc g.
  - simpl. by rewrite app_nil_r, orb_false_r.
  - assert (Hbad : is_function item = false ->
              scan_items i (item :: items) acc g
              = scan_items (S i) items acc (exc_at (pretty i) (exc_message "Not a function") g)).
    { destruct item; simpl; intros; first [reflexivity | discriminate]. }
    destruct (is_function item) eqn:Hitem.
    + destruct item; try discriminate. simpl.
      destruct (IH (S i) (acc ++ [f]) g) as [H1 H2].
      rewrite H2. split; [|reflexivity]. rewrite H1 at 1. simpl. by rewrite <- app_assoc.
    + rewrite (Hbad eq_refl). cbn [forallb]. rewrite Hitem. cbn [andb negb].
      destruct (IH (S i) acc (exc_at (pretty i) (exc_message "Not a function") g)) as [H1 H2].
      rewrite H2, hasException_at_true by (intros; apply hasException_message).
      rewrite orb_true_r. split; [|reflexivity].
      rewrite H1 at 1. f_equal. unfold functions. simpl.
      destruct item; first [reflexivity | discriminate].
Qed.

(** X21. An array as handler: the operation is bound to the chain of the
    functions of the array, in their order, whatever else the array holds
    (the empty array included), and a failure is recorded for the controller
    exactly when some item is not a function. *)
Theorem array_handler operation (items : list (cval F)) (map : list (opid * bound F)) child :
  let r := bind_handler operation (CArr items) map child in
  map_get operation r.1 = Some (BoundChain (functions items))
  /\ hasException r.2 = hasException child || negb (forallb is_function items).
Proof.
  unfold bind_handler. simpl.
  destruct (scan_items_spec items 0 []
              (exc_new "Expected a function or an array of functions")) as [H1 H2].
  destruct (scan_items _ _ _ _) as [middlewareArray grandChild]. simpl in *.
  injection H1 as ->. rewrite map_get_set. split; [reflexivity|].
  by rewrite hasException_push_eq, H2.
Qed.

(** [exceptionPushError] on a fresh exception. *)
Lemma message_lines_mono lines e :
  hasException e = true -> hasException (message_lines lines e) = true.
Proof.
  revert e. induction lines as [|line lines IH]; intros e H; simpl; [exact H|].
  destruct (String.eqb line ""); [exact H|]. apply IH, hasException_message.
Qed.

(** X24. What [exceptionPushError] records on a fresh exception counts as a
    failure ([hasException]) when the error has no stack (its string form
    is added) or when the second line of the stack is not empty (the lines are
    added below the first, up to the first empty line). An error whose stack
    has one line only, or an empty second line, adds a header without any
    message, which is not counted. *)
Theorem exceptionPushError_recorded err header :
  hasException (exceptionPushError err (exc_new header))
  = match err_stack err with
    | [] => true
    | [_] => false
    | _ :: line :: _ => negb (String.eqb line "")
    end.
Proof.
  unfold exceptionPushError. destruct (err_stack err) as [|first [|line lines]];
    [reflexivity..|].
  unfold exc_nest. rewrite hasException_push_eq. simpl.
  destruct (String.eqb line ""); [reflexivity|].
  simpl. rewrite message_lines_mono; [reflexivity|]. reflexivity.
Qed.

(** The cache of loaded controller modules. *)
Lemma assoc_alist_update {A} key (d : A) (v : A) l :
  assoc key (alist_update key d (fun _ => v) l) = Some v.
Proof.
  induction l as [|[k w] l IH]; simpl.
  - by rewrite String.eqb_refl.
  - destruct (String.eqb k key) eqn:E; simpl; rewrite E; [reflexivity|exact IH].
Qed.

Lemma load_from_path_cached require' apply' dir controller operation
    (loaded : list (string * cval F)) child (c : cval F) :
  assoc (path_resolve dir controller) loaded = Some c ->
  cval_truthy c = true ->
  load_from_path require' path_resolve apply' dir controller operation loaded child
  = if default false (cval_hasOwnProperty c operation)
    then (loaded, cval_get c operation, child)
    else (loaded, CUndefined, exc_message ("Operation not found: " +:+ operation) child).
Proof.
  intros Hc Ht. unfold load_from_path. rewrite Hc. simpl. rewrite Ht. simpl.
  rewrite Hc. simpl.
  destruct c; try discriminate; simpl; reflexivity.
Qed.

(** X23. A controller module is loaded once. After a lookup that found the
    module (its export, or what its factory returned, being truthy), every
    later lookup of an operation of the same controller is answered from the
    cache: it does not depend on [require] or on the factory any more, and
    it leaves the cache as it is. *)
Theorem module_loaded_once dir controller operation (loaded : list (string * cval F)) child
    (c : cval F) :
  (require (path_resolve dir controller) = inl c /\ is_function c = false
   \/ exists f, require (path_resolve dir controller) = inl (CFun f) /\ apply f = inl c) ->
  cval_truthy c = true ->
  let cache :=
    (load_from_path require path_resolve apply dir controller operation loaded child).1.1 in
  forall require' apply' operation' child',
    load_from_path require' path_resolve apply' dir controller operation' cache child'
    = load_from_path require path_resolve apply dir controller operation' cache child'
    /\ (load_from_path require' path_resolve apply' dir controller operation' cache child').1.1
       = cache.
Proof.
  intros Hload Ht cache require' apply' operation' child'.
  assert (Hcache : exists c', assoc (path_resolve dir controller) cache = Some c'
                              /\ cval_truthy c' = true).
  { unfold cache, load_from_path.
    destruct (negb (cval_truthy (default CUndefined (assoc _ loaded)))) eqn:E.
    - assert (Hl : match require (path_resolve dir controller) with
                   | inl (CFun f) =>
                       match apply f with
                       | inl controller0 =>
                           inl (alist_update (path_resolve dir controller) controller0
                                  (fun _ => controller0) loaded)
                       | inr err => inr err
                       end
                   | inl controller0 =>
                       inl (alist_update (path_resolve dir controller) controller0
                              (fun _ => controller0) loaded)
                   | inr err => inr err
                   end
                   = inl (alist_update (path_resolve dir controller) c (fun _ => c) loaded)).
      { destruct Hload as [[-> Hf]|(f & -> & ->)]; [|reflexivity].
        destruct c; first [reflexivity | discriminate]. }
      rewrite Hl. exists c. split; [|exact Ht].
      rewrite assoc_alist_update. simpl.
      destruct c; try discriminate; simpl; try apply assoc_alist_update.
      destruct (bool_decide _); simpl; apply assoc_alist_update.
    - apply negb_false_iff in E.
      destruct (assoc _ loaded) as [c'|] eqn:Hc'; [|discriminate].
      exists c'. split; [|exact E]. simpl.
      destruct c'; try discriminate; simpl; try exact Hc'.
      destruct (bool_decide _); exact Hc'. }
  destruct Hcache as (c' & Hc' & Ht').
  rewrite !(load_from_path_cached _ _ _ _ _ _ _ c' Hc' Ht').
  split; [reflexivity|]. destruct (default false _); reflexivity.
Qed.

(** [scan_method] in terms of the two names it reads. *)
Lemma scan_method_names opts openapi (target : cval F) pathItem method s :
  scan_method require path_resolve apply opts openapi target pathItem method s
  = match pi_operation pathItem method, controllerName opts openapi pathItem method,
          operationName opts pathItem method with
    | Some o, Some controller, Some operation =>
        let child := default (exc_new "") (assoc controller (exc_ats (exception_ s))) in
        let '(loaded, handler, child) :=
          match target with
          | CStr dir =>
              load_from_path require path_resolve apply dir controller operation
                (loadedControllers s) child
          | _ =>
              let '(handler, child) := load_from_object target controller operation child in
              (loadedControllers s, handler, child)
          end in
        let '(map, child) := bind_handler (od_operation o) handler (map_ s) child in
        mkScan loaded map (exc_at controller (fun _ => child) (exception_ s))
    | _, _, _ => s
    end.
Proof.
  unfold scan_method, controllerName, operationName.
  destruct (pi_operation pathItem method) as [o|]; [reflexivity|].
  simpl. repeat case_match; reflexivity.
Qed.

Lemma scan_method_skip opts openapi (target : cval F) pathItem method s :
  controllerName opts openapi pathItem method = None
  \/ operationName opts pathItem method = None ->
  scan_method require path_resolve apply opts openapi target pathItem method s = s.
Proof.
  intros H. rewrite scan_method_names.
  destruct (pi_operation pathItem method); [|reflexivity].
  destruct H as [-> | ->]; [reflexivity|]. by destruct (controllerName _ _ _ _).
Qed.

(** X4. Targets refused before the catalog is looked at, whatever the
    catalog holds. A target that is neither a function, a string nor a
    non-null object, and a factory that returns something else than a
    non-null object, are refused with an [Error] made from an exception whose
    header is [Unable to load controllers] ([Unable to load mock controllers]
    for the mock registry) and whose only message names the fault; the
    message of the error is the rendering of that exception. A factory that
    throws has its error passed on as it is. *)
Theorem invalid_target_rejected openapi (isMock : bool) (target : cval F) opts :
  let header := "Unable to load " +:+ (if isMock then "mock " else "") +:+ "controllers" in
  (is_function target = false -> (forall dir, target <> CStr dir) ->
   isNonNullObject target = false ->
   mapControllers require path_resolve apply openapi isMock target opts
   = inr (Error (exc_toString
                   (exc_message "Controllers target must be a string, a non-null object, or a function that returns a non-null object"
                      (exc_new header)))))
  /\ (forall f result,
        target = CFun f -> apply f = inl result -> isNonNullObject result = false ->
        mapControllers require path_resolve apply openapi isMock target opts
        = inr (Error (exc_toString
                        (exc_message "Controllers target function must return a non-null object"
                           (exc_new header)))))
  /\ (forall f err,
        target = CFun f -> apply f = inr err ->
        mapControllers require path_resolve apply openapi isMock target opts = inr err).
Proof.
  cbv zeta. repeat split.
  - intros Hf Hs Ho. unfold mapControllers.
    destruct target as [ | | b | n | dir | f | items | props ];
      try discriminate; try reflexivity. by destruct (Hs dir).
  - intros f result -> Hr Ho. unfold mapControllers. simpl. rewrite Hr, Ho. reflexivity.
  - intros f err -> Hr. unfold mapControllers. simpl. rewrite Hr. reflexivity.
Qed.

(** Operations that do not name both a controller and an operation are
    skipped. *)
Lemma scan_paths_skip opts openapi (target : cval F) s :
  Forall (fun kp => Forall (fun method =>
                              controllerName opts openapi kp.2 method = None
                              \/ operationName opts kp.2 method = None)
                      (pi_methods kp.2)) (oa_paths openapi) ->
  scan_paths require path_resolve apply opts openapi target s = s.
Proof.
  unfold scan_paths. revert s.
  induction (oa_paths openapi) as [|kp paths IH]; intros s H; [reflexivity|].
  apply Forall_cons in H as [Hkp H]. simpl. rewrite <- (IH s H) at 2. f_equal.
  clear -Hkp. revert s.
  induction (pi_methods kp.2) as [|method methods IH]; intros s; [reflexivity|].
  apply Forall_cons in Hkp as [Hm Hkp]. simpl. rewrite scan_method_skip by exact Hm.
  by apply IH.
Qed.

(** X20. When no operation of the catalog names both a controller and an
    operation, [mapControllers] returns the empty registry for every string
    or object target: nothing is looked up, so neither a missing directory
    nor a missing module is reported. *)
Theorem unannotated_catalog openapi isMock (target : cval F) opts :
  Forall (fun kp => Forall (fun method =>
                              controllerName opts openapi kp.2 method = None
                              \/ operationName opts kp.2 method = None)
                      (pi_methods kp.2)) (oa_paths openapi) ->
  (exists dir, target = CStr dir) \/ isNonNullObject target = true ->
  mapControllers require path_resolve apply openapi isMock target opts = inl [].
Proof.
  intros Hcat Htarget. unfold mapControllers.
  destruct Htarget as [[dir ->]|Hobj].
  - simpl. rewrite scan_paths_skip by exact Hcat. reflexivity.
  - destruct target; try discriminate; simpl; rewrite scan_paths_skip by exact Hcat;
      reflexivity.
Qed.

(** A binding made during the scan stays. *)
Lemma map_get_set_keeps o o' (v : bound F) map :
  is_Some (map_get o map) -> is_Some (map_get o (map_set o' v map)).
Proof.
  induction map as [|[k w] map IH]; simpl; [by intros [? [=]]|].
  destruct (Nat.eqb k o') eqn:E'; simpl.
  - destruct (Nat.eqb k o); eauto.
  - destruct (Nat.eqb k o); eauto.
Qed.

Lemma bind_handler_keeps o o' (handler : cval F) (map : list (opid * bound F)) child :
  is_Some (map_get o map) -> is_Some (map_get o (bind_handler o' handler map child).1).
Proof.
  intros H. unfold bind_handler. destruct (cval_truthy handler); [|exact H].
  destruct handler; simpl; try exact H.
  - by apply map_get_set_keeps.
  - destruct (scan_items _ _ _ _). simpl. by apply map_get_set_keeps.
Qed.

Lemma scan_method_keeps opts openapi (target : cval F) pathItem method s o :
  is_Some (map_get o (map_ s)) ->
  is_Some (map_get o (map_ (scan_method require path_resolve apply opts openapi target
                              pathItem method s))).
Proof.
  intros H. rewrite scan_method_names.
  destruct (pi_operation pathItem method) as [d|]; [|exact H].
  destruct (controllerName _ _ _ _) as [controller|]; [|exact H].
  destruct (operationName _ _ _) as [operation|]; [|exact H].
  cbv zeta.
  set (child := default (exc_new "") (assoc controller (exc_ats (exception_ s)))).
  assert (Hfinish : forall loaded handler child1,
            is_Some
              (map_get o
                 (map_
                    (let '(map, child2) :=
                       bind_handler (od_operation d) handler (map_ s) child1 in
                     mkScan loaded map (exc_at controller (fun _ => child2) (exception_ s)))))).
  { intros loaded handler child1.
    pose proof (bind_handler_keeps o (od_operation d) handler (map_ s) child1 H) as Hk.
    destruct (bind_handler _ _ _ _). exact Hk. }
  destruct target as [ | | b | n | dir | f | items | props ]; cbv beta iota;
    try match goal with
    | |- context [load_from_object ?t ?a ?b ?c] =>
        destruct (load_from_object t a b c) as [handler child1]; by apply Hfinish
    end.
  destruct (load_from_path _ _ _ _ _ _ _ _) as [[loaded handler] child1]. by apply Hfinish.
Qed.

(** An operation scanned under an object target is bound, or a failure is
    recorded. *)
Lemma hasException_at_child key child e :
  hasException child = true -> hasException (exc_at key (fun _ => child) e) = true.
Proof. intros H. by apply hasException_at_true. Qed.

Lemma bind_truthy_handler o (handler : cval F) (map : list (opid * bound F)) child :
  cval_truthy handler = true ->
  is_Some (map_get o (bind_handler o handler map child).1)
  \/ hasException (bind_handler o handler map child).2 = true.
Proof.
  intros Ht. unfold bind_handler. rewrite Ht.
  destruct handler; simpl; try (right; apply hasException_message).
  - left. rewrite map_get_set. eauto.
  - destruct (scan_items _ _ _ _). simpl. left. rewrite map_get_set. eauto.
Qed.

Lemma scan_method_binds opts openapi (target : cval F) pathItem method s d :
  (forall dir, target <> CStr dir) ->
  pi_operation pathItem method = Some d ->
  is_Some (controllerName opts openapi pathItem method) ->
  is_Some (operationName opts pathItem method) ->
  let s' := scan_method require path_resolve apply opts openapi target pathItem method s in
  is_Some (map_get (od_operation d) (map_ s')) \/ hasException (exception_ s') = true.
Proof.
  intros Htarget Hd [controller Hc] [operation Ho]. cbv zeta.
  rewrite scan_method_names, Hd, Hc, Ho. cbv zeta.
  set (child := default (exc_new "") (assoc controller (exc_ats (exception_ s)))).
  assert (Hobj : forall t : cval F,
            let '(handler, child1) := load_from_object t controller operation child in
            let '(map, child2) := bind_handler (od_operation d) handler (map_ s) child1 in
            is_Some (map_get (od_operation d) map) \/ hasException child2 = true).
  { intros t. unfold load_from_object.
    destruct (negb (cval_truthy (cval_get t controller))).
    { pose proof (bind_handler_mono (od_operation d) (@CUndefined F) (map_ s)
                    (exc_message "Controller not found" child)
                    (hasException_message _ _)) as Hm.
      destruct (bind_handler _ _ _ _). auto. }
    destruct (negb (cval_truthy (cval_get (cval_get t controller) operation))) eqn:E.
    { pose proof (bind_handler_mono (od_operation d) (@CUndefined F) (map_ s)
                    (exc_message ("Controller operation not found: " +:+ operation) child)
                    (hasException_message _ _)) as Hm.
      destruct (bind_handler _ _ _ _). auto. }
    apply negb_false_iff in E.
    pose proof (bind_truthy_handler (od_operation d) _ (map_ s) child E) as Hb.
    destruct (bind_handler _ _ _ _). exact Hb. }
  destruct target as [ | | b | n | dir | f | items | props ];
    try (by destruct (Htarget dir)); cbv beta iota.
  all: match goal with
       | |- context [load_from_object ?t _ _ _] => specialize (Hobj t)
       end.
  all: destruct (load_from_object _ _ _ _) as [handler child1].
  all: destruct (bind_handler _ _ _ _) as [map child2]; simpl.
  all: destruct Hobj as [Hb|He]; [by left | right; by apply hasException_at_child].
Qed.

(** The invariant of the two loops: a recorded failure stays, and as long
    as there is none every operation scanned so far is bound. *)
Lemma scan_methods_complete opts openapi (target : cval F) pathItem o :
  (forall dir, target <> CStr dir) ->
  forall methods s,
    let s' := foldl (fun s method => scan_method require path_resolve apply opts openapi target
                                       pathItem method s) s methods in
    (hasException (exception_ s) = true -> hasException (exception_ s') = true)
    /\ (hasException (exception_ s') = false ->
        is_Some (map_get o (map_ s))
        \/ (exists method d, In method methods /\ pi_operation pathItem method = Some d
                             /\ od_operation d = o
                             /\ is_Some (controllerName opts openapi pathItem method)
                             /\ is_Some (operationName opts pathItem method)) ->
        is_Some (map_get o (map_ s'))).
Proof.
  intros Htarget methods. induction methods as [|m methods IH]; intros s; cbv zeta.
  - simpl. split; [auto|]. intros _ [H|(method & d & [] & _)]. exact H.
  - simpl.
    set (s1 := scan_method require path_resolve apply opts openapi target pathItem m s).
    destruct (IH s1) as [Hmono Hcomp]. cbv zeta in Hmono, Hcomp. split.
    + intros H. apply Hmono. by apply scan_method_mono.
    + intros Hno Hcase. apply Hcomp; [exact Hno|].
      destruct Hcase as [H|(method & d & [<-|Hin] & Hd & Ho & Hc & Hn)].
      * left. by apply scan_method_keeps.
      * destruct (scan_method_binds opts openapi target pathItem m s d Htarget Hd Hc Hn)
          as [Hb|He].
        -- left. rewrite <- Ho. exact Hb.
        -- fold s1 in He. rewrite (Hmono He) in Hno. discriminate.
      * right. eauto 10.
Qed.

Lemma scan_paths_complete opts openapi (target : cval F) o :
  (forall dir, target <> CStr dir) ->
  forall paths s,
    let s' := foldl (fun s (kp : string * path_item) => foldl (fun s method =>
                                          scan_method require path_resolve apply opts openapi
                                            target kp.2 method s) s (pi_methods kp.2))
                s paths in
    (hasException (exception_ s) = true -> hasException (exception_ s') = true)
    /\ (hasException (exception_ s') = false ->
        is_Some (map_get o (map_ s))
        \/ (exists key pathItem method d,
              In (key, pathItem) paths /\ In method (pi_methods pathItem)
              /\ pi_operation pathItem method = Some d /\ od_operation d = o
              /\ is_Some (controllerName opts openapi pathItem method)
              /\ is_Some (operationName opts pathItem method)) ->
        is_Some (map_get o (map_ s'))).
Proof.
  intros Htarget paths. induction paths as [|[key pathItem] paths IH]; intros s; cbv zeta.
  - simpl. split; [auto|]. intros _ [H|(? & ? & ? & ? & [] & _)]. exact H.
  - simpl.
    destruct (scan_methods_complete opts openapi target pathItem o Htarget
                (pi_methods pathItem) s) as [Hmono1 Hcomp1]. cbv zeta in Hmono1, Hcomp1.
    set (s1 := foldl _ s (pi_methods pathItem)) in *.
    destruct (IH s1) as [Hmono Hcomp]. cbv zeta in Hmono, Hcomp. split.
    + intros H. apply Hmono, Hmono1, H.
    + intros Hno Hcase. apply Hcomp; [exact Hno|].
      assert (Hno1 : hasException (exception_ s1) = false).
      { destruct (hasException (exception_ s1)) eqn:E; [|reflexivity].
        rewrite (Hmono eq_refl) in Hno. discriminate. }
      destruct Hcase as [H|(k & p & method & d & [[= <- <-]|Hin] & Hm & Hd & Ho & Hc & Hn)].
      * left. apply Hcomp1; auto.
      * left. apply Hcomp1; [exact Hno1|]. right. eauto 10.
      * right. eauto 12.
Qed.

(** X3. A registry returned for an object target (or for the object a
    factory returned) is complete: every operation of the catalog that names
    a controller and an operation is bound in it. *)
Theorem registry_complete openapi isMock (target : cval F) opts map key pathItem method d :
  (forall dir, target <> CStr dir) ->
  mapControllers require path_resolve apply openapi isMock target opts = inl map ->
  In (key, pathItem) (oa_paths openapi) ->
  In method (pi_methods pathItem) ->
  pi_operation pathItem method = Some d ->
  is_Some (controllerName opts openapi pathItem method) ->
  is_Some (operationName opts pathItem method) ->
  is_Some (map_get (od_operation d) map).
Proof.
  intros Htarget Hmap Hin Hm Hd Hc Hn.
  unfold mapControllers in Hmap.
  destruct (_ && _); [discriminate|].
  assert (Hscan : forall (t : cval F) exc,
            (forall dir, t <> CStr dir) ->
            (if hasException (exception_ (scan_paths require path_resolve apply opts openapi t
                                            (mkScan [] [] exc)))
             then inr (Error (exc_toString
                                (exception_ (scan_paths require path_resolve apply opts openapi t
                                               (mkScan [] [] exc)))))
             else inl (map_ (scan_paths require path_resolve apply opts openapi t
                               (mkScan [] [] exc)))) = inl map ->
            is_Some (map_get (od_operation d) map)).
  { intros t exc Ht H.
    destruct (hasException _) eqn:E; [discriminate|]. injection H as <-.
    destruct (scan_paths_complete opts openapi t (od_operation d) Ht (oa_paths openapi)
                (mkScan [] [] exc)) as [_ Hcomp].
    apply Hcomp; [exact E|]. right. eauto 12. }
  destruct target as [ | | b | n | dir | f | items | props ];
    try (by destruct (Htarget dir)); try (by eapply Hscan; [|exact Hmap]).
  simpl in Hmap. destruct (apply f) as [result|err]; [|discriminate].
  destruct (negb (isNonNullObject result)) eqn:E; [discriminate|].
  eapply Hscan; [|exact Hmap]. intros dir ->. discriminate.
Qed.
(** Storing back the child found under a key records nothing. *)
Lemma hasException_at_same key e :
  hasException (exc_at key (fun _ => default (exc_new "") (assoc key (exc_ats e))) e)
  = hasException e.
Proof.
  destruct e as [h c m a n]. simpl. f_equal. f_equal.
  induction a as [|[k v] a IH]; simpl; [reflexivity|].
  destruct (String.eqb k key) eqn:E; simpl; [reflexivity|].
  by rewrite IH.
Qed.

(** X22. Under an object target, an operation whose controller holds a
    function under the operation's name is bound to that very function, and
    scanning it records no failure and loads no module. *)
Theorem function_handler_bound opts openapi (target : cval F) pathItem method s d
    controller operation f :
  (forall dir, target <> CStr dir) ->
  pi_operation pathItem method = Some d ->
  controllerName opts openapi pathItem method = Some controller ->
  operationName opts pathItem method = Some operation ->
  cval_get (cval_get target controller) operation = CFun f ->
  let s' := scan_method require path_resolve apply opts openapi target pathItem method s in
  map_ s' = map_set (od_operation d) (BoundFn f) (map_ s)
  /\ map_get (od_operation d) (map_ s') = Some (BoundFn f)
  /\ hasException (exception_ s') = hasException (exception_ s)
  /\ loadedControllers s' = loadedControllers s.
Proof.
  intros Htarget Hd Hc Ho Hf. cbv zeta.
  rewrite scan_method_names, Hd, Hc, Ho. cbv zeta.
  set (child := default (exc_new "") (assoc controller (exc_ats (exception_ s)))).
  assert (Hobj : load_from_object target controller operation child = (CFun f, child)).
  { unfold load_from_object.
    assert (Ht : cval_truthy (cval_get target controller) = true).
    { destruct (cval_get target controller); try discriminate; reflexivity. }
    rewrite Ht, Hf. reflexivity. }
  destruct target as [ | | b | n | dir | g | items | props ];
    try (by destruct (Htarget dir)); cbv beta iota; rewrite Hobj; simpl.
  all: rewrite map_get_set; unfold child; rewrite hasException_at_same; auto.
Qed.
End RegistryFacts.

Lemma function_handler_bound_witness :
  let s' := scan_method no_module join_path no_call default_options people_api
              people_controllers (item 0 "people" "list") "get"
              (mkScan [] [] (exc_new "")) in
  map_ s' = map_set (od_operation (decl 0 "people" "list")) (BoundFn mock_people) []
  /\ map_get (od_operation (decl 0 "people" "list")) (map_ s') = Some (BoundFn mock_people)
  /\ hasException (exception_ s') = hasException (exc_new "")
  /\ loadedControllers s' = [].
Proof.
  apply (function_handler_bound no_module join_path no_call default_options people_api
           people_controllers (item 0 "people" "list") "get" (mkScan [] [] (exc_new ""))
           (decl 0 "people" "list") "people" "list" mock_people).
  - discriminate.
  - reflexivity.
  - reflexivity.
  - reflexivity.
  - reflexivity.
Defined.

Lemma module_loaded_once_witness :
  let cache :=
    (load_from_path null_export join_path no_call "./controllers" "people" "list" []
       (exc_new "")).1.1 in
  load_from_path no_module join_path no_call "./controllers" "people" "list" cache (exc_new "")
  = load_from_path null_export join_path no_call "./controllers" "people" "list" cache
      (exc_new "")
  /\ (load_from_path no_module join_path no_call "./controllers" "people" "list" cache
        (exc_new "")).1.1 = cache.
Proof.
  apply (module_loaded_once null_export join_path no_call "./controllers" "people" "list" []
           (exc_new "") (CObj [("list", CNull)])).
  - left. split; reflexivity.
  - reflexivity.
Defined.

Lemma unannotated_catalog_witness :
  mapControllers no_module join_path no_call unbound_api false (CStr "./controllers")
    default_options = inl [].
Proof.
  apply (unannotated_catalog no_module join_path no_call unbound_api false
           (CStr "./controllers") default_options).
  - apply List.Forall_cons; [|apply List.Forall_nil].
    apply List.Forall_cons; [|apply List.Forall_nil].
    left. reflexivity.
  - left. eexists. reflexivity.
Defined.

Lemma registry_complete_witness :
  is_Some (map_get (od_operation (decl 0 "people" "list")) [(0, BoundFn mock_people)]).
Proof.
  apply (registry_complete no_module join_path no_call people_api false people_controllers
           default_options [(0, BoundFn mock_people)] "/people" (item 0 "people" "list")
           "get" (decl 0 "people" "list")).
  - discriminate.
  - vm_compute. reflexivity.
  - left. reflexivity.
  - left. reflexivity.
  - reflexivity.
  - eexists. reflexivity.
  - eexists. reflexivity.
Defined.

(** ** Directory targets *)

Section Directory.
Context {F : Type}.
Variable require : string -> cval F + error.
Variable path_resolve : string -> string -> string.
Variable apply : F -> cval F + error.

(** The cache only ever holds modules that [require] found. *)
Lemma cache_found_update path (c c' : cval F) loaded :
  require path = inl c' ->
  cache_found require loaded ->
  cache_found require (alist_update path c (fun _ => c) loaded).
Proof.
  intros Hr. unfold cache_found. induction loaded as [|[k v] loaded IH]; intros H; simpl.
  - apply List.Forall_cons; [simpl; eauto | apply List.Forall_nil].
  - apply Forall_cons in H as [Hk H].
    destruct (String.eqb k path); apply List.Forall_cons; auto.
Qed.

Lemma cache_found_assoc path loaded :
  cache_found require loaded -> is_Some (assoc path loaded) -> exists c, require path = inl c.
Proof.
  unfold cache_found. induction loaded as [|[k v] loaded IH]; simpl; intros H Hs.
  - by destruct Hs.
  - apply Forall_cons in H as [Hk H]. destruct (String.eqb k path) eqn:E; [|auto].
    apply String.eqb_eq in E as <-. exact Hk.
Qed.

Lemma load_from_path_cache dir controller operation loaded child :
  cache_found require loaded ->
  cache_found require (load_from_path require path_resolve apply dir controller operation
                 loaded child).1.1.
Proof.
  intros H.
  assert (Hcases :
    (load_from_path require path_resolve apply dir controller operation loaded child).1.1
    = loaded
    \/ exists c0 c',
         require (path_resolve dir controller) = inl c'
         /\ (load_from_path require path_resolve apply dir controller operation
               loaded child).1.1
            = alist_update (path_resolve dir controller) c0 (fun _ => c0) loaded).
  { unfold load_from_path. repeat case_match; simplify_eq; simpl; eauto. }
  destruct Hcases as [->|(c0 & c' & Hr & ->)]; [exact H|].
  by apply (cache_found_update _ _ c').
Qed.

(** A controller file that cannot be found is reported. *)
Lemma load_from_path_missing dir controller operation loaded child err :
  cache_found require loaded ->
  require (path_resolve dir controller) = inr err ->
  err_code err = Some "MODULE_NOT_FOUND" ->
  hasException (load_from_path require path_resolve apply dir controller operation
                  loaded child).2 = true.
Proof.
  intros Hc Hr Hcode. unfold load_from_path.
  destruct (assoc (path_resolve dir controller) loaded) as [c|] eqn:Ha.
  { destruct (cache_found_assoc _ _ Hc (mk_is_Some _ _ Ha)) as [c' Hc']. congruence. }
  simpl. rewrite Hr. simpl. rewrite bool_decide_eq_true_2 by exact Hcode.
  simpl. apply hasException_message.
Qed.

Lemma scan_method_cache opts openapi (target : cval F) pathItem method s :
  cache_found require (loadedControllers s) ->
  cache_found require (loadedControllers
                 (scan_method require path_resolve apply opts openapi target pathItem method s)).
Proof.
  intros H. rewrite scan_method_names.
  destruct (pi_operation pathItem method) as [d|]; [|exact H].
  destruct (controllerName _ _ _ _) as [controller|]; [|exact H].
  destruct (operationName _ _ _) as [operation|]; [|exact H].
  cbv zeta.
  set (child := default (exc_new "") (assoc controller (exc_ats (exception_ s)))).
  destruct target as [ | | b | n | dir | f | items | props ]; cbv beta iota;
    try match goal with
    | |- context [load_from_object ?t ?a ?b ?c] =>
        destruct (load_from_object t a b c) as [handler child1];
        destruct (bind_handler _ _ _ _); exact H
    end.
  pose proof (load_from_path_cache dir controller operation (loadedControllers s) child H)
    as Hl.
  destruct (load_from_path _ _ _ _ _ _ _ _) as [[loaded handler] child1].
  destruct (bind_handler _ _ _ _). exact Hl.
Qed.

Lemma scan_method_missing opts openapi dir pathItem method s d controller err :
  cache_found require (loadedControllers s) ->
  pi_operation pathItem method = Some d ->
  controllerName opts openapi pathItem method = Some controller ->
  is_Some (operationName opts pathItem method) ->
  require (path_resolve dir controller) = inr err ->
  err_code err = Some "MODULE_NOT_FOUND" ->
  hasException
    (exception_ (scan_method require path_resolve apply opts openapi (CStr dir)
                   pathItem method s)) = true.
Proof.
  intros Hc Hd Hn [operation Ho] Hr Hcode.
  rewrite scan_method_names, Hd, Hn, Ho. cbv zeta.
  set (child := default (exc_new "") (assoc controller (exc_ats (exception_ s)))).
  pose proof (load_from_path_missing dir controller operation (loadedControllers s) child err
                Hc Hr Hcode) as Hl.
  destruct (load_from_path _ _ _ _ _ _ _ _) as [[loaded handler] child1]. simpl in Hl.
  pose proof (bind_handler_mono (od_operation d) handler (map_ s) child1 Hl) as Hb.
  destruct (bind_handler _ _ _ _) as [map child2]. simpl in *.
  by apply hasException_at_child.
Qed.

Lemma scan_methods_missing opts openapi dir pathItem :
  forall methods s,
    cache_found require (loadedControllers s) ->
    let s' := foldl (fun s method => scan_method require path_resolve apply opts openapi
                                       (CStr dir) pathItem method s) s methods in
    cache_found require (loadedControllers s')
    /\ (hasException (exception_ s) = true
        \/ (exists method d controller err,
              In method methods /\ pi_operation pathItem method = Some d
              /\ controllerName opts openapi pathItem method = Some controller
              /\ is_Some (operationName opts pathItem method)
              /\ require (path_resolve dir controller) = inr err
              /\ err_code err = Some "MODULE_NOT_FOUND") ->
        hasException (exception_ s') = true).
Proof.
  induction methods as [|m methods IH]; intros s Hc; cbv zeta.
  - simpl. split; [exact Hc|]. intros [H|(? & ? & ? & ? & [] & _)]. exact H.
  - simpl.
    set (s1 := scan_method require path_resolve apply opts openapi (CStr dir) pathItem m s).
    assert (Hc1 : cache_found require (loadedControllers s1)) by by apply scan_method_cache.
    destruct (IH s1 Hc1) as [Hcache Hfail]. cbv zeta in Hcache, Hfail.
    split; [exact Hcache|]. intros Hcase. apply Hfail.
    destruct Hcase as [H|(method & d & controller & err & [<-|Hin] & Hd & Hn & Ho & Hr & Hcode)].
    + left. by apply scan_method_mono.
    + left. by eapply scan_method_missing.
    + right. eauto 12.
Qed.

(** X28. With a directory target, a controller file that cannot be found
    makes [mapControllers] throw: if some operation of the catalog names a
    controller and an operation and [require] fails for the controller's
    path with the code [MODULE_NOT_FOUND], no registry is returned, wherever
    the operation stands in the catalog and whatever the other controllers
    are. *)
Theorem missing_controller_file_fails openapi isMock dir opts key pathItem method d
    controller err :
  In (key, pathItem) (oa_paths openapi) ->
  In method (pi_methods pathItem) ->
  pi_operation pathItem method = Some d ->
  controllerName opts openapi pathItem method = Some controller ->
  is_Some (operationName opts pathItem method) ->
  require (path_resolve dir controller) = inr err ->
  err_code err = Some "MODULE_NOT_FOUND" ->
  exists e, mapControllers require path_resolve apply openapi isMock (CStr dir) opts = inr e.
Proof.
  intros Hin Hm Hd Hn Ho Hr Hcode. unfold mapControllers. simpl.
  set (s0 := mkScan [] [] _).
  assert (Hall : forall paths s,
            cache_found require (loadedControllers s) ->
            let s' := foldl (fun s (kp : string * path_item) =>
                               foldl (fun s method =>
                                        scan_method require path_resolve apply opts openapi
                                          (CStr dir) kp.2 method s) s (pi_methods kp.2))
                        s paths in
            cache_found require (loadedControllers s')
            /\ (hasException (exception_ s) = true \/ In (key, pathItem) paths ->
                hasException (exception_ s') = true)).
  { induction paths as [|[k p] paths IH]; intros s Hc; cbv zeta.
    - simpl. split; [exact Hc|]. by intros [H|[]].
    - simpl.
      destruct (scan_methods_missing opts openapi dir p (pi_methods p) s Hc) as [Hc1 Hf1].
      cbv zeta in Hc1, Hf1. set (s1 := foldl _ s (pi_methods p)) in *.
      destruct (IH s1 Hc1) as [Hcache Hfail]. cbv zeta in Hcache, Hfail.
      split; [exact Hcache|]. intros Hcase. apply Hfail.
      destruct Hcase as [H|[[= -> ->]|Hin']].
      + left. apply Hf1. by left.
      + left. apply Hf1. right. eauto 12.
      + by right. }
  destruct (Hall (oa_paths openapi) s0) as [_ Hfail]; [apply List.Forall_nil|].
  cbv zeta in Hfail. unfold scan_paths. rewrite Hfail by (by right). eauto.
Qed.

(** X29. With a directory target, an operation whose controller module (the
    export of the file, or what the exported factory returns) has a function
    as own property under the operation's name is bound to that very
    function; scanning it records no failure and leaves the module in the
    cache. *)
Theorem directory_handler_bound opts openapi dir pathItem method s d controller operation
    (c : cval F) f :
  pi_operation pathItem method = Some d ->
  controllerName opts openapi pathItem method = Some controller ->
  operationName opts pathItem method = Some operation ->
  assoc (path_resolve dir controller) (loadedControllers s) = None ->
  (require (path_resolve dir controller) = inl c /\ is_function c = false
   \/ exists g, require (path_resolve dir controller) = inl (CFun g) /\ apply g = inl c) ->
  cval_hasOwnProperty c operation = Some true ->
  cval_get c operation = CFun f ->
  let s' := scan_method require path_resolve apply opts openapi (CStr dir) pathItem method s in
  map_ s' = map_set (od_operation d) (BoundFn f) (map_ s)
  /\ hasException (exception_ s') = hasException (exception_ s)
  /\ assoc (path_resolve dir controller) (loadedControllers s') = Some c.
Proof.
  intros Hd Hn Ho Hcache Hload Hown Hf. cbv zeta.
  rewrite scan_method_names, Hd, Hn, Ho. cbv zeta.
  set (child := default (exc_new "") (assoc controller (exc_ats (exception_ s)))).
  assert (Hl : load_from_path require path_resolve apply dir controller operation
                 (loadedControllers s) child
               = (alist_update (path_resolve dir controller) c (fun _ => c) (loadedControllers s),
                  CFun f, child)).
  { unfold load_from_path. rewrite Hcache. simpl.
    assert (Hr : match require (path_resolve dir controller) with
                 | inl (CFun f0) =>
                     match apply f0 with
                     | inl controller0 =>
                         inl (alist_update (path_resolve dir controller) controller0
                                (fun _ => controller0) (loadedControllers s))
                     | inr err => inr err
                     end
                 | inl controller0 =>
                     inl (alist_update (path_resolve dir controller) controller0
                            (fun _ => controller0) (loadedControllers s))
                 | inr err => inr err
                 end
                 = inl (alist_update (path_resolve dir controller) c (fun _ => c)
                          (loadedControllers s))).
    { destruct Hload as [[-> Hfun]|(g & -> & ->)]; [|reflexivity].
      destruct c; first [reflexivity | discriminate]. }
    rewrite Hr, assoc_alist_update. simpl. rewrite Hown, Hf. reflexivity. }
  rewrite Hl. simpl. unfold child. rewrite hasException_at_same, assoc_alist_update. auto.
Qed.
End Directory.

Lemma directory_handler_bound_witness :
  let s' := scan_method people_module join_path no_call default_options people_api
              (CStr "./controllers") (item 0 "people" "list") "get"
              (mkScan [] [] (exc_new "")) in
  map_ s' = map_set (od_operation (decl 0 "people" "list")) (BoundFn mock_people) []
  /\ hasException (exception_ s') = hasException (exc_new "")
  /\ assoc (join_path "./controllers" "people") (loadedControllers s')
     = Some (CObj [("list", CFun mock_people)]).
Proof.
  apply (directory_handler_bound people_module join_path no_call default_options people_api
           "./controllers" (item 0 "people" "list") "get" (mkScan [] [] (exc_new ""))
           (decl 0 "people" "list") "people" "list" (CObj [("list", CFun mock_people)])
           mock_people).
  - reflexivity.
  - reflexivity.
  - reflexivity.
  - reflexivity.
  - left. split; reflexivity.
  - reflexivity.
  - reflexivity.
Defined.

Lemma missing_controller_file_fails_witness :
  exists e,
    mapControllers no_module join_path no_call people_api false (CStr "./controllers")
      default_options = inr e.
Proof.
  apply (missing_controller_file_fails no_module join_path no_call people_api false
           "./controllers" default_options "/people" (item 0 "people" "list") "get"
           (decl 0 "people" "list") "people"
           (mkError ("Cannot find module " +:+ "./controllers/people") None None
              (Some "MODULE_NOT_FOUND")
              (engine_stack "Error" ("Cannot find module " +:+ "./controllers/people"))
              "Error")).
  - left. reflexivity.
  - left. reflexivity.
  - reflexivity.
  - reflexivity.
  - eexists. reflexivity.
  - reflexivity.
  - reflexivity.
Defined.

(** ** The constructor and [use] *)

Section ConstructorFacts.
Context {F : Type}.

(** The check of one string option. *)
Lemma string_option_inl (options : cval F) name dflt s :
  string_option options name dflt = inl s ->
  (cval_get options name = CStr s /\ s <> "")
  \/ (cval_truthy (cval_get options name) = false /\ s = dflt).
Proof.
  unfold string_option. destruct (cval_truthy (cval_get options name)) eqn:E.
  - destruct (cval_get options name); try discriminate. intros [= <-]. left.
    split; [reflexivity|]. simpl in E. apply negb_true_iff in E. by apply String.eqb_neq.
  - intros [= <-]. auto.
Qed.

Lemma string_option_ok (options : cval F) name dflt :
  (cval_truthy (cval_get options name) = true -> cval_typeof (cval_get options name) = "string") ->
  exists s, string_option options name dflt = inl s.
Proof.
  unfold string_option. destruct (cval_truthy (cval_get options name)) eqn:E; [|eauto].
  intros H. specialize (H eq_refl). destruct (cval_get options name); try discriminate. eauto.
Qed.

(** X25. The options of an instance. Each of the seven names the middleware
    works with is a non-empty string: the string given in the options, or
    the default when the option is missing or falsy (the empty string
    included). [fallthrough] is off only when the options have their own
    [fallthrough] property with a falsy value. The store of handlers starts
    empty. *)
Theorem constructor_options built (options : cval F) inst :
  OpenApiEnforcerMiddleware built options = inl inst ->
  Forall (fun name => name <> "") (option_names (inst_options inst))
  /\ Forall2 (fun name nd =>
                cval_get options nd.1 = CStr name
                \/ (cval_truthy (cval_get options nd.1) = false /\ name = nd.2))
       (option_names (inst_options inst)) option_defaults
  /\ (fallthrough (inst_options inst) = false
      <-> cval_hasOwnProperty options "fallthrough" = Some true
          /\ cval_truthy (cval_get options "fallthrough") = false)
  /\ inst_middleware inst = [].
Proof.
  unfold OpenApiEnforcerMiddleware.
  destruct (_ && _) eqn:Hvalid; [discriminate|].
  set (o := if negb (cval_truthy options) then CObj [] else options).
  assert (Ho : forall name, cval_get o name = cval_get options name).
  { intros name. unfold o. destruct options; try reflexivity; simpl in *;
      try discriminate; try (destruct b; [reflexivity|discriminate]).
    - destruct (n =? 0)%Z; [discriminate|reflexivity].
    - destruct (String.eqb s ""); [discriminate|reflexivity]. }
  assert (Hown : match cval_hasOwnProperty o "fallthrough" with
                 | Some true => cval_truthy (cval_get o "fallthrough")
                 | _ => true
                 end = false
                 <-> cval_hasOwnProperty options "fallthrough" = Some true
                     /\ cval_truthy (cval_get options "fallthrough") = false).
  { rewrite Ho. unfold o.
    destruct options as [ | | b | n | s | f | items | props ]; simpl in *;
      try discriminate; try (split; [discriminate | by intros [[=] _]]).
    - by destruct b.
    - by destruct (n =? 0)%Z.
    - by destruct (String.eqb s "").
    - destruct (bool_decide _); [|split; [discriminate | by intros [[=] _]]].
      split; [auto | by intros [_ ?]]. }
  destruct (string_option o "mockHeader" _) as [s1|] eqn:H1; [|discriminate].
  destruct (string_option o "mockQuery" _) as [s2|] eqn:H2; [|discriminate].
  destruct (string_option o "reqMockStatusCodeProperty" _) as [s3|] eqn:H3; [|discriminate].
  destruct (string_option o "reqOpenApiProperty" _) as [s4|] eqn:H4; [|discriminate].
  destruct (string_option o "reqOperationProperty" _) as [s5|] eqn:H5; [|discriminate].
  destruct (string_option o "xController" _) as [s6|] eqn:H6; [|discriminate].
  destruct (string_option o "xOperation" _) as [s7|] eqn:H7; [|discriminate].
  destruct (definition_promise built) as [promise warned]. intros [= <-]. simpl.
  apply string_option_inl in H1, H2, H3, H4, H5, H6, H7.
  rewrite !Ho in *.
  split; [|split; [|split; [exact Hown|reflexivity]]].
  - unfold option_names. simpl.
    repeat (apply List.Forall_cons); try apply List.Forall_nil.
    all: match goal with
         | H : (_ = CStr ?s /\ _) \/ _ |- ?s <> "" =>
             destruct H as [[_ H]|[_ ->]]; [exact H|discriminate]
         end.
  - unfold option_names, option_defaults. simpl.
    repeat (apply List.Forall2_cons); try apply List.Forall2_nil; cbn [fst snd].
    all: tauto.
Qed.

(** X26. The constructor accepts the options exactly when they are
    [undefined] or a non-null object and none of the seven string options is
    set to a truthy value that is not a string; it does so however the
    definition builds (an invalid definition rejects the promise, it does
    not make the constructor throw). *)
Theorem options_accepted_iff built (options : cval F) :
  (exists inst, OpenApiEnforcerMiddleware built options = inl inst)
  <-> (options = CUndefined \/ isNonNullObject options = true)
      /\ Forall (fun nd : string * string =>
                   cval_truthy (cval_get options nd.1) = true ->
                   cval_typeof (cval_get options nd.1) = "string") option_defaults.
Proof.
  unfold OpenApiEnforcerMiddleware.
  set (o := if negb (cval_truthy options) then CObj [] else options).
  assert (Ho : negb (String.eqb (cval_typeof options) "undefined")
               && (negb (cval_truthy options)
                   || negb (String.eqb (cval_typeof options) "object")) = false ->
               forall name, cval_get o name = cval_get options name).
  { intros Hvalid name. unfold o. destruct options; try reflexivity; simpl in *;
      try discriminate; try (destruct b; [reflexivity|discriminate]).
    - destruct (n =? 0)%Z; [discriminate|reflexivity].
    - destruct (String.eqb s ""); [discriminate|reflexivity]. }
  assert (Hv : negb (String.eqb (cval_typeof options) "undefined")
               && (negb (cval_truthy options)
                   || negb (String.eqb (cval_typeof options) "object")) = false
               <-> options = CUndefined \/ isNonNullObject options = true).
  { destruct options; simpl; split; intros H; auto; try discriminate;
      try (destruct H as [H|H]; discriminate).
    - by destruct b.
    - by destruct (n =? 0)%Z.
    - by destruct (String.eqb s ""). }
  destruct (_ && _) eqn:Hvalid.
  { split; [by intros [inst [=]]|]. intros [H _]. apply Hv in H. discriminate. }
  specialize (Ho eq_refl). split.
  - intros [inst H]. split; [by apply Hv|].
    destruct (string_option o "mockHeader" _) as [s1|] eqn:H1; [|discriminate].
    destruct (string_option o "mockQuery" _) as [s2|] eqn:H2; [|discriminate].
    destruct (string_option o "reqMockStatusCodeProperty" _) as [s3|] eqn:H3; [|discriminate].
    destruct (string_option o "reqOpenApiProperty" _) as [s4|] eqn:H4; [|discriminate].
    destruct (string_option o "reqOperationProperty" _) as [s5|] eqn:H5; [|discriminate].
    destruct (string_option o "xController" _) as [s6|] eqn:H6; [|discriminate].
    destruct (string_option o "xOperation" _) as [s7|] eqn:H7; [|discriminate].
    apply string_option_inl in H1, H2, H3, H4, H5, H6, H7.
    rewrite !Ho in *. unfold option_defaults.
    repeat (apply List.Forall_cons); try apply List.Forall_nil; cbn [fst snd].
    all: intros Ht.
    all: match goal with
         | H : (cval_get _ ?n = CStr _ /\ _) \/ _ |- cval_typeof (cval_get _ ?n) = _ =>
             destruct H as [[-> _]|[H _]]; [reflexivity|congruence]
         end.
  - intros [_ Hall]. unfold option_defaults in Hall.
    repeat (apply Forall_cons in Hall as [? Hall]). cbn [fst snd] in *.
    destruct (string_option_ok o "mockHeader" "x-mock") as [s1 ->]; [by rewrite Ho|].
    destruct (string_option_ok o "mockQuery" "x-mock") as [s2 ->]; [by rewrite Ho|].
    destruct (string_option_ok o "reqMockStatusCodeProperty" "mockStatusCode") as [s3 ->];
      [by rewrite Ho|].
    destruct (string_option_ok o "reqOpenApiProperty" "openapi") as [s4 ->]; [by rewrite Ho|].
    destruct (string_option_ok o "reqOperationProperty" "operation") as [s5 ->];
      [by rewrite Ho|].
    destruct (string_option_ok o "xController" "x-controller") as [s6 ->]; [by rewrite Ho|].
    destruct (string_option_ok o "xOperation" "x-operation") as [s7 ->]; [by rewrite Ho|].
    destruct (definition_promise built). eauto.
Qed.
End ConstructorFacts.

Lemma constructor_options_witness :
  Forall (fun name => name <> "") (option_names (inst_options test_instance))
  /\ Forall2 (fun name (nd : string * string) =>
                cval_get test_options nd.1 = CStr name
                \/ (cval_truthy (cval_get test_options nd.1) = false /\ name = nd.2))
       (option_names (inst_options test_instance)) option_defaults
  /\ (fallthrough (inst_options test_instance) = false
      <-> cval_hasOwnProperty test_options "fallthrough" = Some true
          /\ cval_truthy (cval_get test_options "fallthrough") = false)
  /\ inst_middleware test_instance = [].
Proof.
  apply (constructor_options (Resolved (people_api, None, None)) test_options test_instance).
  reflexivity.
Defined.

(** Once a call of [use] has thrown, nothing more is registered. *)
Lemma use_all_inr e ms :
  foldl (fun acc m => match acc with inl i => use m i | inr e => inr e end) (inr e) ms = inr e.
Proof. induction ms as [|m ms IH]; simpl; auto. Qed.

(** X27. Handlers are registered in the order of the calls of [use]. A
    sequence of calls succeeds exactly when every argument is a function;
    the store is then the store before followed by these functions in the
    order of the calls, and the options and the promise are unchanged.
    Otherwise the error raised names the first argument that is not a
    function. *)
Theorem use_registers_in_order ms : forall inst,
  (forall inst',
     use_all ms inst = inl inst' ->
     map CFun (inst_middleware inst') = map CFun (inst_middleware inst) ++ ms
     /\ inst_options inst' = inst_options inst
     /\ inst_promise inst' = inst_promise inst)
  /\ (forallb is_function ms = true -> exists inst', use_all ms inst = inl inst')
  /\ (forall e,
        use_all ms inst = inr e ->
        exists before m after,
          ms = before ++ m :: after
          /\ forallb is_function before = true /\ is_function m = false
          /\ e = Error ("Invalid middleware. Value must be a function. Received: "
                        +:+ cval_to_string m)).
Proof.
  unfold use_all. induction ms as [|m ms IH]; intros inst.
  - simpl. split; [|split].
    + intros inst' [= <-]. by rewrite app_nil_r.
    + eauto.
    + intros e [=].
  - simpl. destruct (is_function m) eqn:Hm.
    + destruct m as [ | | b | n | s | f | items | props ]; try discriminate. simpl.
      destruct (IH (mkInstance (inst_options inst) (inst_middleware inst ++ [f])
                      (inst_promise inst) (inst_warned inst))) as (H1 & H2 & H3).
      split; [|split].
      * intros inst' H. destruct (H1 inst' H) as (Hs & Ho & Hp). rewrite Hs. simpl.
        rewrite map_app, <- app_assoc. auto.
      * exact H2.
      * intros e He. destruct (H3 e He) as (before & m & after & -> & Hb & Hm' & ->).
        exists (CFun f :: before), m, after. auto.
    + assert (Huse : use m inst
                     = inr (Error ("Invalid middleware. Value must be a function. Received: "
                                   +:+ cval_to_string m))).
      { destruct m; first [reflexivity | discriminate]. }
      rewrite Huse, use_all_inr. split; [|split]; try discriminate.
      intros e [= <-]. exists [], m, ms. auto.
Qed.
